(** * wg-portal: AmneziaWG link encoder, provisioning sanitizer and
      config-file coordinator

    A shallow embedding of
    - [internal/app/configfile] (the [vpn://] link builder and the
      event handlers of the config-file manager), and
    - [internal/config] (sanitizing the provisioning interfaces and their
      advanced-security blocks),
    followed by the properties proved about them.

    Go strings are byte sequences: they are modelled by [string] (a list of
    8-bit [ascii]); [[]byte] is [list ascii] through [list_ascii_of_string].
    Go's [int] is taken to be 64 bits wide. *)

From Stdlib Require Import ZArith NArith Ascii String List Bool Lia.
From Stdlib Require Import DecimalString ZifyBool.
From Stdlib Require DecimalPos DecimalZ.
From stdpp Require Import base option list gmap strings.

(** ** Bytes *)

Definition byte_val (c : ascii) : N := N_of_ascii c.
Definition byte_of (n : N) : ascii := ascii_of_N n.

(** ** Package [strings] and [unicode] (Go standard library) *)

(** [asciiSpace] of package [strings]: tab, LF, VT, FF, CR and space. *)
Definition asciiSpace (c : ascii) : bool :=
  let n := byte_val c in
  ((9 <=? n) && (n <=? 13) || (n =? 32))%N.

(** [unicode.IsSpace] on the runes that UTF-8 encodes in two bytes:
    U+0085 (NEL) is C2 85 and U+00A0 (NBSP) is C2 A0. *)
Definition isSpace2 (c1 c2 : ascii) : bool :=
  ((byte_val c1 =? 194) && ((byte_val c2 =? 133) || (byte_val c2 =? 160)))%N.

(** [unicode.IsSpace] on the runes that UTF-8 encodes in three bytes:
    U+1680 (E1 9A 80), U+2000..U+200A (E2 80 80..8A), U+2028, U+2029,
    U+202F (E2 80 A8, A9, AF), U+205F (E2 81 9F) and U+3000 (E3 80 80). *)
Definition isSpace3 (c1 c2 c3 : ascii) : bool :=
  let n1 := byte_val c1 in
  let n2 := byte_val c2 in
  let n3 := byte_val c3 in
  ((n1 =? 225) && (n2 =? 154) && (n3 =? 128)
   || (n1 =? 226) && (n2 =? 128)
      && ((128 <=? n3) && (n3 <=? 138) || (n3 =? 168) || (n3 =? 169) || (n3 =? 175))
   || (n1 =? 226) && (n2 =? 129) && (n3 =? 159)
   || (n1 =? 227) && (n2 =? 128) && (n3 =? 128))%N.

(** [strings.TrimLeftFunc(s, unicode.IsSpace)]: drop white-space runes from
    the front.  A byte sequence decodes to a white-space rune exactly when
    it starts with that rune's encoding; an invalid byte decodes to
    [RuneError], which is no space. *)
Fixpoint TrimLeftSpace (s : string) : string :=
  match s with
  | "" => ""
  | String c1 r1 =>
    if asciiSpace c1 then TrimLeftSpace r1 else
    match r1 with
    | "" => s
    | String c2 r2 =>
      if isSpace2 c1 c2 then TrimLeftSpace r2 else
      match r2 with
      | "" => s
      | String c3 r3 => if isSpace3 c1 c2 c3 then TrimLeftSpace r3 else s
      end
    end
  end.

(** A string made of white-space runes only. *)
Definition isSpaceOnly (s : string) : bool := String.eqb (TrimLeftSpace s) "".

(** [strings.TrimRightFunc(s, unicode.IsSpace)]: drop the longest suffix
    made of white-space runes (decoding backwards finds a white-space rune
    exactly when the string ends with its encoding). *)
Fixpoint TrimRightSpace (s : string) : string :=
  match s with
  | "" => ""
  | String c r => if isSpaceOnly s then "" else String c (TrimRightSpace r)
  end.

(** [strings.TrimSpace]. *)
Definition TrimSpace (s : string) : string := TrimRightSpace (TrimLeftSpace s).

(** The code points on which [unicode.IsSpace] holds (Unicode's
    White_Space property). *)
Definition whiteSpace : list N :=
  [ 9; 10; 11; 12; 13; 32; 133; 160; 5760;
    8192; 8193; 8194; 8195; 8196; 8197; 8198; 8199; 8200; 8201; 8202;
    8232; 8233; 8239; 8287; 12288 ]%N.

(** The UTF-8 encoding of a code point below U+10000. *)
Definition utf8 (r : N) : string :=
  if (r <? 128)%N then String (byte_of r) ""
  else if (r <? 2048)%N then
    String (byte_of (192 + N.shiftr r 6))
      (String (byte_of (128 + N.land r 63)) "")
  else
    String (byte_of (224 + N.shiftr r 12))
      (String (byte_of (128 + N.land (N.shiftr r 6) 63))
         (String (byte_of (128 + N.land r 63)) "")).

(** A string that is empty or holds white space only. *)
Inductive SpaceOnly : string -> Prop :=
  | SpaceOnly_nil : SpaceOnly ""
  | SpaceOnly_rune r s : In r whiteSpace -> SpaceOnly s -> SpaceOnly (utf8 r +:+ s).

(** [strings.HasPrefix]. *)
Fixpoint HasPrefix (s p : string) : bool :=
  match p, s with
  | "", _ => true
  | String a p', String b s' => Ascii.eqb a b && HasPrefix s' p'
  | String _ _, "" => false
  end.

(** [strings.ReplaceAll(s, old, new)] for a non-empty [old]: matches are
    taken from left to right and do not overlap.  [skip] counts the bytes
    of a match still to be dropped. *)
Fixpoint ReplaceAll_go (old new : string) (skip : nat) (s : string) : string :=
  match s with
  | "" => ""
  | String c r =>
    match skip with
    | S k => ReplaceAll_go old new k r
    | O =>
      if HasPrefix s old
      then new +:+ ReplaceAll_go old new (String.length old - 1) r
      else String c (ReplaceAll_go old new 0 r)
    end
  end.

Definition ReplaceAll (s old new : string) : string := ReplaceAll_go old new 0 s.

(** [strings.Split(s, sep)] for a non-empty [sep]: the pieces between the
    occurrences of [sep], one more than there are occurrences. *)
Fixpoint Split_go (sep : string) (skip : nat) (s : string) : list string :=
  match s with
  | "" => [""]
  | String c r =>
    match skip with
    | S k => Split_go sep k r
    | O =>
      if HasPrefix s sep
      then "" :: Split_go sep (String.length sep - 1) r
      else match Split_go sep 0 r with
           | p :: ps => String c p :: ps
           | [] => [String c ""]
           end
    end
  end.

Definition Split (s sep : string) : list string := Split_go sep 0 s.

(** [strings.IndexByte] and [strings.LastIndexByte]; [None] is Go's -1. *)
Fixpoint IndexByte (s : string) (c : ascii) : option nat :=
  match s with
  | "" => None
  | String a r => if Ascii.eqb a c then Some 0 else S <$> IndexByte r c
  end.

Fixpoint LastIndexByte (s : string) (c : ascii) : option nat :=
  match s with
  | "" => None
  | String a r =>
    match LastIndexByte r c with
    | Some i => Some (S i)
    | None => if Ascii.eqb a c then Some 0 else None
    end
  end.

(** The slices [s[i:]] and [s[i:j]]. *)
Fixpoint slice_from (i : nat) (s : string) : string :=
  match i, s with
  | O, _ => s
  | S i', String _ r => slice_from i' r
  | S _, "" => ""
  end.

Definition slice (i j : nat) (s : string) : string := substring i (j - i) s.

(** The ASCII fast path of [strings.ToLower]. *)
Definition isASCII (s : string) : bool :=
  forallb (fun c => (byte_val c <? 128)%N) (list_ascii_of_string s).

Definition lowerASCII (c : ascii) : ascii :=
  let n := byte_val c in
  if ((65 <=? n) && (n <=? 90))%N then byte_of (n + 32) else c.

Fixpoint mapBytes (f : ascii -> ascii) (s : string) : string :=
  match s with
  | "" => ""
  | String c r => String (f c) (mapBytes f r)
  end.

(** The case tables of package [unicode] are not reproduced: what
    [strings.Map(unicode.ToLower, s)] returns on a string that holds a
    byte outside ASCII is left to the instance. *)
Class Unicode := { unicode_ToLower : string -> string }.

(** [strings.ToLower]. *)
Definition ToLower `{Unicode} (s : string) : string :=
  if isASCII s then mapBytes lowerASCII s else unicode_ToLower s.

(** ** Package [strconv] *)

(** [strconv.Itoa]. *)
Definition Itoa (i : Z) : string := NilZero.string_of_int (Z.to_int i).

Definition digit_val (c : ascii) : option Z :=
  let n := byte_val c in
  if ((48 <=? n) && (n <=? 57))%N then Some (Z.of_N n - 48)%Z else None.

Fixpoint parseDecimal (acc : Z) (s : string) : option Z :=
  match s with
  | "" => Some acc
  | String c r =>
    match digit_val c with
    | Some d => parseDecimal (10 * acc + d) r
    | None => None
    end
  end.

(** [strconv.Atoi]: an optional sign, then one decimal digit or more; the
    value has to fit a 64-bit [int].  [None] stands for a non-nil error. *)
Definition Atoi (s : string) : option Z :=
  let '(neg, ds) :=
    match s with
    | String c r =>
      if Ascii.eqb c "+" then (false, r)
      else if Ascii.eqb c "-" then (true, r)
      else (false, s)
    | "" => (false, s)
    end in
  match ds with
  | "" => None
  | _ =>
    match parseDecimal 0 ds with
    | None => None
    | Some n =>
      let v := if neg : bool then (- n)%Z else n in
      if ((- 2 ^ 63 <=? v) && (v <=? 2 ^ 63 - 1))%Z then Some v else None
    end
  end.

(** [strconv.ParseBool]; [None] stands for a non-nil error. *)
Definition ParseBool (str : string) : option bool :=
  if existsb (String.eqb str) ["1"; "t"; "T"; "TRUE"; "true"; "True"] then Some true
  else if existsb (String.eqb str) ["0"; "f"; "F"; "FALSE"; "false"; "False"] then Some false
  else None.

(** [lower(c)] of package [strconv]: [c | ('x' - 'X')]. *)
Definition lower (c : ascii) : N := N.lor (byte_val c) 32.

Definition isDecDigit (c : ascii) : bool :=
  ((48 <=? byte_val c) && (byte_val c <=? 57))%N.

Inductive NumError : Type :=
  | ErrSyntax
  | ErrRange
  | ErrBase
  | ErrBitSize.

(** The value of a byte as a digit in [ParseUint]'s loop. *)
Definition uintDigit (c : ascii) : option N :=
  if isDecDigit c then Some (byte_val c - 48)%N
  else if ((97 <=? lower c) && (lower c <=? 122))%N then Some (lower c - 97 + 10)%N
  else None.

(** The loop of [strconv.ParseUint]: [n] is a [uint64] and wraps around. *)
Fixpoint parseUintLoop (base0 : bool) (base cutoff maxVal n : N) (s : string)
  : NumError + N :=
  match s with
  | "" => inr n
  | String c r =>
    if Ascii.eqb c "_" && base0 then parseUintLoop base0 base cutoff maxVal n r
    else
      match uintDigit c with
      | None => inl ErrSyntax
      | Some d =>
        if (base <=? d)%N then inl ErrSyntax
        else if (cutoff <=? n)%N then inl ErrRange
        else
          let n' := ((n * base) mod 2 ^ 64)%N in
          let n1 := ((n' + d) mod 2 ^ 64)%N in
          if ((n1 <? n') || (maxVal <? n1))%N then inl ErrRange
          else parseUintLoop base0 base cutoff maxVal n1 r
      end
  end.

(** What [underscoreOK] saw last: the beginning, a digit or base prefix,
    an underscore, or anything else. *)
Inductive Saw : Type := SawBegin | SawDigit | SawUnderscore | SawOther.

Fixpoint underscoreOK_go (hex : bool) (saw : Saw) (s : string) : bool :=
  match s with
  | "" => match saw with SawUnderscore => false | _ => true end
  | String c r =>
    if isDecDigit c || (hex && ((97 <=? lower c) && (lower c <=? 102))%N)
    then underscoreOK_go hex SawDigit r
    else if Ascii.eqb c "_"
    then match saw with SawDigit => underscoreOK_go hex SawUnderscore r | _ => false end
    else match saw with SawUnderscore => false | _ => underscoreOK_go hex SawOther r end
  end.

Definition isBasePrefix (s : string) : option N :=
  match s with
  | String c0 (String c1 _) =>
    if Ascii.eqb c0 "0" then
      if (lower c1 =? 98)%N then Some 2%N
      else if (lower c1 =? 111)%N then Some 8%N
      else if (lower c1 =? 120)%N then Some 16%N
      else None
    else None
  | _ => None
  end.

(** [strconv.underscoreOK]. *)
Definition underscoreOK (s : string) : bool :=
  let s :=
    match s with
    | String c r => if Ascii.eqb c "-" || Ascii.eqb c "+" then r else s
    | "" => s
    end in
  match isBasePrefix s with
  | Some b => underscoreOK_go (b =? 16)%N SawDigit (slice_from 2 s)
  | None => underscoreOK_go false SawBegin s
  end.

(** [strconv.ParseUint(s, base, bitSize)]. *)
Definition ParseUint (s : string) (base bitSize : N) : NumError + N :=
  match s with
  | "" => inl ErrSyntax
  | String c0 _ =>
    let base0 := (base =? 0)%N in
    let picked : option (N * string) :=
      if ((2 <=? base) && (base <=? 36))%N then Some (base, s)
      else if base0 then
        if Ascii.eqb c0 "0" then
          match isBasePrefix s with
          | Some b =>
            if (3 <=? String.length s)%nat then Some (b, slice_from 2 s)
            else Some (8%N, slice_from 1 s)
          | None => Some (8%N, slice_from 1 s)
          end
        else Some (10%N, s)
      else None in
    match picked with
    | None => inl ErrBase
    | Some (b, digits) =>
      if (64 <? bitSize)%N then inl ErrBitSize
      else
        let bits := if (bitSize =? 0)%N then 64%N else bitSize in
        let cutoff := ((2 ^ 64 - 1) / b + 1)%N in
        let maxVal := (2 ^ bits - 1)%N in
        match parseUintLoop base0 b cutoff maxVal 0 digits with
        | inl e => inl e
        | inr n =>
          let underscores := base0 && existsb (Ascii.eqb "_") (list_ascii_of_string digits) in
          if underscores && negb (underscoreOK s) then inl ErrSyntax else inr n
        end
    end
  end.

(** ** Package [net] *)

Inductive AddrError : Type :=
  | MissingPort
  | TooManyColons
  | MissingBracket
  | UnexpectedOpen
  | UnexpectedClose.

Definition byteAt (s : string) (i : nat) : option ascii := String.get i s.

(** [net.SplitHostPort]. *)
Definition SplitHostPort (hostport : string) : AddrError + (string * string) :=
  match LastIndexByte hostport ":" with
  | None => inl MissingPort
  | Some i =>
    let bracketed : AddrError + (string * nat * nat) :=
      if HasPrefix hostport "[" then
        match IndexByte hostport "]" with
        | None => inl MissingBracket
        | Some end_ =>
          if (end_ + 1 =? String.length hostport)%nat then inl MissingPort
          else if (end_ + 1 =? i)%nat then inr (slice 1 end_ hostport, 1, end_ + 1)
          else if bool_decide (byteAt hostport (end_ + 1) = Some ":"%char)
               then inl TooManyColons
               else inl MissingPort
        end
      else
        let host := slice 0 i hostport in
        match IndexByte host ":" with
        | Some _ => inl TooManyColons
        | None => inr (host, 0, 0)
        end in
    match bracketed with
    | inl e => inl e
    | inr (host, j, k) =>
      match IndexByte (slice_from j hostport) "[" with
      | Some _ => inl UnexpectedOpen
      | None =>
        match IndexByte (slice_from k hostport) "]" with
        | Some _ => inl UnexpectedClose
        | None => inr (host, slice_from (i + 1) hostport)
        end
      end
    end
  end.

(** ** Packages [encoding/binary], [hash/adler32], [compress/flate] and
       [compress/zlib] (Go standard library) *)

(** [uint32(n)] of an [int] that is not negative. *)
Definition uint32 (n : N) : N := (n mod 2 ^ 32)%N.

(** [binary.BigEndian.PutUint32] into a 4-byte array. *)
Definition PutUint32 (v : N) : list ascii :=
  [ byte_of (N.land (N.shiftr v 24) 255);
    byte_of (N.land (N.shiftr v 16) 255);
    byte_of (N.land (N.shiftr v 8) 255);
    byte_of (N.land v 255) ].

(** [binary.BigEndian.Uint32]. *)
Definition Uint32 (b0 b1 b2 b3 : ascii) : N :=
  N.lor (N.lor (N.shiftl (byte_val b0) 24) (N.shiftl (byte_val b1) 16))
        (N.lor (N.shiftl (byte_val b2) 8) (byte_val b3)).

(** [adler32.Checksum]: the two sums modulo 65521, [b<<16 | a]. *)
Definition adler32_step (st : N * N) (c : ascii) : N * N :=
  let a := ((fst st + byte_val c) mod 65521)%N in
  (a, ((snd st + a) mod 65521)%N).

Definition adler32 (data : list ascii) : N :=
  let '(a, b) := fold_left adler32_step data (1%N, 0%N) in
  N.lor (N.shiftl b 16) a.

(** The DEFLATE codec of [compress/flate] is not reproduced.
    [flate_compress level data] is everything a [flate.Writer] of that
    level writes when it is given [data] and then closed;
    [flate_decompress s] is what a [flate.Reader] returns at the front of
    [s]: the decoded data and the bytes it has not read, or [None] on a
    corrupt stream. *)
Class Flate := {
  flate_compress : Z -> list ascii -> list ascii;
  flate_decompress : list ascii -> option (list ascii * list ascii)
}.

(** The levels [flate.NewWriter] and [zlib.NewWriterLevel] accept:
    [HuffmanOnly] (-2) to [BestCompression] (9). *)
Definition validLevel (level : Z) : bool := ((-2 <=? level) && (level <=? 9))%Z.

(** The second header byte [zlib.Writer.writeHeader] computes: the level
    class in the two top bits, no preset dictionary, and the check bits
    that make the 16-bit header a multiple of 31. *)
Definition zlibFLG (level : Z) : N :=
  let cls : N :=
    if ((level =? -2) || (level =? 0) || (level =? 1))%Z then 0%N
    else if ((2 <=? level) && (level <=? 5))%Z then 1%N
    else if ((level =? 6) || (level =? -1))%Z then 2%N
    else 3%N in
  let flg := N.shiftl cls 6 in
  ((flg + (31 - (120 * 256 + flg) mod 31)) mod 256)%N.

(** What a [zlib.Writer] of a valid level has written after [Write(data)]
    and [Close]: header, DEFLATE stream, Adler-32 of the data. *)
Definition zlibStream `{Flate} (level : Z) (data : list ascii) : list ascii :=
  [byte_of 120%N; byte_of (zlibFLG level)]
  ++ flate_compress level data
  ++ PutUint32 (adler32 data).

(** [io.ReadAll] of a [zlib.NewReader] (no dictionary): [None] for
    [ErrHeader], [ErrDictionary], a corrupt DEFLATE stream, a short
    trailer or [ErrChecksum]. *)
Definition zlibReadAll `{Flate} (s : list ascii) : option (list ascii) :=
  match s with
  | cmf :: flg :: body =>
    let h := (byte_val cmf * 256 + byte_val flg)%N in
    if negb (N.land (byte_val cmf) 15 =? 8)%N
       || (7 <? N.shiftr (byte_val cmf) 4)%N
       || negb (h mod 31 =? 0)%N
    then None
    else if negb (N.land (byte_val flg) 32 =? 0)%N then None
    else
      match flate_decompress body with
      | Some (data, b0 :: b1 :: b2 :: b3 :: _) =>
        if (Uint32 b0 b1 b2 b3 =? adler32 data)%N then Some data else None
      | _ => None
      end
  | _ => None
  end.

(** *** The stored-block codec: [flate.NoCompression]

    A writer of level 0 emits the data in stored blocks of at most 65535
    bytes and ends with an empty final stored block. *)
Definition maxStoreBlockSize : nat := N.to_nat 65535.

Definition le16 (n : N) : list ascii :=
  [byte_of (N.land n 255); byte_of (N.land (N.shiftr n 8) 255)].

(** [writeStoredHeader(length, isEof)]: the three header bits padded to a
    byte, then LEN and its complement. *)
Definition storedHeader (len : N) (isEof : bool) : list ascii :=
  byte_of (if isEof then 1%N else 0%N) :: le16 len ++ le16 (N.lxor len 65535).

Fixpoint storedBlocks (fuel : nat) (data : list ascii) : list ascii :=
  match fuel, data with
  | S f, _ :: _ =>
    let blk := take maxStoreBlockSize data in
    storedHeader (N.of_nat (length blk)) false ++ blk
      ++ storedBlocks f (drop maxStoreBlockSize data)
  | _, _ => []
  end.

Definition storedCompress (data : list ascii) : list ascii :=
  storedBlocks (length data) data ++ storedHeader 0 true.

(** Inflating a stream of stored blocks (RFC 1951, 3.2.4); a block of
    another type is not decoded. *)
Fixpoint storedInflate (fuel : nat) (s : list ascii) : option (list ascii * list ascii) :=
  match fuel, s with
  | S f, hdr :: l0 :: l1 :: n0 :: n1 :: r =>
    let len := (byte_val l0 + 256 * byte_val l1)%N in
    let nlen := (byte_val n0 + 256 * byte_val n1)%N in
    if negb (N.land (N.shiftr (byte_val hdr) 1) 3 =? 0)%N then None
    else if negb (N.lxor len 65535 =? nlen)%N then None
    else if (length r <? N.to_nat len)%nat then None
    else
      let blk := take (N.to_nat len) r in
      let r' := drop (N.to_nat len) r in
      if N.odd (byte_val hdr) then Some (blk, r')
      else
        match storedInflate f r' with
        | Some (d, rest) => Some (blk ++ d, rest)
        | None => None
        end
  | _, _ => None
  end.

Definition storedDecompress (s : list ascii) : option (list ascii * list ascii) :=
  storedInflate (S (length s)) s.

Definition storedFlate : Flate :=
  {| flate_compress := fun _ data => storedCompress data;
     flate_decompress := storedDecompress |}.

(** ** Package [encoding/base64]: [RawURLEncoding] *)

(** The URL-safe alphabet of RFC 4648. *)
Definition encodeURL : string :=
  "ABCDEFGHIJKLMNOPQRSTUVWXYZabcdefghijklmnopqrstuvwxyz0123456789-_".

Definition enc (i : N) : ascii :=
  nth (N.to_nat i) (list_ascii_of_string encodeURL) "A"%char.

Definition sextet (val : N) (shift : N) : ascii :=
  enc (N.land (N.shiftr val shift) 63).

(** [Encoding.Encode] without padding: three bytes give four characters, a
    rest of one or two bytes gives two or three. *)
Fixpoint encodeRaw (src : list ascii) : list ascii :=
  match src with
  | [] => []
  | [a] =>
    let val := N.shiftl (byte_val a) 16 in
    [sextet val 18; sextet val 12]
  | [a; b] =>
    let val := N.lor (N.shiftl (byte_val a) 16) (N.shiftl (byte_val b) 8) in
    [sextet val 18; sextet val 12; sextet val 6]
  | a :: b :: c :: r =>
    let val := N.lor (N.lor (N.shiftl (byte_val a) 16) (N.shiftl (byte_val b) 8))
                     (byte_val c) in
    sextet val 18 :: sextet val 12 :: sextet val 6 :: sextet val 0 :: encodeRaw r
  end.

(** [base64.RawURLEncoding.EncodeToString]. *)
Definition EncodeToString (src : list ascii) : string :=
  string_of_list_ascii (encodeRaw src).

(** The place of a character in the URL-safe alphabet. *)
Definition decIndex (c : ascii) : option N :=
  let n := byte_val c in
  if ((65 <=? n) && (n <=? 90))%N then Some (n - 65)%N
  else if ((97 <=? n) && (n <=? 122))%N then Some (n - 97 + 26)%N
  else if ((48 <=? n) && (n <=? 57))%N then Some (n - 48 + 52)%N
  else if (n =? 45)%N then Some 62%N
  else if (n =? 95)%N then Some 63%N
  else None.

(** Decoding unpadded base64 (RFC 4648, section 5): the inverse of
    [encodeRaw]; a rest of one character is no encoding. *)
Fixpoint decodeRaw (s : list ascii) : option (list ascii) :=
  match s with
  | [] => Some []
  | [_] => None
  | [c0; c1] =>
    i0 ← decIndex c0; i1 ← decIndex c1;
    Some [byte_of (N.land (N.lor (N.shiftl i0 2) (N.shiftr i1 4)) 255)]
  | [c0; c1; c2] =>
    i0 ← decIndex c0; i1 ← decIndex c1; i2 ← decIndex c2;
    Some [byte_of (N.land (N.lor (N.shiftl i0 2) (N.shiftr i1 4)) 255);
          byte_of (N.land (N.lor (N.shiftl i1 4) (N.shiftr i2 2)) 255)]
  | c0 :: c1 :: c2 :: c3 :: r =>
    i0 ← decIndex c0; i1 ← decIndex c1; i2 ← decIndex c2; i3 ← decIndex c3;
    rest ← decodeRaw r;
    Some (byte_of (N.land (N.lor (N.shiftl i0 2) (N.shiftr i1 4)) 255)
          :: byte_of (N.land (N.lor (N.shiftl i1 4) (N.shiftr i2 2)) 255)
          :: byte_of (N.land (N.lor (N.shiftl i2 6) i3) 255)
          :: rest)
  end.

Definition DecodeString (s : string) : option (list ascii) :=
  decodeRaw (list_ascii_of_string s).

(** ** Package [encoding/json] *)

(** The values [json.Marshal] writes for the structs of this program. *)
#[local] Unset Elimination Schemes.
Inductive JSON : Type :=
  | JNull
  | JString (s : string)
  | JNumber (n : Z)
  | JArray (items : list JSON)
  | JObject (members : list (string * JSON)).
#[local] Set Elimination Schemes.

(** How the encoder writes a Go string as a JSON string literal (quotes,
    escapes, replacement of invalid UTF-8) is left to the instance. *)
Class JSONStrings := { quoteString : string -> string }.

Definition dquote : string := String (byte_of 34) "".

Fixpoint joinComma (l : list string) : string :=
  match l with
  | [] => ""
  | [x] => x
  | x :: r => x +:+ "," +:+ joinComma r
  end.

(** The compact text of a value: members in the order of the struct's
    fields, a field name between quotes. *)
Fixpoint encodeJSON `{JSONStrings} (v : JSON) : string :=
  match v with
  | JNull => "null"
  | JString s => quoteString s
  | JNumber n => Itoa n
  | JArray items => "[" +:+ joinComma (map encodeJSON items) +:+ "]"
  | JObject members =>
    "{" +:+ joinComma (map (fun kv : string * JSON =>
                              let (k, x) := kv in
                              dquote +:+ k +:+ dquote +:+ ":" +:+ encodeJSON x)
                           members) +:+ "}"
  end.

(** [json.Marshal]: the text as a byte slice. *)
Definition Marshal `{JSONStrings} (v : JSON) : list ascii :=
  list_ascii_of_string (encodeJSON v).

(** The names of an object's members, in order. *)
Definition keys (v : JSON) : list string :=
  match v with
  | JObject members => map fst members
  | _ => []
  end.

(** ** Package [bufio]: a [Scanner] that splits with [ScanLines] *)

(** An [io.Reader], by what reading it to the end gives: the bytes it
    yields, and the error that ends them ([None] for [io.EOF]). *)
Inductive ReadError : Type := ReadFailure (msg : string).

Record Reader : Type := {
  content : string;
  failure : option ReadError
}.

(** What [Scanner.Err] returns: [bufio.ErrTooLong] or the reader's error. *)
Inductive ScanError : Type :=
  | ErrTooLong
  | ErrRead (cause : ReadError).

(** [bufio.MaxScanTokenSize]: the size the scanner's buffer grows to. *)
Definition MaxScanTokenSize : N := (64 * 1024)%N.

(** The lines of a text: the bytes before each newline, and the bytes after
    the last one if there are any. *)
Fixpoint rawLines (s : string) : list string :=
  match s with
  | "" => []
  | String c r =>
    if Ascii.eqb c "010" then "" :: rawLines r
    else match rawLines r with
         | l :: ls => String c l :: ls
         | [] => [String c ""]
         end
  end.

(** [dropCR] of package [bufio]: drop one carriage return at the end. *)
Fixpoint dropCR (data : string) : string :=
  match data with
  | "" => ""
  | String c "" => if Ascii.eqb c "013" then "" else data
  | String c r => String c (dropCR r)
  end.

(** The tokens the scanner yields for the lines, and the error it ends
    with.  A line is a token, without its carriage return, when it fits
    the buffer together with its newline; at the first line of
    [MaxScanTokenSize] bytes or more the buffer is full with no newline in
    it and the scanner stops with [ErrTooLong]. *)
Fixpoint scanTokens (lines : list string) (atEnd : option ScanError)
  : list string * option ScanError :=
  match lines with
  | [] => ([], atEnd)
  | l :: rest =>
    if (MaxScanTokenSize <=? N.of_nat (String.length l))%N then ([], Some ErrTooLong)
    else
      let '(tokens, err) := scanTokens rest atEnd in
      (dropCR l :: tokens, err)
  end.

(** Calling [Scan] until it returns false, then [Err]. *)
Definition ScanAll (r : Reader) : list string * option ScanError :=
  scanTokens (rawLines (content r)) (ErrRead <$> failure r).

(** ** Package [domain]: the types the link builder and the coordinator
       read.  Only the fields this program uses are kept. *)
Module domain.

(** [ConfigOption[T]]: a value and whether a peer may override it. *)
Record ConfigOption (T : Type) : Type := {
  Value : T;
  Overridable : bool
}.
Arguments Value {T} _.
Arguments Overridable {T} _.

Definition GetValue {T} (o : ConfigOption T) : T := Value o.

Record KeyPair : Type := {
  PrivateKey : string;
  PublicKey : string
}.

Record Cidr : Type := { Addr : string }.

(** A [uint16] is an [N]; a [*string] that is only read is an
    [option string]. *)
Record AdvancedSecurity : Type := {
  JunkPacketCount : N;
  JunkPacketMinSize : N;
  JunkPacketMaxSize : N;
  InitPacketJunkSize : N;
  ResponsePacketJunkSize : N;
  CookieReplyPacketJunkSize : N;
  TransportPacketJunkSize : N;
  InitPacketMagicHeader : string;
  ResponsePacketMagicHeader : string;
  UnderloadPacketMagicHeader : string;
  TransportPacketMagicHeader : string;
  FirstSpecialJunkPacket : option string;
  SecondSpecialJunkPacket : option string;
  ThirdSpecialJunkPacket : option string;
  FourthSpecialJunkPacket : option string;
  FifthSpecialJunkPacket : option string
}.

Record PeerInterfaceConfig : Type := {
  Keys : KeyPair;
  Addresses : list Cidr;
  DnsStr : ConfigOption string;
  Mtu : ConfigOption Z;
  AdvancedSecurityParams : option AdvancedSecurity
}.

Record Peer : Type := {
  Endpoint : ConfigOption string;
  EndpointPublicKey : ConfigOption string;
  AllowedIPsStr : ConfigOption string;
  PresharedKey : string;
  PersistentKeepalive : ConfigOption Z;
  PeerInterface : PeerInterfaceConfig      (* the field [peer.Interface] *)
}.

(** [domain.Interface], as the coordinator's event handlers read it. *)
Record Interface : Type := {
  Identifier : string;
  DisplayName : string;
  SaveConfig : bool
}.

(** [(i *Interface).GetConfigFileName] is code of package [domain]. *)
Class ConfigFileNames := { GetConfigFileName : Interface -> string }.

(** [domain.PublicKeyFromPrivateKey] derives a Curve25519 public key; it
    is code of another package and stays abstract. *)
Class KeyDerivation := { PublicKeyFromPrivateKey : string -> string }.

End domain.

(** ** Package [configfile] *)
Module configfile.
Import domain.

Definition parseEndpointHostPort (endpoint : string) : string * Z :=
  let host := "127.0.0.1" in
  let port := 51820%Z in
  let endpoint := TrimSpace endpoint in
  if String.eqb endpoint "" then (host, port)
  else
    match SplitHostPort endpoint with
    | inl _ => (endpoint, port)
    | inr (h, p) =>
      let h := TrimSpace h in
      let host := if negb (String.eqb h "") then h else host in
      let port := match Atoi p with Some pi => pi | None => port end in
      (host, port)
    end.

(** The loop of [splitCsvOrDefault]: [out] grows by [append]. *)
Fixpoint splitCsv_loop (items out : list string) : list string :=
  match items with
  | [] => out
  | item :: rest =>
    let item := TrimSpace item in
    if String.eqb item "" then splitCsv_loop rest out
    else splitCsv_loop rest (out ++ [item])
  end.

(** A Go slice of strings is [None] when nil; [Some []] is the empty slice
    that [make] returns. *)
Definition splitCsvOrDefault (value fallback : string) : option (list string) :=
  let raw := TrimSpace value in
  let raw := if String.eqb raw "" then fallback else raw in
  let raw := ReplaceAll raw " " "" in
  if String.eqb raw "" then None
  else
    let items := Split raw "," in
    Some (splitCsv_loop items []).

(** [len(parts)] and [parts[i]] of a slice that may be nil. *)
Definition elems {A} (s : option (list A)) : list A := default [] s.

Definition pickDnsServers (dns : string) : string * string :=
  let parts := elems (splitCsvOrDefault dns "1.1.1.1,1.0.0.1") in
  let dns1 := "1.1.1.1" in
  let dns2 := "1.0.0.1" in
  let dns1 := match parts with p0 :: _ => p0 | _ => dns1 end in
  let dns2 := match parts with _ :: p1 :: _ => p1 | _ => dns2 end in
  (dns1, dns2).

(** [u16ToString] and [u16ToStringOptional]; a [uint16] is an [N]. *)
Definition u16ToString (v : N) : string := Itoa (Z.of_N v).

Definition u16ToStringOptional (v : N) : string :=
  if (v =? 0)%N then "" else Itoa (Z.of_N v).


Inductive LinkError : Type :=
  | ErrNilPeer                      (* "nil peer" *)
  | ErrMissingAdvancedSecurity      (* "missing advanced security" *)
  | ErrZlibWriter (level : Z).      (* "zlib writer: zlib: invalid compression level: %d" *)

(** The size header, then the zlib stream.  [zw.Write] and [zw.Close]
    write into a [bytes.Buffer] and do not fail. *)
Definition qtQCompress `{Flate} (data : list ascii) (level : Z)
  : LinkError + list ascii :=
  let sizeHdr := PutUint32 (uint32 (N.of_nat (length data))) in
  if negb (validLevel level) then inl (ErrZlibWriter level)
  else inr (sizeHdr ++ zlibStream level data).

(** The structs that are marshalled.  Every field is a string except
    [AllowedIPs] (a slice) and the inner [Port] (an [int]). *)
Record amneziaAwgContainer : Type := {
  awg_H1 : string; awg_H2 : string; awg_H3 : string; awg_H4 : string;
  awg_Jc : string; awg_Jmax : string; awg_Jmin : string;
  awg_S1 : string; awg_S2 : string;
  awg_S3 : string; awg_S4 : string;
  awg_I1 : string; awg_I2 : string; awg_I3 : string; awg_I4 : string; awg_I5 : string;
  awg_LastConfig : string;
  awg_Port : string;
  awg_TransportProto : string
}.

Record amneziaContainer : Type := {
  Awg : amneziaAwgContainer;
  Container : string
}.

Record amneziaEnvelope : Type := {
  Containers : list amneziaContainer;
  DefaultContainer : string;
  Description : string;
  DNS1 : string;
  DNS2 : string;
  env_HostName : string
}.

Record amneziaAwgLastConfig : Type := {
  lc_H1 : string; lc_H2 : string; lc_H3 : string; lc_H4 : string;
  lc_Jc : string; lc_Jmax : string; lc_Jmin : string;
  lc_S1 : string; lc_S2 : string;
  lc_S3 : string; lc_S4 : string;
  lc_I1 : string; lc_I2 : string; lc_I3 : string; lc_I4 : string; lc_I5 : string;
  AllowedIPs : option (list string);
  ClientID : string;
  ClientIP : string;
  ClientPrivKey : string;
  ClientPubKey : string;
  Config : string;
  lc_HostName : string;
  MTU : string;
  PersistentKeepAlive : string;
  lc_Port : Z;
  PSKKey : string;
  ServerPubKey : string
}.

(** A field tagged [json:"name"]. *)
Definition field (name : string) (v : string) : list (string * JSON) :=
  [(name, JString v)].

(** A field tagged [json:"name,omitempty"]: left out when the string is
    empty. *)
Definition omitempty (name : string) (v : string) : list (string * JSON) :=
  if String.eqb v "" then [] else [(name, JString v)].

(** A [[]string]: [null] when nil, an array otherwise. *)
Definition stringSlice (s : option (list string)) : JSON :=
  match s with
  | None => JNull
  | Some l => JArray (map JString l)
  end.

Definition awgContainerJSON (a : amneziaAwgContainer) : JSON :=
  JObject (
    field "H1" (awg_H1 a) ++ field "H2" (awg_H2 a) ++ field "H3" (awg_H3 a)
    ++ field "H4" (awg_H4 a) ++ field "Jc" (awg_Jc a) ++ field "Jmax" (awg_Jmax a)
    ++ field "Jmin" (awg_Jmin a) ++ field "S1" (awg_S1 a) ++ field "S2" (awg_S2 a)
    ++ omitempty "S3" (awg_S3 a) ++ omitempty "S4" (awg_S4 a)
    ++ omitempty "I1" (awg_I1 a) ++ omitempty "I2" (awg_I2 a)
    ++ omitempty "I3" (awg_I3 a) ++ omitempty "I4" (awg_I4 a)
    ++ omitempty "I5" (awg_I5 a)
    ++ field "last_config" (awg_LastConfig a) ++ field "port" (awg_Port a)
    ++ field "transport_proto" (awg_TransportProto a)).

Definition containerJSON (c : amneziaContainer) : JSON :=
  JObject [("awg", awgContainerJSON (Awg c)); ("container", JString (Container c))].

Definition envelopeJSON (e : amneziaEnvelope) : JSON :=
  JObject [
    ("containers", JArray (map containerJSON (Containers e)));
    ("defaultContainer", JString (DefaultContainer e));
    ("description", JString (Description e));
    ("dns1", JString (DNS1 e));
    ("dns2", JString (DNS2 e));
    ("hostName", JString (env_HostName e)) ].

Definition lastConfigJSON (c : amneziaAwgLastConfig) : JSON :=
  JObject (
    field "H1" (lc_H1 c) ++ field "H2" (lc_H2 c) ++ field "H3" (lc_H3 c)
    ++ field "H4" (lc_H4 c) ++ field "Jc" (lc_Jc c) ++ field "Jmax" (lc_Jmax c)
    ++ field "Jmin" (lc_Jmin c) ++ field "S1" (lc_S1 c) ++ field "S2" (lc_S2 c)
    ++ omitempty "S3" (lc_S3 c) ++ omitempty "S4" (lc_S4 c)
    ++ omitempty "I1" (lc_I1 c) ++ omitempty "I2" (lc_I2 c)
    ++ omitempty "I3" (lc_I3 c) ++ omitempty "I4" (lc_I4 c)
    ++ omitempty "I5" (lc_I5 c)
    ++ [("allowed_ips", stringSlice (AllowedIPs c))]
    ++ field "clientId" (ClientID c) ++ field "client_ip" (ClientIP c)
    ++ field "client_priv_key" (ClientPrivKey c)
    ++ field "client_pub_key" (ClientPubKey c)
    ++ field "config" (Config c)
    ++ field "hostName" (lc_HostName c) ++ field "mtu" (MTU c)
    ++ field "persistent_keep_alive" (PersistentKeepAlive c)
    ++ [("port", JNumber (lc_Port c))]
    ++ field "psk_key" (PSKKey c) ++ field "server_pub_key" (ServerPubKey c)).

Record amneziaAwgBase : Type := {
  base_H1 : string; base_H2 : string; base_H3 : string; base_H4 : string;
  base_Jc : string; base_Jmax : string; base_Jmin : string;
  base_S1 : string; base_S2 : string
}.

Record amneziaAwgExtended : Type := {
  ext_S3 : string; ext_S4 : string;
  ext_I1 : string; ext_I2 : string; ext_I3 : string; ext_I4 : string; ext_I5 : string
}.

Definition amneziaAwgBaseParams (adv : option AdvancedSecurity) : amneziaAwgBase :=
  match adv with
  | None =>
    {| base_H1 := ""; base_H2 := ""; base_H3 := ""; base_H4 := "";
       base_Jc := ""; base_Jmax := ""; base_Jmin := ""; base_S1 := ""; base_S2 := "" |}
  | Some adv =>
    {| base_H1 := TrimSpace (InitPacketMagicHeader adv);
       base_H2 := TrimSpace (ResponsePacketMagicHeader adv);
       base_H3 := TrimSpace (UnderloadPacketMagicHeader adv);
       base_H4 := TrimSpace (TransportPacketMagicHeader adv);
       base_Jc := u16ToString (JunkPacketCount adv);
       base_Jmax := u16ToString (JunkPacketMaxSize adv);
       base_Jmin := u16ToString (JunkPacketMinSize adv);
       base_S1 := u16ToString (InitPacketJunkSize adv);
       base_S2 := u16ToString (ResponsePacketJunkSize adv) |}
  end.

(** [if p != nil { ext.I = strings.TrimSpace( *p ) }] on a field that starts
    empty. *)
Definition trimmedOrEmpty (p : option string) : string :=
  match p with
  | Some s => TrimSpace s
  | None => ""
  end.

Definition amneziaAwgExtendedParams (adv : option AdvancedSecurity) : amneziaAwgExtended :=
  match adv with
  | None =>
    {| ext_S3 := ""; ext_S4 := ""; ext_I1 := ""; ext_I2 := ""; ext_I3 := "";
       ext_I4 := ""; ext_I5 := "" |}
  | Some adv =>
    {| ext_S3 := u16ToStringOptional (CookieReplyPacketJunkSize adv);
       ext_S4 := u16ToStringOptional (TransportPacketJunkSize adv);
       ext_I1 := trimmedOrEmpty (FirstSpecialJunkPacket adv);
       ext_I2 := trimmedOrEmpty (SecondSpecialJunkPacket adv);
       ext_I3 := trimmedOrEmpty (ThirdSpecialJunkPacket adv);
       ext_I4 := trimmedOrEmpty (FourthSpecialJunkPacket adv);
       ext_I5 := trimmedOrEmpty (FifthSpecialJunkPacket adv) |}
  end.

(** The [lastCfg] literal of [buildAmneziaAwgVpnLink], with the values the
    function computes before it. *)
Definition buildLastConfig `{KeyDerivation}
    (peer : Peer) (adv : AdvancedSecurity) (configText : string)
  : amneziaAwgLastConfig :=
  let '(endpointHost, endpointPort) := parseEndpointHostPort (GetValue (Endpoint peer)) in
  let privKey := PrivateKey (Keys (PeerInterface peer)) in
  let clientPubKey := PublicKeyFromPrivateKey privKey in
  let clientPubKey :=
    if String.eqb clientPubKey "" then PublicKey (Keys (PeerInterface peer))
    else clientPubKey in
  let clientIP :=
    match Addresses (PeerInterface peer) with
    | a :: _ => TrimSpace (Addr a)
    | [] => ""
    end in
  let allowedIPs := splitCsvOrDefault (GetValue (AllowedIPsStr peer)) "0.0.0.0/0,::/0" in
  let mtu := GetValue (Mtu (PeerInterface peer)) in
  let mtuStr := if negb (mtu =? 0)%Z then Itoa mtu else "1280" in
  let keepAlive := GetValue (PersistentKeepalive peer) in
  let keepAliveStr := if negb (keepAlive =? 0)%Z then Itoa keepAlive else "25" in
  let serverPubKey := TrimSpace (GetValue (EndpointPublicKey peer)) in
  let psk := TrimSpace (PresharedKey peer) in
  let base := amneziaAwgBaseParams (Some adv) in
  let ext := amneziaAwgExtendedParams (Some adv) in
  {| lc_H1 := base_H1 base; lc_H2 := base_H2 base; lc_H3 := base_H3 base;
     lc_H4 := base_H4 base; lc_Jc := base_Jc base; lc_Jmax := base_Jmax base;
     lc_Jmin := base_Jmin base; lc_S1 := base_S1 base; lc_S2 := base_S2 base;
     lc_S3 := ext_S3 ext; lc_S4 := ext_S4 ext;
     lc_I1 := ext_I1 ext; lc_I2 := ext_I2 ext; lc_I3 := ext_I3 ext;
     lc_I4 := ext_I4 ext; lc_I5 := ext_I5 ext;
     AllowedIPs := allowedIPs;
     ClientID := clientPubKey;
     ClientIP := clientIP;
     ClientPrivKey := privKey;
     ClientPubKey := clientPubKey;
     Config := configText;
     lc_HostName := endpointHost;
     MTU := mtuStr;
     PersistentKeepAlive := keepAliveStr;
     lc_Port := endpointPort;
     PSKKey := psk;
     ServerPubKey := serverPubKey |}.

(** The [envelope] literal; [lastCfgJSON] is the marshalled [lastCfg]. *)
Definition buildEnvelope
    (peer : Peer) (adv : AdvancedSecurity) (description : string)
    (lastCfgJSON : list ascii)
  : amneziaEnvelope :=
  let '(endpointHost, endpointPort) := parseEndpointHostPort (GetValue (Endpoint peer)) in
  let '(dns1, dns2) := pickDnsServers (GetValue (DnsStr (PeerInterface peer))) in
  let base := amneziaAwgBaseParams (Some adv) in
  let ext := amneziaAwgExtendedParams (Some adv) in
  {| Containers :=
       [ {| Awg :=
              {| awg_H1 := base_H1 base; awg_H2 := base_H2 base;
                 awg_H3 := base_H3 base; awg_H4 := base_H4 base;
                 awg_Jc := base_Jc base; awg_Jmax := base_Jmax base;
                 awg_Jmin := base_Jmin base;
                 awg_S1 := base_S1 base; awg_S2 := base_S2 base;
                 awg_S3 := ext_S3 ext; awg_S4 := ext_S4 ext;
                 awg_I1 := ext_I1 ext; awg_I2 := ext_I2 ext;
                 awg_I3 := ext_I3 ext; awg_I4 := ext_I4 ext;
                 awg_I5 := ext_I5 ext;
                 awg_LastConfig := string_of_list_ascii lastCfgJSON;
                 awg_Port := Itoa endpointPort;
                 awg_TransportProto := "udp" |};
            Container := "amnezia-awg" |} ];
     DefaultContainer := "amnezia-awg";
     Description := description;
     DNS1 := dns1;
     DNS2 := dns2;
     env_HostName := endpointHost |}.

(** [buildAmneziaAwgVpnLink]; [None] is the nil peer.  [json.Marshal] has
    no failing case for structs of strings, a string slice and an [int]. *)
Definition buildAmneziaAwgVpnLink `{Flate} `{JSONStrings} `{KeyDerivation}
    (peer : option Peer) (description configText : string)
  : LinkError + string :=
  match peer with
  | None => inl ErrNilPeer
  | Some peer =>
    match AdvancedSecurityParams (PeerInterface peer) with
    | None => inl ErrMissingAdvancedSecurity
    | Some adv =>
      let lastCfg := buildLastConfig peer adv configText in
      let lastCfgJSON := Marshal (lastConfigJSON lastCfg) in
      let envelope := buildEnvelope peer adv description lastCfgJSON in
      let envelopeBytes := Marshal (envelopeJSON envelope) in
      match qtQCompress envelopeBytes 8 with
      | inl err => inl err
      | inr compressed => inr ("vpn://" +:+ EncodeToString compressed)
      end
    end
  end.

(** *** The coordinator ([manager.go]) *)

Inductive RepoError : Type := RepoFailure (msg : string).

(** The collaborators are Go interfaces: each is the record of its
    methods.  A method's result is the collaborator's answer to the call. *)
Record WireguardDatabaseRepo : Type := {
  GetInterfaceAndPeers : string -> RepoError + (Interface * list Peer);
  GetPeer : string -> RepoError + Peer;
  GetInterface : string -> RepoError + Interface
}.

Record FileSystemRepo : Type := {
  WriteFile : string -> string -> option RepoError;
  DeleteFile : string -> option RepoError
}.

Record TemplateRenderer : Type := {
  GetInterfaceConfig : Interface -> list Peer -> RepoError + string;
  GetPeerConfig : Peer -> string -> RepoError + string
}.

Record Manager : Type := {
  tplHandler : TemplateRenderer;
  fsRepo : FileSystemRepo;
  wg : WireguardDatabaseRepo
}.

(** What a handler does to the outside, in order: the calls of the
    collaborators' methods and of the logger. *)
Inductive Call : Type :=
  | CallGetInterfaceAndPeers (id : string)
  | CallGetInterface (id : string)
  | CallGetInterfaceConfig (iface : Interface) (peers : list Peer)
  | CallWriteFile (path contents : string)
  | CallDeleteFile (path : string)
  | CallLogDebug (msg iface : string)
  | CallLogError (msg iface : string).

Inductive ManagerError : Type :=
  | ErrFetchInterface (id : string) (cause : RepoError)
      (* "failed to fetch interface %s: %w" *)
  | ErrInterfaceConfig (cause : RepoError)
      (* "failed to get interface config: %w" *)
  | ErrWriteConfig (cause : RepoError)
      (* "failed to write interface config: %w" *)
  | ErrRemoveConfig (cause : RepoError).
      (* "failed to remove interface config: %w" *)

(** A computation that makes calls and returns a value. *)
Definition Act (A : Type) : Type := list Call * A.

#[local] Instance Act_ret : MRet Act := fun A x => ([], x).

#[local] Instance Act_bind : MBind Act := fun A B k m =>
  let '(t1, x) := m in
  let '(t2, y) := k x in
  (t1 ++ t2, y).

Definition call {A} (c : Call) (answer : A) : Act A := ([c], answer).

(** [PersistInterfaceConfig] writes the interface's configuration file. *)
Definition PersistInterfaceConfig `{ConfigFileNames} (m : Manager) (id : string)
  : Act (option ManagerError) :=
  fetched ← call (CallGetInterfaceAndPeers id) (GetInterfaceAndPeers (wg m) id);
  match fetched with
  | inl err => mret (Some (ErrFetchInterface id err))
  | inr (iface, peers) =>
    cfg ← call (CallGetInterfaceConfig iface peers)
                   (GetInterfaceConfig (tplHandler m) iface peers);
    match cfg with
    | inl err => mret (Some (ErrInterfaceConfig err))
    | inr cfg =>
      written ← call (CallWriteFile (GetConfigFileName iface) cfg)
                         (WriteFile (fsRepo m) (GetConfigFileName iface) cfg);
      match written with
      | Some err => mret (Some (ErrWriteConfig err))
      | None => mret None
      end
    end
  end.

(** [UnpersistInterfaceConfig] removes the configuration file. *)
Definition UnpersistInterfaceConfig (m : Manager) (filename : string)
  : Act (option ManagerError) :=
  removed ← call (CallDeleteFile filename) (DeleteFile (fsRepo m) filename);
  match removed with
  | Some err => mret (Some (ErrRemoveConfig err))
  | None => mret None
  end.

Definition handleInterfaceSavedEvent `{ConfigFileNames} (m : Manager) (iface : Interface)
  : Act unit :=
  if negb (SaveConfig iface) then mret tt
  else
    _ ← call (CallLogDebug "handling interface save event" (Identifier iface)) tt;
    err ← PersistInterfaceConfig m (Identifier iface);
    match err with
    | Some _ =>
      call (CallLogError "failed to automatically persist interface config"
                         (Identifier iface)) tt
    | None => mret tt
    end.

Definition handleInterfaceDeleteEvent `{ConfigFileNames} (m : Manager) (iface : Interface)
  : Act unit :=
  if negb (SaveConfig iface) then mret tt
  else
    _ ← call (CallLogDebug "handling interface delete event" (Identifier iface)) tt;
    err ← UnpersistInterfaceConfig m (GetConfigFileName iface);
    match err with
    | Some _ =>
      call (CallLogError "failed to remove persisted interface config"
                         (Identifier iface)) tt
    | None => mret tt
    end.

Definition handlePeerInterfaceUpdatedEvent `{ConfigFileNames} (m : Manager) (id : string)
  : Act unit :=
  found ← call (CallGetInterface id) (GetInterface (wg m) id);
  match found with
  | inl _ => call (CallLogError "failed to load interface" id) tt
  | inr peerInterface =>
    if negb (SaveConfig peerInterface) then mret tt
    else
      _ ← call (CallLogDebug "handling peer interface updated event" id) tt;
      err ← PersistInterfaceConfig m (Identifier peerInterface);
      match err with
      | Some _ =>
        call (CallLogError "failed to automatically persist interface config"
                           (Identifier peerInterface)) tt
      | None => mret tt
      end
  end.

(** The file-system calls among the calls made. *)
Definition isFileSystemCall (c : Call) : bool :=
  match c with
  | CallWriteFile _ _ | CallDeleteFile _ => true
  | _ => false
  end.

(** The loop of [getPeerQrConfigText] over the scanner's tokens; [sb] is
    the [strings.Builder]. *)
Fixpoint qrConfigLines (tokens : list string) (sb : string) : string :=
  match tokens with
  | [] => sb
  | text :: rest =>
    let line := TrimSpace text in
    if HasPrefix line "#" then qrConfigLines rest sb
    else qrConfigLines rest (sb +:+ line +:+ String "010" "")
  end.

Definition getPeerQrConfigText (cfgData : Reader) (keepNameHeader : bool)
    (displayName : string) : ScanError + string :=
  let sb :=
    if keepNameHeader && negb (String.eqb displayName "")
    then "# Name = " +:+ displayName +:+ String "010" ""
    else "" in
  let '(tokens, err) := ScanAll cfgData in
  let sb := qrConfigLines tokens sb in
  match err with
  | Some e => inl e
  | None => inr sb
  end.

(** Of [domain.Peer], the fields that name a peer: they are all
    [getPeerConfigDisplayName] reads. *)
Record PeerNames : Type := {
  peer_Identifier : string;
  peer_DisplayName : string;
  peer_InterfaceIdentifier : string
}.

(** [getPeerConfigDisplayName]; [None] is the nil peer.  A repository that
    returns no error returns an interface. *)
Definition getPeerConfigDisplayName (m : Manager) (peer : option PeerNames) : string :=
  match peer with
  | None => ""
  | Some peer =>
    let ifaceName := TrimSpace (peer_InterfaceIdentifier peer) in
    let ifaceName :=
      match GetInterface (wg m) (peer_InterfaceIdentifier peer) with
      | inr iface =>
        let n := TrimSpace (DisplayName iface) in
        if negb (String.eqb n "") then n
        else
          let id := TrimSpace (Identifier iface) in
          if negb (String.eqb id "") then id else ifaceName
      | inl _ => ifaceName
      end in
    let peerName := TrimSpace (peer_DisplayName peer) in
    let peerName :=
      if String.eqb peerName "" then TrimSpace (peer_Identifier peer) else peerName in
    if String.eqb ifaceName "" then peerName
    else if String.eqb peerName "" then ifaceName
    else ifaceName +:+ " - " +:+ peerName
  end.

End configfile.

(** ** Package [config] *)
Module config.

Definition WireGuardModeDisabled : string := "disabled".
Definition WireGuardModeWireGuard : string := "wireguard".
Definition WireGuardModeAmneziaWG : string := "amneziawg".

(** [maxAwgStringLen] matches the wgctrl ioctl buffer limit. *)
Definition maxAwgStringLen : nat := 5 * 1024.

(** [netip.ParsePrefix] (Go standard library) is not reproduced: whether a
    text parses as a CIDR prefix is left to the instance. *)
Class Netip := { ParsePrefixOk : string -> bool }.

(** A [*string] that is written through: the address of a string in the
    store. *)
Definition loc : Type := positive.

Record ProvisioningInterfaceAdvancedSecurity : Type := {
  JunkPacketCount : N;
  JunkPacketMinSize : N;
  JunkPacketMaxSize : N;
  InitPacketJunkSize : N;
  ResponsePacketJunkSize : N;
  CookieReplyPacketJunkSize : N;
  TransportPacketJunkSize : N;
  InitPacketMagicHeader : string;
  ResponsePacketMagicHeader : string;
  UnderloadPacketMagicHeader : string;
  TransportPacketMagicHeader : string;
  FirstSpecialJunkPacket : option loc;
  SecondSpecialJunkPacket : option loc;
  ThirdSpecialJunkPacket : option loc;
  FourthSpecialJunkPacket : option loc;
  FifthSpecialJunkPacket : option loc
}.

Record ProvisioningInterface : Type := {
  Identifier : string;
  DisplayName : string;
  Mode : string;
  Enabled : option bool;
  PrivateKey : string;
  ListenPort : Z;
  Addresses : list string;
  Dns : list string;
  DnsSearch : list string;
  Mtu : Z;
  FirewallMark : N;
  RoutingTable : string;
  PreUp : string;
  PostUp : string;
  PreDown : string;
  PostDown : string;
  SaveConfig : option bool;
  Notes : string;
  PeerDefNetwork : list string;
  PeerDefDns : list string;
  PeerDefDnsSearch : list string;
  PeerDefEndpoint : string;
  PeerDefAllowedIPs : list string;
  PeerDefMtu : Z;
  PeerDefPersistentKeepalive : Z;
  PeerDefFirewallMark : N;
  PeerDefRoutingTable : string;
  PeerDefPreUp : string;
  PeerDefPostUp : string;
  PeerDefPreDown : string;
  PeerDefPostDown : string;
  AdvancedSecurity : option ProvisioningInterfaceAdvancedSecurity
}.

(** [iface.Identifier = id] and [iface.Mode = mode]. *)
Definition set_Identifier (id : string) (i : ProvisioningInterface) : ProvisioningInterface :=
  {| Identifier := id; DisplayName := DisplayName i; Mode := Mode i;
     Enabled := Enabled i; PrivateKey := PrivateKey i; ListenPort := ListenPort i;
     Addresses := Addresses i; Dns := Dns i; DnsSearch := DnsSearch i; Mtu := Mtu i;
     FirewallMark := FirewallMark i; RoutingTable := RoutingTable i;
     PreUp := PreUp i; PostUp := PostUp i; PreDown := PreDown i; PostDown := PostDown i;
     SaveConfig := SaveConfig i; Notes := Notes i;
     PeerDefNetwork := PeerDefNetwork i; PeerDefDns := PeerDefDns i;
     PeerDefDnsSearch := PeerDefDnsSearch i; PeerDefEndpoint := PeerDefEndpoint i;
     PeerDefAllowedIPs := PeerDefAllowedIPs i; PeerDefMtu := PeerDefMtu i;
     PeerDefPersistentKeepalive := PeerDefPersistentKeepalive i;
     PeerDefFirewallMark := PeerDefFirewallMark i;
     PeerDefRoutingTable := PeerDefRoutingTable i;
     PeerDefPreUp := PeerDefPreUp i; PeerDefPostUp := PeerDefPostUp i;
     PeerDefPreDown := PeerDefPreDown i; PeerDefPostDown := PeerDefPostDown i;
     AdvancedSecurity := AdvancedSecurity i |}.

Definition set_Mode (mode : string) (i : ProvisioningInterface) : ProvisioningInterface :=
  {| Identifier := Identifier i; DisplayName := DisplayName i; Mode := mode;
     Enabled := Enabled i; PrivateKey := PrivateKey i; ListenPort := ListenPort i;
     Addresses := Addresses i; Dns := Dns i; DnsSearch := DnsSearch i; Mtu := Mtu i;
     FirewallMark := FirewallMark i; RoutingTable := RoutingTable i;
     PreUp := PreUp i; PostUp := PostUp i; PreDown := PreDown i; PostDown := PostDown i;
     SaveConfig := SaveConfig i; Notes := Notes i;
     PeerDefNetwork := PeerDefNetwork i; PeerDefDns := PeerDefDns i;
     PeerDefDnsSearch := PeerDefDnsSearch i; PeerDefEndpoint := PeerDefEndpoint i;
     PeerDefAllowedIPs := PeerDefAllowedIPs i; PeerDefMtu := PeerDefMtu i;
     PeerDefPersistentKeepalive := PeerDefPersistentKeepalive i;
     PeerDefFirewallMark := PeerDefFirewallMark i;
     PeerDefRoutingTable := PeerDefRoutingTable i;
     PeerDefPreUp := PeerDefPreUp i; PeerDefPostUp := PeerDefPostUp i;
     PeerDefPreDown := PeerDefPreDown i; PeerDefPostDown := PeerDefPostDown i;
     AdvancedSecurity := AdvancedSecurity i |}.

(** Of [Config], the two parts sanitizing the provisioning spec touches:
    [Core.WireGuardMode] and [Provisioning.Interfaces]. *)
Record Config : Type := {
  WireGuardMode : string;
  Interfaces : list ProvisioningInterface
}.

(** The errors, each with the values its message is formatted from. *)
Inductive Error : Type :=
  | ErrWireGuardMode (mode : string)
      (* "invalid core.wireguard_mode %q" *)
  | ErrIdentifierEmpty (idx : nat)
      (* "provisioning.interfaces[%d].identifier must not be empty" *)
  | ErrIdentifierNotUnique (id : string)
      (* "provisioning.interfaces.identifier %q is not unique" *)
  | ErrMode (id : string)
      (* "provisioning.interfaces[%s].mode must be one of: server, client, any" *)
  | ErrListenPort (id : string)
      (* "provisioning.interfaces[%s].listen_port must be 0 or between 1 and 65535" *)
  | ErrMtu (id : string)
      (* "provisioning.interfaces[%s].mtu must be >= 0" *)
  | ErrPeerDefMtu (id : string)
      (* "provisioning.interfaces[%s].peer_def_mtu must be >= 0" *)
  | ErrCidrEmpty (field : string) (i : nat)
      (* "%s[%d] must not be empty" *)
  | ErrCidrInvalid (field : string) (i : nat) (raw : string)
      (* "%s[%d] invalid CIDR %q: %w" *)
  | ErrAdvancedSecurityMode (id : string)
      (* "provisioning.interfaces[%s].advanced_security is only supported
          with core.wireguard_mode %q" *)
  | ErrJunkRangeUnset (field : string)
      (* "%s: jmin and jmax must be > 0 when jc > 0" *)
  | ErrJunkRangeOrder (field : string)
      (* "%s: jmin must be <= jmax" *)
  | ErrNotUint32 (field : string) (cause : NumError)
      (* "%s must be a uint32 (decimal or 0x...): %w" *)
  | ErrAwgStringEmpty (field : string)
      (* "%s must not be empty" *)
  | ErrAwgStringTooLong (field : string).
      (* "%s must be shorter than %d bytes" *)

(** What [slog.Warn] is called with. *)
Inductive Warning : Type :=
  | WarnJunkRangeWithoutCount (field : string)
      (* "advanced_security: jmin/jmax set but jc=0; junk packets disabled" *)
  | WarnDnsNotInherited (iface : string)
      (* "provisioning: interface dns set but peer_def_dns is empty; ..." *)
  | WarnMtuNotInherited (iface : string) (mtu : Z).
      (* "provisioning: interface mtu set but peer_def_mtu is not set; ..." *)

(** The state the validators act on: the strings behind the [*string]
    fields, and the log. *)
Record World : Type := {
  heap : gmap loc string;
  warnings : list Warning
}.

(** [*p]: a pointer of the program always points into the store. *)
Definition deref (w : World) (p : loc) : string := heap w !!! p.

(** [*p = v]. *)
Definition assign (p : loc) (v : string) (w : World) : World :=
  {| heap := <[p := v]> (heap w); warnings := warnings w |}.

Definition warn (x : Warning) (w : World) : World :=
  {| heap := heap w; warnings := warnings w ++ [x] |}.

(** A function that returns an [error] and may write to the store or log:
    [None] is the nil error.  What was written before an error stays. *)
Definition Check : Type := World -> option Error * World.

Definition ok : Check := fun w => (None, w).
Definition fail (e : Error) : Check := fun w => (Some e, w).

(** [if err := c1; err != nil { return err }; c2]. *)
Definition andThen (c1 c2 : Check) : Check :=
  fun w =>
    match c1 w with
    | (Some e, w') => (Some e, w')
    | (None, w') => c2 w'
    end.

Infix ">>" := andThen (at level 61, left associativity).

Definition validateAwgUint32IfSet (field raw : string) : Check :=
  let val := TrimSpace raw in
  if String.eqb val "" then ok
  else
    match ParseUint val 0 32 with
    | inl err => fail (ErrNotUint32 field err)
    | inr _ => ok
    end.

(** [validateAwgStringPtr(field, &s.X)]: the outer pointer is the address
    of a field and never nil; [raw] is the field's value. *)
Definition validateAwgStringPtr (field : string) (raw : option loc) : Check :=
  match raw with
  | None => ok
  | Some p =>
    fun w =>
      let val := TrimSpace (deref w p) in
      if String.eqb val "" then (Some (ErrAwgStringEmpty field), w)
      else if (maxAwgStringLen <=? String.length val)%nat
      then (Some (ErrAwgStringTooLong field), w)
      else (None, assign p val w)
  end.

Definition validateJunkRange (field : string) (s : ProvisioningInterfaceAdvancedSecurity)
  : Check :=
  if (0 <? JunkPacketCount s)%N then
    if ((JunkPacketMinSize s =? 0) || (JunkPacketMaxSize s =? 0))%N
    then fail (ErrJunkRangeUnset field)
    else if (JunkPacketMaxSize s <? JunkPacketMinSize s)%N
    then fail (ErrJunkRangeOrder field)
    else ok
  else if (negb (JunkPacketMinSize s =? 0) || negb (JunkPacketMaxSize s =? 0))%N
  then fun w => (None, warn (WarnJunkRangeWithoutCount field) w)
  else ok.

Definition validateAdvancedSecurity (field : string)
    (s : ProvisioningInterfaceAdvancedSecurity) : Check :=
  validateJunkRange field s
  >> validateAwgUint32IfSet (field +:+ ".init_packet_magic_header (h1)")
       (InitPacketMagicHeader s)
  >> validateAwgUint32IfSet (field +:+ ".response_packet_magic_header (h2)")
       (ResponsePacketMagicHeader s)
  >> validateAwgUint32IfSet (field +:+ ".underload_packet_magic_header (h3)")
       (UnderloadPacketMagicHeader s)
  >> validateAwgUint32IfSet (field +:+ ".transport_packet_magic_header (h4)")
       (TransportPacketMagicHeader s)
  >> validateAwgStringPtr (field +:+ ".first_special_junk_packet (i1)")
       (FirstSpecialJunkPacket s)
  >> validateAwgStringPtr (field +:+ ".second_special_junk_packet (i2)")
       (SecondSpecialJunkPacket s)
  >> validateAwgStringPtr (field +:+ ".third_special_junk_packet (i3)")
       (ThirdSpecialJunkPacket s)
  >> validateAwgStringPtr (field +:+ ".fourth_special_junk_packet (i4)")
       (FourthSpecialJunkPacket s)
  >> validateAwgStringPtr (field +:+ ".fifth_special_junk_packet (i5)")
       (FifthSpecialJunkPacket s).

Fixpoint validateCidrArray_from `{Netip} (field : string) (i : nat) (cidrs : list string)
  : option Error :=
  match cidrs with
  | [] => None
  | raw :: rest =>
    let val := TrimSpace raw in
    if String.eqb val "" then Some (ErrCidrEmpty field i)
    else if negb (ParsePrefixOk val) then Some (ErrCidrInvalid field i raw)
    else validateCidrArray_from field (S i) rest
  end.

Definition validateCidrArray `{Netip} (field : string) (cidrs : list string)
  : option Error :=
  validateCidrArray_from field 0 cidrs.

Definition isInterfaceMode (mode : string) : bool :=
  String.eqb mode "server" || String.eqb mode "client" || String.eqb mode "any".

(** What one pass of the loop of [sanitizeProvisioningInterfaces] leaves:
    the error it returns (if any), the interface as written back, the
    identifiers seen, the store and log. *)
Record Pass : Type := {
  pass_err : option Error;
  pass_iface : ProvisioningInterface;
  pass_seen : gset string;
  pass_world : World
}.

Definition stop (e : Error) (iface : ProvisioningInterface) (seen : gset string)
    (w : World) : Pass :=
  {| pass_err := Some e; pass_iface := iface; pass_seen := seen; pass_world := w |}.

(** The non-fatal hints at the end of the loop body. *)
Definition hints (id : string) (iface : ProvisioningInterface) (w : World) : World :=
  let w :=
    if (0 <? length (Dns iface))%nat && (length (PeerDefDns iface) =? 0)%nat
    then warn (WarnDnsNotInherited id) w else w in
  if negb (Mtu iface =? 0)%Z && (PeerDefMtu iface =? 0)%Z
  then warn (WarnMtuNotInherited id (Mtu iface)) w else w.

(** The body of the loop at index [idx]. *)
Definition sanitizeInterface `{Unicode} `{Netip}
    (wgMode : string) (idx : nat) (seen : gset string)
    (iface : ProvisioningInterface) (w : World) : Pass :=
  let id := TrimSpace (Identifier iface) in
  if String.eqb id "" then stop (ErrIdentifierEmpty idx) iface seen w else
  let iface := set_Identifier id iface in
  if bool_decide (id ∈ seen) then stop (ErrIdentifierNotUnique id) iface seen w else
  let seen := {[id]} ∪ seen in
  let mode := ToLower (TrimSpace (Mode iface)) in
  if negb (String.eqb mode "") && negb (isInterfaceMode mode)
  then stop (ErrMode id) iface seen w else
  let iface := if negb (String.eqb mode "") then set_Mode mode iface else iface in
  if negb (ListenPort iface =? 0)%Z
     && ((ListenPort iface <? 1)%Z || (65535 <? ListenPort iface)%Z)
  then stop (ErrListenPort id) iface seen w else
  if (Mtu iface <? 0)%Z then stop (ErrMtu id) iface seen w else
  if (PeerDefMtu iface <? 0)%Z then stop (ErrPeerDefMtu id) iface seen w else
  match (if (0 <? length (Addresses iface))%nat
         then validateCidrArray ("provisioning.interfaces[" +:+ id +:+ "].addresses")
                (Addresses iface)
         else None) with
  | Some e => stop e iface seen w
  | None =>
  match (if (0 <? length (PeerDefAllowedIPs iface))%nat
         then validateCidrArray
                ("provisioning.interfaces[" +:+ id +:+ "].peer_def_allowed_ips")
                (PeerDefAllowedIPs iface)
         else None) with
  | Some e => stop e iface seen w
  | None =>
  match (if (0 <? length (PeerDefNetwork iface))%nat
         then validateCidrArray
                ("provisioning.interfaces[" +:+ id +:+ "].peer_def_network")
                (PeerDefNetwork iface)
         else None) with
  | Some e => stop e iface seen w
  | None =>
  let checked : option Error * World :=
    match AdvancedSecurity iface with
    | Some adv =>
      if negb (String.eqb wgMode WireGuardModeAmneziaWG)
      then (Some (ErrAdvancedSecurityMode id), w)
      else validateAdvancedSecurity
             ("provisioning.interfaces[" +:+ id +:+ "].advanced_security") adv w
    | None => (None, w)
    end in
  match checked with
  | (Some e, w) => stop e iface seen w
  | (None, w) =>
    {| pass_err := None; pass_iface := iface; pass_seen := seen;
       pass_world := hints id iface w |}
  end end end end.

(** The loop, from index [idx] on: the interfaces are updated in place,
    also those before an error. *)
Fixpoint sanitizeLoop `{Unicode} `{Netip}
    (wgMode : string) (idx : nat) (seen : gset string)
    (ifaces : list ProvisioningInterface) (w : World)
  : option Error * list ProvisioningInterface * World :=
  match ifaces with
  | [] => (None, [], w)
  | iface :: rest =>
    let p := sanitizeInterface wgMode idx seen iface w in
    match pass_err p with
    | Some e => (Some e, pass_iface p :: rest, pass_world p)
    | None =>
      let '(err, rest', w') :=
        sanitizeLoop wgMode (S idx) (pass_seen p) rest (pass_world p) in
      (err, pass_iface p :: rest', w')
    end
  end.

(** [sanitizeProvisioningInterfaces(c)]: the error, and [c], the store and
    the log as the call leaves them. *)
Definition sanitizeProvisioningInterfaces `{Unicode} `{Netip} (c : Config) (w : World)
  : option Error * Config * World :=
  if (length (Interfaces c) =? 0)%nat then (None, c, w)
  else
    let '(err, ifaces, w') := sanitizeLoop (WireGuardMode c) 0 ∅ (Interfaces c) w in
    (err, {| WireGuardMode := WireGuardMode c; Interfaces := ifaces |}, w').

(** [(c *Config).Sanitize()]. *)
Definition Sanitize `{Unicode} `{Netip} (c : Config) (w : World)
  : option Error * Config * World :=
  let mode := TrimSpace (ToLower (WireGuardMode c)) in
  let mode := if String.eqb mode "" then WireGuardModeDisabled else mode in
  let c := {| WireGuardMode := mode; Interfaces := Interfaces c |} in
  if String.eqb mode WireGuardModeDisabled
     || String.eqb mode WireGuardModeWireGuard
     || String.eqb mode WireGuardModeAmneziaWG
  then sanitizeProvisioningInterfaces c w
  else (Some (ErrWireGuardMode mode), c, w).

(** The process environment, as [os.LookupEnv] reads it. *)
Definition Env : Type := gmap string string.

Definition LookupEnv (env : Env) (name : string) : option string := env !! name.

(** What the readers of the environment log with [slog.Warn]. *)
Inductive EnvWarning : Type :=
  | WarnInvalidBool (name value : string) (fallback : bool)
      (* "invalid bool env, using fallback" *)
  | WarnInvalidInt (name value : string) (fallback : Z).
      (* "invalid int env, using fallback" *)

Definition getEnvStr (env : Env) (name fallback : string) : string :=
  match LookupEnv env name with
  | Some v => v
  | None => fallback
  end.

(** The loop of [getEnvStrSlice]: [stringSlice] grows by [append]. *)
Fixpoint getEnvStrSlice_loop (strParts stringSlice : list string) : list string :=
  match strParts with
  | [] => stringSlice
  | s :: rest =>
    let trimmed := TrimSpace s in
    if negb (String.eqb trimmed "") then getEnvStrSlice_loop rest (stringSlice ++ [trimmed])
    else getEnvStrSlice_loop rest stringSlice
  end.

(** A slice is [None] when nil. *)
Definition getEnvStrSlice (env : Env) (name : string) (fallback : option (list string))
  : option (list string) :=
  match LookupEnv env name with
  | None => fallback
  | Some v => Some (getEnvStrSlice_loop (Split v ",") [])
  end.

(** [getEnvBool] and [getEnvInt] with what they log. *)
Definition getEnvBool (env : Env) (name : string) (fallback : bool)
  : bool * list EnvWarning :=
  match LookupEnv env name with
  | None => (fallback, [])
  | Some v =>
    match ParseBool v with
    | None => (fallback, [WarnInvalidBool name v fallback])
    | Some b => (b, [])
    end
  end.

Definition getEnvInt (env : Env) (name : string) (fallback : Z)
  : Z * list EnvWarning :=
  match LookupEnv env name with
  | None => (fallback, [])
  | Some v =>
    match Atoi v with
    | None => (fallback, [WarnInvalidInt name v fallback])
    | Some i => (i, [])
    end
  end.

End config.


(** ** Vocabulary of the statements *)

(** A string without its occurrences of one byte. *)
Fixpoint deleteByte (c : ascii) (s : string) : string :=
  match s with
  | "" => ""
  | String a r => if Ascii.eqb a c then deleteByte c r else String a (deleteByte c r)
  end.

Definition nonEmpty (s : string) : bool := negb (String.eqb s "").

(** The entries of a comma-separated text: the pieces between the commas,
    each without its surrounding white space, the empty ones left out. *)
Definition trimmedEntries (text : string) : list string :=
  List.filter nonEmpty (map TrimSpace (Split text ",")).

(** The text [splitCsvOrDefault] works on: the fallback for a blank value. *)
Definition csvText (value fallback : string) : string :=
  if String.eqb (TrimSpace value) "" then fallback else TrimSpace value.

(** Every entry [splitCsvOrDefault] returns is the corresponding entry of
    its input text with nothing but the surrounding white space removed. *)
Definition entriesTrimmedOnly (value fallback : string) : Prop :=
  configfile.elems (configfile.splitCsvOrDefault value fallback)
  = trimmedEntries (csvText value fallback).

(** The member of an object under a name, and the item of an array at an
    index. *)
Definition member (name : string) (v : JSON) : option JSON :=
  match v with
  | JObject members =>
    snd <$> List.find (fun kv => String.eqb (fst kv) name) members
  | _ => None
  end.

Definition item (i : nat) (v : JSON) : option JSON :=
  match v with
  | JArray items => nth_error items i
  | _ => None
  end.

(** A special junk packet that is set: a pointer that is not nil to a
    string that is not blank. *)
Definition junkPacketSet (p : option string) : Prop :=
  exists s, p = Some s /\ TrimSpace s <> "".

(** The names an object has to carry for the block [adv]: the nine names
    that are always there, and each optional name exactly when its
    parameter is set. *)
Definition awgKeyRule (adv : domain.AdvancedSecurity) (v : JSON) : Prop :=
  (forall k, In k ["H1"; "H2"; "H3"; "H4"; "Jc"; "Jmax"; "Jmin"; "S1"; "S2"] ->
             In k (keys v))
  /\ (In "S3" (keys v) <-> domain.CookieReplyPacketJunkSize adv <> 0%N)
  /\ (In "S4" (keys v) <-> domain.TransportPacketJunkSize adv <> 0%N)
  /\ (In "I1" (keys v) <-> junkPacketSet (domain.FirstSpecialJunkPacket adv))
  /\ (In "I2" (keys v) <-> junkPacketSet (domain.SecondSpecialJunkPacket adv))
  /\ (In "I3" (keys v) <-> junkPacketSet (domain.ThirdSpecialJunkPacket adv))
  /\ (In "I4" (keys v) <-> junkPacketSet (domain.FourthSpecialJunkPacket adv))
  /\ (In "I5" (keys v) <-> junkPacketSet (domain.FifthSpecialJunkPacket adv)).

(** Whether a name is among the members' names, decided. *)
Definition hasKey (k : string) (members : list (string * JSON)) : bool :=
  existsb (fun kv => String.eqb k (fst kv)) members.

(** A DEFLATE codec that inflates what it deflated, at every valid level
    and whatever follows the stream. *)
Definition FlateSound (F : Flate) : Prop :=
  forall level data rest,
    validLevel level = true ->
    flate_decompress (flate_compress level data ++ rest) = Some (data, rest).

(** The framing as a raw DEFLATE stream: after the four bytes of the
    length, the output is a DEFLATE stream that inflates to the data. *)
Definition rawDeflateFraming (F : Flate) (data : list ascii) (level : Z) : Prop :=
  exists out,
    configfile.qtQCompress data level = inr out
    /\ take 4 out = PutUint32 (N.of_nat (length data))
    /\ exists rest, flate_decompress (drop 4 out) = Some (data, rest).

(** ** Instances used to run the model on examples *)

(** [strings.ToLower] on strings without letters outside ASCII. *)
Definition asciiLetters : Unicode := {| unicode_ToLower := fun s => s |}.

(** A prefix parser that accepts the texts made of digits, dots, colons,
    hexadecimal letters and one slash. *)
Definition looseNetip : config.Netip :=
  {| config.ParsePrefixOk := fun s =>
       forallb (fun c => isDecDigit c
                         || ((97 <=? lower c) && (lower c <=? 102))%N
                         || Ascii.eqb c "." || Ascii.eqb c ":" || Ascii.eqb c "/")
               (list_ascii_of_string s)
       && bool_decide (length (List.filter (Ascii.eqb "/") (list_ascii_of_string s)) = 1) |}.

(** The JSON string encoder on strings that need no escape. *)
Definition plainQuotes : JSONStrings :=
  {| quoteString := fun s => dquote +:+ s +:+ dquote |}.

(** A key derivation that finds every private key malformed. *)
Definition noPublicKey : domain.KeyDerivation :=
  {| domain.PublicKeyFromPrivateKey := fun _ => "" |}.

(** File names as [GetConfigFileName] builds them for short identifiers
    of letters and digits. *)
Definition confNames : domain.ConfigFileNames :=
  {| domain.GetConfigFileName := fun i => domain.Identifier i +:+ ".conf" |}.

(** Collaborators that hold one interface, render a fixed text and always
    succeed. *)
Definition sampleManager (iface : domain.Interface) : configfile.Manager :=
  {| configfile.tplHandler :=
       {| configfile.GetInterfaceConfig := fun _ _ => inr "[Interface]";
          configfile.GetPeerConfig := fun _ _ => inr "[Peer]" |};
     configfile.fsRepo :=
       {| configfile.WriteFile := fun _ _ => None;
          configfile.DeleteFile := fun _ => None |};
     configfile.wg :=
       {| configfile.GetInterfaceAndPeers := fun _ => inr (iface, []);
          configfile.GetPeer := fun _ => inl (configfile.RepoFailure "no such peer");
          configfile.GetInterface := fun _ => inr iface |} |}.

(** Whether a string starts with a white-space rune. *)
Definition startsWithSpace (s : string) : bool :=
  match s with
  | "" => false
  | String c1 r1 =>
    asciiSpace c1
    || match r1 with
       | "" => false
       | String c2 r2 =>
         isSpace2 c1 c2
         || match r2 with
            | "" => false
            | String c3 _ => isSpace3 c1 c2 c3
            end
       end
  end.

(** ** Vocabulary for the advanced-security validator *)

Section ValidatorVocabulary.
Import config.

(** The two errors of the junk-packet range check. *)
Definition junkRangeError (e : Error) : Prop :=
  match e with
  | ErrJunkRangeUnset _ | ErrJunkRangeOrder _ => True
  | _ => False
  end.

(** Jmin = 0 or Jmax = 0 or Jmin > Jmax. *)
Definition junkRangeIncoherent (s : ProvisioningInterfaceAdvancedSecurity) : Prop :=
  JunkPacketMinSize s = 0%N \/ JunkPacketMaxSize s = 0%N
  \/ (JunkPacketMaxSize s < JunkPacketMinSize s)%N.

(** The second and third part of [validateAdvancedSecurity]: the four
    magic headers, then the five special junk packets. *)
Definition validateHeaders (field : string) (s : ProvisioningInterfaceAdvancedSecurity)
  : Check :=
  validateAwgUint32IfSet (field +:+ ".init_packet_magic_header (h1)")
    (InitPacketMagicHeader s)
  >> validateAwgUint32IfSet (field +:+ ".response_packet_magic_header (h2)")
       (ResponsePacketMagicHeader s)
  >> validateAwgUint32IfSet (field +:+ ".underload_packet_magic_header (h3)")
       (UnderloadPacketMagicHeader s)
  >> validateAwgUint32IfSet (field +:+ ".transport_packet_magic_header (h4)")
       (TransportPacketMagicHeader s).

Definition validateJunkPackets (field : string) (s : ProvisioningInterfaceAdvancedSecurity)
  : Check :=
  validateAwgStringPtr (field +:+ ".first_special_junk_packet (i1)")
    (FirstSpecialJunkPacket s)
  >> validateAwgStringPtr (field +:+ ".second_special_junk_packet (i2)")
       (SecondSpecialJunkPacket s)
  >> validateAwgStringPtr (field +:+ ".third_special_junk_packet (i3)")
       (ThirdSpecialJunkPacket s)
  >> validateAwgStringPtr (field +:+ ".fourth_special_junk_packet (i4)")
       (FourthSpecialJunkPacket s)
  >> validateAwgStringPtr (field +:+ ".fifth_special_junk_packet (i5)")
       (FifthSpecialJunkPacket s).


(** The addresses the block holds for its special junk packets. *)
Definition junkPointers (s : ProvisioningInterfaceAdvancedSecurity) : list loc :=
  omap id [ FirstSpecialJunkPacket s; SecondSpecialJunkPacket s;
            ThirdSpecialJunkPacket s; FourthSpecialJunkPacket s;
            FifthSpecialJunkPacket s ].



End ValidatorVocabulary.

Section CheckVocabulary.
Import config.

(** Checking special junk packets one after the other. *)
Fixpoint checkPackets (l : list (string * option loc)) : Check :=
  match l with
  | [] => ok
  | (field, p) :: rest => validateAwgStringPtr field p >> checkPackets rest
  end.



End CheckVocabulary.

(** An advanced-security block with the given junk-packet range, first
    magic header and first special junk packet, everything else unset. *)
Definition sampleBlock (jc jmin jmax : N) (h1 : string) (i1 : option config.loc)
  : config.ProvisioningInterfaceAdvancedSecurity :=
  {| config.JunkPacketCount := jc;
     config.JunkPacketMinSize := jmin;
     config.JunkPacketMaxSize := jmax;
     config.InitPacketJunkSize := 0;
     config.ResponsePacketJunkSize := 0;
     config.CookieReplyPacketJunkSize := 0;
     config.TransportPacketJunkSize := 0;
     config.InitPacketMagicHeader := h1;
     config.ResponsePacketMagicHeader := "";
     config.UnderloadPacketMagicHeader := "";
     config.TransportPacketMagicHeader := "";
     config.FirstSpecialJunkPacket := i1;
     config.SecondSpecialJunkPacket := None;
     config.ThirdSpecialJunkPacket := None;
     config.FourthSpecialJunkPacket := None;
     config.FifthSpecialJunkPacket := None |}.

(** A store that holds one string, and an empty log. *)
Definition sampleWorld (p : config.loc) (v : string) : config.World :=
  {| config.heap := {[ p := v ]}; config.warnings := [] |}.

(** ** Vocabulary for the provisioning spec *)

Section SpecVocabulary.
Import config.
Context `{Unicode}.

(** The identifier and the mode the sanitizer compares. *)
Definition idOf (iface : ProvisioningInterface) : string :=
  TrimSpace (Identifier iface).

Definition modeOf (iface : ProvisioningInterface) : string :=
  ToLower (TrimSpace (Mode iface)).

Definition modeAllowed (iface : ProvisioningInterface) : Prop :=
  In (modeOf iface) ["server"; "client"; "any"; ""].

(** What is wrong with an interface, given the interfaces before it. *)
Inductive Violation (before : list ProvisioningInterface)
    (iface : ProvisioningInterface) : Prop :=
  | EmptyIdentifier : idOf iface = "" -> Violation before iface
  | DuplicateIdentifier : In (idOf iface) (map idOf before) -> Violation before iface
  | InvalidMode : ~ modeAllowed iface -> Violation before iface.

(** No interface of the list is in violation. *)
Definition violationFree (l : list ProvisioningInterface) : Prop :=
  forall pre iface post, l = pre ++ iface :: post -> ~ Violation pre iface.

(** The errors about identifiers and modes. *)
Definition identifierError (e : Error) : Prop :=
  match e with
  | ErrIdentifierEmpty _ | ErrIdentifierNotUnique _ | ErrMode _ => True
  | _ => False
  end.

(** [e] is the error for the violation of [iface], which stands after
    [pre]: it carries the index for an empty identifier and the identifier
    otherwise. *)
Definition reports (e : Error) (pre : list ProvisioningInterface)
    (iface : ProvisioningInterface) : Prop :=
  (e = ErrIdentifierEmpty (length pre) /\ idOf iface = "")
  \/ (e = ErrIdentifierNotUnique (idOf iface)
      /\ idOf iface <> "" /\ In (idOf iface) (map idOf pre))
  \/ (e = ErrMode (idOf iface)
      /\ idOf iface <> "" /\ ~ In (idOf iface) (map idOf pre) /\ ~ modeAllowed iface).

(** A check that raises errors of one kind only. *)
Definition Raises (P : Error -> Prop) (c : Check) : Prop :=
  forall w e, fst (c w) = Some e -> P e.

End SpecVocabulary.

(** An interface of the provisioning spec with everything unset but the
    identifier, the mode and the advanced-security block. *)
Definition sampleInterface (id mode : string)
    (adv : option config.ProvisioningInterfaceAdvancedSecurity)
  : config.ProvisioningInterface :=
  {| config.Identifier := id; config.DisplayName := ""; config.Mode := mode;
     config.Enabled := None; config.PrivateKey := ""; config.ListenPort := 0;
     config.Addresses := []; config.Dns := []; config.DnsSearch := [];
     config.Mtu := 0; config.FirewallMark := 0; config.RoutingTable := "";
     config.PreUp := ""; config.PostUp := ""; config.PreDown := "";
     config.PostDown := ""; config.SaveConfig := None; config.Notes := "";
     config.PeerDefNetwork := []; config.PeerDefDns := [];
     config.PeerDefDnsSearch := []; config.PeerDefEndpoint := "";
     config.PeerDefAllowedIPs := []; config.PeerDefMtu := 0;
     config.PeerDefPersistentKeepalive := 0; config.PeerDefFirewallMark := 0;
     config.PeerDefRoutingTable := ""; config.PeerDefPreUp := "";
     config.PeerDefPostUp := ""; config.PeerDefPreDown := "";
     config.PeerDefPostDown := ""; config.AdvancedSecurity := adv |}.

(** An interface of the provisioning spec with everything unset but the
    identifier and the listen port. *)
Definition sampleListener (id : string) (port : Z) : config.ProvisioningInterface :=
  {| config.Identifier := id; config.DisplayName := ""; config.Mode := "";
     config.Enabled := None; config.PrivateKey := ""; config.ListenPort := port;
     config.Addresses := []; config.Dns := []; config.DnsSearch := [];
     config.Mtu := 0; config.FirewallMark := 0; config.RoutingTable := "";
     config.PreUp := ""; config.PostUp := ""; config.PreDown := "";
     config.PostDown := ""; config.SaveConfig := None; config.Notes := "";
     config.PeerDefNetwork := []; config.PeerDefDns := [];
     config.PeerDefDnsSearch := []; config.PeerDefEndpoint := "";
     config.PeerDefAllowedIPs := []; config.PeerDefMtu := 0;
     config.PeerDefPersistentKeepalive := 0; config.PeerDefFirewallMark := 0;
     config.PeerDefRoutingTable := ""; config.PeerDefPreUp := "";
     config.PeerDefPostUp := ""; config.PeerDefPreDown := "";
     config.PeerDefPostDown := ""; config.AdvancedSecurity := None |}.

(** A peer with an advanced-security block and its own endpoint, DNS
    servers and allowed networks. *)
Definition sampleSecurity : domain.AdvancedSecurity :=
  {| domain.JunkPacketCount := 4; domain.JunkPacketMinSize := 50;
     domain.JunkPacketMaxSize := 100; domain.InitPacketJunkSize := 10;
     domain.ResponsePacketJunkSize := 20; domain.CookieReplyPacketJunkSize := 0;
     domain.TransportPacketJunkSize := 0;
     domain.InitPacketMagicHeader := "1"; domain.ResponsePacketMagicHeader := "2";
     domain.UnderloadPacketMagicHeader := "3"; domain.TransportPacketMagicHeader := "4";
     domain.FirstSpecialJunkPacket := Some " <b 0x01> ";
     domain.SecondSpecialJunkPacket := None; domain.ThirdSpecialJunkPacket := None;
     domain.FourthSpecialJunkPacket := None; domain.FifthSpecialJunkPacket := None |}.

Definition samplePeer (endpoint dns : string) : domain.Peer :=
  {| domain.Endpoint := {| domain.Value := endpoint; domain.Overridable := true |};
     domain.EndpointPublicKey := {| domain.Value := "c2VydmVy"; domain.Overridable := true |};
     domain.AllowedIPsStr := {| domain.Value := "10.0.0.0/8"; domain.Overridable := true |};
     domain.PresharedKey := "";
     domain.PersistentKeepalive := {| domain.Value := 0%Z; domain.Overridable := true |};
     domain.PeerInterface :=
       {| domain.Keys := {| domain.PrivateKey := "cHJpdg"; domain.PublicKey := "cHVi" |};
          domain.Addresses := [ {| domain.Addr := "10.0.0.2/32" |} ];
          domain.DnsStr := {| domain.Value := dns; domain.Overridable := true |};
          domain.Mtu := {| domain.Value := 1420%Z; domain.Overridable := true |};
          domain.AdvancedSecurityParams := Some sampleSecurity |} |}.

(** ** Vocabulary for what the sanitizer accepts and leaves behind *)

Section AcceptanceVocabulary.
Import config.
Context `{Unicode} `{Netip}.

(** An entry of a CIDR list that passes [validateCidrArray]. *)
Definition cidrAccepted (raw : string) : Prop :=
  TrimSpace raw <> "" /\ ParsePrefixOk (TrimSpace raw) = true.

(** A magic header that passes: blank, or a [uint32] in Go's base-0
    syntax. *)
Definition headerAccepted (raw : string) : Prop :=
  TrimSpace raw = "" \/ exists n, ParseUint (TrimSpace raw) 0 32 = inr n.

(** A special junk packet that passes: not blank and, trimmed, shorter
    than [maxAwgStringLen] bytes. *)
Definition packetAccepted (w : World) (p : loc) : Prop :=
  TrimSpace (deref w p) <> ""
  /\ (String.length (TrimSpace (deref w p)) < maxAwgStringLen)%nat.

Definition magicHeaders (s : ProvisioningInterfaceAdvancedSecurity) : list string :=
  [ InitPacketMagicHeader s; ResponsePacketMagicHeader s;
    UnderloadPacketMagicHeader s; TransportPacketMagicHeader s ].

(** The interface as a successful pass of the sanitizer's loop leaves it:
    the identifier trimmed; the mode trimmed and lowercased, unless that
    is empty. *)
Definition normalized (iface : ProvisioningInterface) : ProvisioningInterface :=
  let i := set_Identifier (idOf iface) iface in
  if String.eqb (modeOf iface) "" then i else set_Mode (modeOf iface) i.

End AcceptanceVocabulary.

(** The five special junk packets of a block with the names their errors
    carry, in the order they are checked. *)
Definition junkPacketFields (field : string)
    (s : config.ProvisioningInterfaceAdvancedSecurity)
  : list (string * option config.loc) :=
  [ (field +:+ ".first_special_junk_packet (i1)", config.FirstSpecialJunkPacket s);
    (field +:+ ".second_special_junk_packet (i2)", config.SecondSpecialJunkPacket s);
    (field +:+ ".third_special_junk_packet (i3)", config.ThirdSpecialJunkPacket s);
    (field +:+ ".fourth_special_junk_packet (i4)", config.FourthSpecialJunkPacket s);
    (field +:+ ".fifth_special_junk_packet (i5)", config.FifthSpecialJunkPacket s) ].

Section SanitizedVocabulary.
Import config.
Context `{Unicode} `{Netip}.

(** What holds of an interface of a provisioning spec that was sanitized
    under the WireGuard mode [wgMode]. *)
Definition wellFormed (wgMode : string) (i : ProvisioningInterface) : Prop :=
  Identifier i <> "" /\ TrimSpace (Identifier i) = Identifier i
  /\ (In (Mode i) ["server"; "client"; "any"] \/ modeOf i = "")
  /\ (0 <= ListenPort i <= 65535)%Z
  /\ (0 <= Mtu i)%Z /\ (0 <= PeerDefMtu i)%Z
  /\ Forall cidrAccepted (Addresses i)
  /\ Forall cidrAccepted (PeerDefAllowedIPs i)
  /\ Forall cidrAccepted (PeerDefNetwork i)
  /\ (AdvancedSecurity i <> None -> wgMode = WireGuardModeAmneziaWG).

End SanitizedVocabulary.

(** The number a sequence of decimal digits stands for, read from the
    left with the value [acc] of the digits before it. *)
Fixpoint uintVal (acc : Z) (d : Decimal.uint) : Z :=
  match d with
  | Decimal.Nil => acc
  | Decimal.D0 l => uintVal (10 * acc + 0) l
  | Decimal.D1 l => uintVal (10 * acc + 1) l
  | Decimal.D2 l => uintVal (10 * acc + 2) l
  | Decimal.D3 l => uintVal (10 * acc + 3) l
  | Decimal.D4 l => uintVal (10 * acc + 4) l
  | Decimal.D5 l => uintVal (10 * acc + 5) l
  | Decimal.D6 l => uintVal (10 * acc + 6) l
  | Decimal.D7 l => uintVal (10 * acc + 7) l
  | Decimal.D8 l => uintVal (10 * acc + 8) l
  | Decimal.D9 l => uintVal (10 * acc + 9) l
  end.

(** The values of Go's 64-bit [int]. *)
Definition isInt (i : Z) : Prop := (- 2 ^ 63 <= i <= 2 ^ 63 - 1)%Z.

(** ** Vocabulary for the text of a QR code *)

(** The lines joined, each followed by a newline. *)
Fixpoint unlines (lines : list string) : string :=
  match lines with
  | [] => ""
  | l :: rest => l +:+ String "010" (unlines rest)
  end.

Definition isComment (line : string) : bool := HasPrefix line "#".

(** The tokens trimmed, without the ones that then start with [#]. *)
Definition keptLines (tokens : list string) : list string :=
  List.filter (fun line => negb (isComment line)) (map TrimSpace tokens).

(** A line the scanner's buffer has no room for. *)
Definition tooLong (line : string) : Prop :=
  (MaxScanTokenSize <= N.of_nat (String.length line))%N.

(** A special junk packet that validation has been through: the store
    holds its trimmed text, and that text passes. *)
Definition packetSettled (w : config.World) (q : config.loc) : Prop :=
  config.heap w !! q = Some (TrimSpace (config.deref w q)) /\ packetAccepted w q.

(** A block all of whose checks pass and whose strings are settled. *)
Definition blockSettled (w : config.World)
    (s : config.ProvisioningInterfaceAdvancedSecurity) : Prop :=
  ((0 < config.JunkPacketCount s)%N -> ~ junkRangeIncoherent s)
  /\ Forall headerAccepted (magicHeaders s)
  /\ forall q, In q (junkPointers s) -> packetSettled w q.

(** A string of decimal digits. *)
Definition allDigits (s : string) : bool := forallb isDecDigit (list_ascii_of_string s).

(** A printable ASCII byte other than the space, and a text made of such
    bytes. *)
Definition plainChar (c : ascii) : bool :=
  ((32 <? byte_val c) && (byte_val c <? 127))%N.

Definition plainText (s : string) : bool := forallb plainChar (list_ascii_of_string s).

(** * Properties *)

(** ** White space and trimming *)

Lemma TrimLeftSpace_rune (r : N) (s : string) :
  In r whiteSpace -> TrimLeftSpace (utf8 r +:+ s) = TrimLeftSpace s.
Proof.
  unfold whiteSpace. intros Hr.
  repeat (destruct Hr as [<- | Hr]; [reflexivity |]).
  destruct Hr.
Qed.

Lemma TrimLeftSpace_SpaceOnly (s : string) : SpaceOnly s -> TrimLeftSpace s = "".
Proof.
  induction 1 as [| r s Hr _ IH]; [reflexivity |].
  now rewrite TrimLeftSpace_rune.
Qed.

Lemma TrimSpace_SpaceOnly (s : string) : SpaceOnly s -> TrimSpace s = "".
Proof.
  intros Hs. unfold TrimSpace. now rewrite TrimLeftSpace_SpaceOnly.
Qed.

Lemma byte_of_val (c : ascii) (n : N) : byte_val c = n -> c = byte_of n.
Proof. intros <-. symmetry. apply ascii_N_embedding. Qed.

Lemma asciiSpace_rune (c : ascii) :
  asciiSpace c = true -> exists r, In r whiteSpace /\ String c "" = utf8 r.
Proof.
  unfold asciiSpace. intros H. exists (byte_val c).
  assert (Hn : (byte_val c = 9 \/ byte_val c = 10 \/ byte_val c = 11
                \/ byte_val c = 12 \/ byte_val c = 13 \/ byte_val c = 32)%N) by lia.
  split.
  - unfold whiteSpace.
    destruct Hn as [-> | [-> | [-> | [-> | [-> | ->]]]]]; simpl; tauto.
  - rewrite (byte_of_val c _ eq_refl) at 1.
    destruct Hn as [-> | [-> | [-> | [-> | [-> | ->]]]]]; reflexivity.
Qed.

Lemma isSpace2_rune (c1 c2 : ascii) :
  isSpace2 c1 c2 = true ->
  exists r, In r whiteSpace /\ String c1 (String c2 "") = utf8 r.
Proof.
  unfold isSpace2. intros H.
  assert (H1 : byte_val c1 = 194%N) by lia.
  assert (H2 : (byte_val c2 = 133 \/ byte_val c2 = 160)%N) by lia.
  apply byte_of_val in H1. subst c1.
  destruct H2 as [H2 | H2]; apply byte_of_val in H2; subst c2.
  - exists 133%N. split; [unfold whiteSpace; simpl; tauto | reflexivity].
  - exists 160%N. split; [unfold whiteSpace; simpl; tauto | reflexivity].
Qed.

Lemma isSpace3_rune (c1 c2 c3 : ascii) :
  isSpace3 c1 c2 c3 = true ->
  exists r, In r whiteSpace /\ String c1 (String c2 (String c3 "")) = utf8 r.
Proof.
  unfold isSpace3. cbv zeta. intros H.
  assert (Hn : exists r, In r whiteSpace
             /\ byte_val c1 = (224 + N.shiftr r 12)%N
             /\ byte_val c2 = (128 + N.land (N.shiftr r 6) 63)%N
             /\ byte_val c3 = (128 + N.land r 63)%N
             /\ (2048 <= r)%N).
  { assert (Hc :
      (byte_val c1 = 225 /\ byte_val c2 = 154 /\ byte_val c3 = 128
       \/ byte_val c1 = 226 /\ byte_val c2 = 128
          /\ (byte_val c3 = 128 \/ byte_val c3 = 129 \/ byte_val c3 = 130
              \/ byte_val c3 = 131 \/ byte_val c3 = 132 \/ byte_val c3 = 133
              \/ byte_val c3 = 134 \/ byte_val c3 = 135 \/ byte_val c3 = 136
              \/ byte_val c3 = 137 \/ byte_val c3 = 138 \/ byte_val c3 = 168
              \/ byte_val c3 = 169 \/ byte_val c3 = 175)
       \/ byte_val c1 = 226 /\ byte_val c2 = 129 /\ byte_val c3 = 159
       \/ byte_val c1 = 227 /\ byte_val c2 = 128 /\ byte_val c3 = 128)%N) by lia.
    unfold whiteSpace.
    destruct Hc as [(-> & -> & ->) | [(-> & -> & Hc) | [(-> & -> & ->) | (-> & -> & ->)]]].
    - exists 5760%N. simpl. repeat split; tauto || lia.
    - destruct Hc as [-> | [-> | [-> | [-> | [-> | [-> | [-> | [-> | [-> | [-> | [-> | [-> | [-> | ->]]]]]]]]]]]]].
      + exists 8192%N. simpl. repeat split; tauto || lia.
      + exists 8193%N. simpl. repeat split; tauto || lia.
      + exists 8194%N. simpl. repeat split; tauto || lia.
      + exists 8195%N. simpl. repeat split; tauto || lia.
      + exists 8196%N. simpl. repeat split; tauto || lia.
      + exists 8197%N. simpl. repeat split; tauto || lia.
      + exists 8198%N. simpl. repeat split; tauto || lia.
      + exists 8199%N. simpl. repeat split; tauto || lia.
      + exists 8200%N. simpl. repeat split; tauto || lia.
      + exists 8201%N. simpl. repeat split; tauto || lia.
      + exists 8202%N. simpl. repeat split; tauto || lia.
      + exists 8232%N. simpl. repeat split; tauto || lia.
      + exists 8233%N. simpl. repeat split; tauto || lia.
      + exists 8239%N. simpl. repeat split; tauto || lia.
    - exists 8287%N. simpl. repeat split; tauto || lia.
    - exists 12288%N. simpl. repeat split; tauto || lia. }
  destruct Hn as (r & Hr & H1 & H2 & H3 & Hlo).
  exists r. split; [exact Hr |].
  unfold utf8.
  destruct (N.ltb_spec r 128); [lia |].
  destruct (N.ltb_spec r 2048); [lia |].
  now rewrite (byte_of_val _ _ H1), (byte_of_val _ _ H2), (byte_of_val _ _ H3).
Qed.

(** What [TrimLeftSpace] returns does not start with white space. *)
Lemma TrimLeftSpace_idem_le (n : nat) (s : string) :
  String.length s <= n -> TrimLeftSpace (TrimLeftSpace s) = TrimLeftSpace s.
Proof.
  revert s. induction n as [| n IH]; intros s Hlen.
  - destruct s; [reflexivity | simpl in Hlen; lia].
  - destruct s as [| c1 r1]; [reflexivity |]. simpl in Hlen.
    cbn [TrimLeftSpace].
    destruct (asciiSpace c1) eqn:E1; [apply IH; lia |].
    destruct r1 as [| c2 r2].
    { cbn [TrimLeftSpace]. now rewrite E1. }
    simpl in Hlen.
    destruct (isSpace2 c1 c2) eqn:E2; [apply IH; lia |].
    destruct r2 as [| c3 r3].
    { cbn [TrimLeftSpace]. now rewrite E1, E2. }
    simpl in Hlen.
    destruct (isSpace3 c1 c2 c3) eqn:E3; [apply IH; lia |].
    cbn [TrimLeftSpace]. now rewrite E1, E2, E3.
Qed.

Lemma TrimLeftSpace_idem (s : string) :
  TrimLeftSpace (TrimLeftSpace s) = TrimLeftSpace s.
Proof. now apply (TrimLeftSpace_idem_le (String.length s)). Qed.

Lemma SpaceOnly_of_TrimLeftSpace_le (n : nat) (s : string) :
  String.length s <= n -> TrimLeftSpace s = "" -> SpaceOnly s.
Proof.
  revert s. induction n as [| n IH]; intros s Hlen H.
  - destruct s; [constructor | simpl in Hlen; lia].
  - destruct s as [| c1 r1]; [constructor |]. simpl in Hlen.
    cbn [TrimLeftSpace] in H.
    destruct (asciiSpace c1) eqn:E1.
    { destruct (asciiSpace_rune c1 E1) as (r & Hr & Heq).
      change (String c1 r1) with (String c1 "" +:+ r1). rewrite Heq.
      constructor; [exact Hr | apply IH; [lia | exact H]]. }
    destruct r1 as [| c2 r2]; [discriminate |]. simpl in Hlen.
    destruct (isSpace2 c1 c2) eqn:E2.
    { destruct (isSpace2_rune c1 c2 E2) as (r & Hr & Heq).
      change (String c1 (String c2 r2)) with (String c1 (String c2 "") +:+ r2).
      rewrite Heq. constructor; [exact Hr | apply IH; [lia | exact H]]. }
    destruct r2 as [| c3 r3]; [discriminate |]. simpl in Hlen.
    destruct (isSpace3 c1 c2 c3) eqn:E3; [| discriminate].
    destruct (isSpace3_rune c1 c2 c3 E3) as (r & Hr & Heq).
    change (String c1 (String c2 (String c3 r3)))
      with (String c1 (String c2 (String c3 "")) +:+ r3).
    rewrite Heq. constructor; [exact Hr | apply IH; [lia | exact H]].
Qed.

Lemma TrimRightSpace_empty (t : string) :
  TrimRightSpace t = "" -> TrimLeftSpace t = "".
Proof.
  destruct t as [| c r]; [reflexivity |].
  cbn [TrimRightSpace]. unfold isSpaceOnly.
  destruct (String.eqb_spec (TrimLeftSpace (String c r)) ""); [auto | discriminate].
Qed.

(** [strings.TrimSpace] returns the empty string exactly on the strings
    that hold white space only. *)
Lemma TrimSpace_empty_iff (s : string) : TrimSpace s = "" <-> SpaceOnly s.
Proof.
  split; [| apply TrimSpace_SpaceOnly].
  unfold TrimSpace. intros H%TrimRightSpace_empty.
  rewrite TrimLeftSpace_idem in H.
  now apply (SpaceOnly_of_TrimLeftSpace_le (String.length s)).
Qed.

Lemma append_assoc (a b c : string) : (a +:+ b) +:+ c = a +:+ (b +:+ c).
Proof.
  induction a as [| x a IH]; [reflexivity |].
  change (String x ((a +:+ b) +:+ c) = String x (a +:+ (b +:+ c))).
  now rewrite IH.
Qed.

Lemma SpaceOnly_app (a b : string) : SpaceOnly a -> SpaceOnly b -> SpaceOnly (a +:+ b).
Proof.
  induction 1 as [| r s Hr _ IH]; intros Hb; [exact Hb |].
  rewrite append_assoc. constructor; auto.
Qed.

Lemma isSpaceOnly_iff (s : string) : isSpaceOnly s = true <-> SpaceOnly s.
Proof.
  unfold isSpaceOnly. rewrite String.eqb_eq. split.
  - apply (SpaceOnly_of_TrimLeftSpace_le (String.length s)). lia.
  - apply TrimLeftSpace_SpaceOnly.
Qed.

(** What [TrimRightSpace] cuts off is white space. *)
Lemma TrimRightSpace_split (s : string) :
  exists w, s = TrimRightSpace s +:+ w /\ SpaceOnly w.
Proof.
  induction s as [| c r (w & Hw & Hs)].
  - exists "". split; [reflexivity | constructor].
  - cbn [TrimRightSpace]. destruct (isSpaceOnly (String c r)) eqn:E.
    + exists (String c r). split; [reflexivity | now apply isSpaceOnly_iff].
    + exists w. split; [| exact Hs].
      change (String c r = String c (TrimRightSpace r +:+ w)). now rewrite <- Hw.
Qed.

Lemma TrimRightSpace_idem (s : string) :
  TrimRightSpace (TrimRightSpace s) = TrimRightSpace s.
Proof.
  induction s as [| c r IH]; [reflexivity |].
  cbn [TrimRightSpace]. destruct (isSpaceOnly (String c r)) eqn:E; [reflexivity |].
  cbn [TrimRightSpace]. rewrite IH.
  destruct (isSpaceOnly (String c (TrimRightSpace r))) eqn:E'; [| reflexivity].
  destruct (TrimRightSpace_split r) as (w & Hw & Hs).
  apply isSpaceOnly_iff in E'.
  assert (Hall : SpaceOnly (String c r)).
  { rewrite Hw. change (String c (TrimRightSpace r +:+ w))
      with (String c (TrimRightSpace r) +:+ w).
    now apply SpaceOnly_app. }
  apply isSpaceOnly_iff in Hall. congruence.
Qed.

(** Case analysis on the white-space tests that occur. *)
Ltac case_spaces :=
  repeat match goal with
         | H : context [asciiSpace ?c] |- _ => destruct (asciiSpace c)
         | H : context [isSpace2 ?c ?d] |- _ => destruct (isSpace2 c d)
         | H : context [isSpace3 ?c ?d ?e] |- _ => destruct (isSpace3 c d e)
         end.

Lemma TrimLeftSpace_fixed (s : string) :
  startsWithSpace s = false -> TrimLeftSpace s = s.
Proof.
  destruct s as [| c1 [| c2 [| c3 r3]]]; cbn [startsWithSpace TrimLeftSpace];
    intros H; case_spaces; (discriminate || reflexivity).
Qed.

Lemma startsWithSpace_TrimLeftSpace_le (n : nat) (s : string) :
  String.length s <= n -> startsWithSpace (TrimLeftSpace s) = false.
Proof.
  revert s. induction n as [| n IH]; intros s Hlen.
  - destruct s; [reflexivity | simpl in Hlen; lia].
  - destruct s as [| c1 r1]; [reflexivity |]. simpl in Hlen.
    cbn [TrimLeftSpace].
    destruct (asciiSpace c1) eqn:E1; [apply IH; lia |].
    destruct r1 as [| c2 r2].
    { cbn. now rewrite E1. }
    simpl in Hlen.
    destruct (isSpace2 c1 c2) eqn:E2; [apply IH; lia |].
    destruct r2 as [| c3 r3].
    { cbn. now rewrite E1, E2. }
    simpl in Hlen.
    destruct (isSpace3 c1 c2 c3) eqn:E3; [apply IH; lia |].
    cbn. now rewrite E1, E2, E3.
Qed.

Lemma startsWithSpace_TrimRightSpace (s : string) :
  startsWithSpace s = false -> startsWithSpace (TrimRightSpace s) = false.
Proof.
  destruct s as [| c1 [| c2 [| c3 r3]]]; cbn [startsWithSpace TrimRightSpace]; intros H;
    repeat match goal with
           | |- context [if isSpaceOnly ?x then _ else _] => destruct (isSpaceOnly x)
           end;
    cbn [startsWithSpace]; case_spaces; (discriminate || reflexivity).
Qed.

(** [strings.TrimSpace] leaves a trimmed string as it is. *)
Lemma TrimSpace_idem (s : string) : TrimSpace (TrimSpace s) = TrimSpace s.
Proof.
  unfold TrimSpace.
  rewrite (TrimLeftSpace_fixed (TrimRightSpace (TrimLeftSpace s))).
  - apply TrimRightSpace_idem.
  - apply startsWithSpace_TrimRightSpace.
    now apply (startsWithSpace_TrimLeftSpace_le (String.length s)).
Qed.

(** ** Endpoint resolution *)

Section Endpoint.
Import configfile.

Lemma SplitHostPort_empty : SplitHostPort "" = inl MissingPort.
Proof. reflexivity. Qed.

Lemma parseEndpointHostPort_blank (endpoint : string) :
  SpaceOnly endpoint -> parseEndpointHostPort endpoint = ("127.0.0.1", 51820%Z).
Proof.
  intros H. unfold parseEndpointHostPort.
  now rewrite (TrimSpace_SpaceOnly _ H).
Qed.

Lemma parseEndpointHostPort_bare (endpoint : string) :
  TrimSpace endpoint <> "" ->
  LastIndexByte (TrimSpace endpoint) ":" = None ->
  parseEndpointHostPort endpoint = (TrimSpace endpoint, 51820%Z).
Proof.
  intros Hne Hcolon. unfold parseEndpointHostPort.
  destruct (String.eqb_spec (TrimSpace endpoint) ""); [contradiction |].
  unfold SplitHostPort. now rewrite Hcolon.
Qed.

Lemma parseEndpointHostPort_bad_port (endpoint h p : string) :
  SplitHostPort (TrimSpace endpoint) = inr (h, p) ->
  Atoi p = None ->
  parseEndpointHostPort endpoint
  = (if String.eqb (TrimSpace h) "" then "127.0.0.1" else TrimSpace h, 51820%Z).
Proof.
  intros Hsplit Hport. unfold parseEndpointHostPort.
  destruct (String.eqb_spec (TrimSpace endpoint) "") as [E | _].
  { rewrite E, SplitHostPort_empty in Hsplit. discriminate. }
  rewrite Hsplit, Hport.
  now destruct (String.eqb (TrimSpace h) "").
Qed.

(** C5. [parseEndpointHostPort] maps the empty string and every string of
    white space to [("127.0.0.1", 51820)]; a host without a colon to
    itself (trimmed) with port 51820, as for ["192.168.1.1"];
    ["192.168.1.1:51821"] to [("192.168.1.1", 51821)]; ["[::1]:51821"] to
    [("::1", 51821)]; and whenever the trimmed input splits into a host
    and a port that is no integer, it returns port 51820 with the parsed
    host, trimmed (the default host when that is empty). *)
Theorem parseEndpointHostPort_spec :
  parseEndpointHostPort "" = ("127.0.0.1", 51820%Z)
  /\ (forall endpoint, SpaceOnly endpoint ->
        parseEndpointHostPort endpoint = ("127.0.0.1", 51820%Z))
  /\ parseEndpointHostPort "192.168.1.1" = ("192.168.1.1", 51820%Z)
  /\ (forall endpoint,
        TrimSpace endpoint <> "" ->
        LastIndexByte (TrimSpace endpoint) ":" = None ->
        parseEndpointHostPort endpoint = (TrimSpace endpoint, 51820%Z))
  /\ parseEndpointHostPort "192.168.1.1:51821" = ("192.168.1.1", 51821%Z)
  /\ parseEndpointHostPort "[::1]:51821" = ("::1", 51821%Z)
  /\ (forall endpoint h p,
        SplitHostPort (TrimSpace endpoint) = inr (h, p) ->
        Atoi p = None ->
        snd (parseEndpointHostPort endpoint) = 51820%Z
        /\ (TrimSpace h <> "" -> fst (parseEndpointHostPort endpoint) = TrimSpace h)
        /\ (TrimSpace h = "" -> fst (parseEndpointHostPort endpoint) = "127.0.0.1")).
Proof.
  split; [reflexivity |].
  split; [exact parseEndpointHostPort_blank |].
  split; [reflexivity |].
  split; [exact parseEndpointHostPort_bare |].
  split; [reflexivity |].
  split; [reflexivity |].
  intros endpoint h p Hsplit Hport.
  rewrite (parseEndpointHostPort_bad_port _ _ _ Hsplit Hport). cbn [fst snd].
  destruct (String.eqb_spec (TrimSpace h) ""); split; try split; congruence.
Qed.

(** The general cases of [parseEndpointHostPort_spec] on inputs of their
    own: white space only, a bare host name, and ports that are no
    integers. *)
Lemma parseEndpointHostPort_spec_witness :
  parseEndpointHostPort (utf8 9 +:+ utf8 160 +:+ utf8 8232 +:+ " ")
    = ("127.0.0.1", 51820%Z)
  /\ parseEndpointHostPort " vpn.example.com " = ("vpn.example.com", 51820%Z)
  /\ parseEndpointHostPort "vpn.example.com :https" = ("vpn.example.com", 51820%Z)
  /\ parseEndpointHostPort "[::1]:0x10" = ("::1", 51820%Z).
Proof.
  destruct parseEndpointHostPort_spec as (_ & Hblank & _ & Hbare & _ & _ & Hport).
  split; [| split; [| split]].
  - apply Hblank.
    apply (SpaceOnly_rune 9); [vm_compute; tauto |].
    apply (SpaceOnly_rune 160); [vm_compute; tauto |].
    apply (SpaceOnly_rune 8232); [vm_compute; tauto |].
    apply (SpaceOnly_rune 32 ""); [vm_compute; tauto | constructor].
  - apply (Hbare " vpn.example.com "); [discriminate | reflexivity].
  - destruct (Hport "vpn.example.com :https" "vpn.example.com " "https"
                eq_refl eq_refl) as (Hp & Hh & _).
    rewrite (surjective_pairing (parseEndpointHostPort _)), Hp, Hh;
      [reflexivity | discriminate].
  - destruct (Hport "[::1]:0x10" "::1" "0x10" eq_refl eq_refl) as (Hp & Hh & _).
    rewrite (surjective_pairing (parseEndpointHostPort _)), Hp, Hh;
      [reflexivity | discriminate].
Defined.

End Endpoint.

(** ** Comma-separated lists and DNS servers *)

Section Csv.
Import configfile.

Lemma HasPrefix_empty (s : string) : HasPrefix s "" = true.
Proof. now destruct s. Qed.

Lemma ReplaceAll_space (s : string) : ReplaceAll s " " "" = deleteByte " " s.
Proof.
  unfold ReplaceAll.
  induction s as [| c r IH]; [reflexivity |].
  cbn [ReplaceAll_go deleteByte HasPrefix String.length].
  rewrite HasPrefix_empty, Ascii.eqb_sym, andb_true_r.
  destruct (Ascii.eqb c " "); cbn; now rewrite IH.
Qed.

Lemma splitCsv_loop_acc (items out : list string) :
  splitCsv_loop items out = out ++ List.filter nonEmpty (map TrimSpace items).
Proof.
  revert out. induction items as [| item rest IH]; intros out.
  - cbn. now rewrite app_nil_r.
  - cbn [splitCsv_loop map List.filter]. unfold nonEmpty at 1.
    destruct (String.eqb (TrimSpace item) ""); cbn [negb].
    + apply IH.
    + rewrite IH. now rewrite <- app_assoc.
Qed.

Lemma splitCsv_loop_entries (items : list string) :
  splitCsv_loop items [] = List.filter nonEmpty (map TrimSpace items).
Proof. apply splitCsv_loop_acc. Qed.

Lemma splitCsvOrDefault_text (value fallback : string) :
  splitCsvOrDefault value fallback
  = let bare := deleteByte " " (csvText value fallback) in
    if String.eqb bare "" then None else Some (trimmedEntries bare).
Proof.
  unfold splitCsvOrDefault, csvText, trimmedEntries. cbv zeta.
  rewrite ReplaceAll_space.
  destruct (String.eqb (deleteByte " " _) ""); [reflexivity |].
  now rewrite splitCsv_loop_entries.
Qed.

Lemma csvText_blank (value fallback : string) :
  SpaceOnly value -> csvText value fallback = fallback.
Proof.
  intros H. unfold csvText. now rewrite (TrimSpace_SpaceOnly _ H).
Qed.

Lemma csvText_set (value fallback : string) :
  ~ SpaceOnly value -> csvText value fallback = TrimSpace value.
Proof.
  intros H. unfold csvText.
  destruct (String.eqb_spec (TrimSpace value) "") as [E | _]; [| reflexivity].
  now apply TrimSpace_empty_iff in E.
Qed.

Lemma deleteByte_absent (c : ascii) (s : string) :
  IndexByte (deleteByte c s) c = None.
Proof.
  induction s as [| a r IH]; [reflexivity |].
  cbn [deleteByte]. destruct (Ascii.eqb a c) eqn:E; [exact IH |].
  cbn [IndexByte]. now rewrite E, IH.
Qed.

Lemma pickDnsServers_first_two (dns a b : string) (rest : list string) :
  elems (splitCsvOrDefault dns "1.1.1.1,1.0.0.1") = a :: b :: rest ->
  pickDnsServers dns = (a, b).
Proof. intros H. unfold pickDnsServers. now rewrite H. Qed.

Lemma splitCsvOrDefault_elems (value fallback : string) :
  elems (splitCsvOrDefault value fallback)
  = trimmedEntries (deleteByte " " (csvText value fallback)).
Proof.
  rewrite splitCsvOrDefault_text. cbv zeta.
  destruct (String.eqb_spec (deleteByte " " (csvText value fallback)) "") as [-> | _];
    reflexivity.
Qed.

(** C6, as the code has it.  [splitCsvOrDefault] takes the fallback for a
    value that is empty or white space only and the trimmed value
    otherwise; it deletes every space of that text, also a space inside an
    entry; it splits at the commas, trims each piece and drops the empty
    ones.  [pickDnsServers] maps [""] to [("1.1.1.1", "1.0.0.1")],
    ["8.8.8.8"] to [("8.8.8.8", "1.0.0.1")], ["8.8.8.8,8.8.4.4"] to
    [("8.8.8.8", "8.8.4.4")], and returns the first two entries whatever
    follows them. *)
Theorem splitCsvOrDefault_spec :
  (forall value fallback, SpaceOnly value -> csvText value fallback = fallback)
  /\ (forall value fallback, ~ SpaceOnly value -> csvText value fallback = TrimSpace value)
  /\ (forall value fallback,
        splitCsvOrDefault value fallback
        = let bare := deleteByte " " (csvText value fallback) in
          if String.eqb bare "" then None else Some (trimmedEntries bare))
  /\ (forall value fallback,
        elems (splitCsvOrDefault value fallback)
        = trimmedEntries (deleteByte " " (csvText value fallback)))
  /\ splitCsvOrDefault "x,,y" "a,b" = Some ["x"; "y"]
  /\ pickDnsServers "" = ("1.1.1.1", "1.0.0.1")
  /\ pickDnsServers "8.8.8.8" = ("8.8.8.8", "1.0.0.1")
  /\ pickDnsServers "8.8.8.8,8.8.4.4" = ("8.8.8.8", "8.8.4.4")
  /\ (forall dns a b rest,
        elems (splitCsvOrDefault dns "1.1.1.1,1.0.0.1") = a :: b :: rest ->
        pickDnsServers dns = (a, b)).
Proof.
  split; [exact csvText_blank |].
  split; [exact csvText_set |].
  split; [exact splitCsvOrDefault_text |].
  split; [exact splitCsvOrDefault_elems |].
  split; [reflexivity |].
  split; [reflexivity |].
  split; [reflexivity |].
  split; [reflexivity |].
  exact pickDnsServers_first_two.
Qed.

(** The general parts of [splitCsvOrDefault_spec] at inputs of their own:
    a blank value, a value with spaces inside an entry, and a third DNS
    server. *)
Lemma splitCsvOrDefault_spec_witness :
  csvText (utf8 9 +:+ "  ") "a, b" = "a, b"
  /\ elems (splitCsvOrDefault " 10.0.0.0 / 8 , ,fd00:: /8" "") = ["10.0.0.0/8"; "fd00::/8"]
  /\ pickDnsServers "1.1.1.1,8.8.8.8,9.9.9.9" = ("1.1.1.1", "8.8.8.8").
Proof.
  destruct splitCsvOrDefault_spec as (Hblank & _ & _ & Helems & _ & _ & _ & _ & Hdns).
  split; [| split].
  - apply Hblank.
    apply (SpaceOnly_rune 9); [vm_compute; tauto |].
    apply (SpaceOnly_rune 32); [vm_compute; tauto |].
    apply (SpaceOnly_rune 32 ""); [vm_compute; tauto | constructor].
  - rewrite Helems. reflexivity.
  - apply (Hdns _ _ _ ["9.9.9.9"]). reflexivity.
Defined.

(** C6 as it is stated fails: of the entry ["a b"] the code returns
    ["ab"]; trimming alone leaves ["a b"]. *)
Lemma splitCsvOrDefault_deletes_inner_spaces :
  splitCsvOrDefault "a b,c" "x" = Some ["ab"; "c"]
  /\ trimmedEntries (csvText "a b,c" "x") = ["a b"; "c"]
  /\ ~ entriesTrimmedOnly "a b,c" "x".
Proof.
  split; [reflexivity |]. split; [reflexivity |].
  unfold entriesTrimmedOnly. vm_compute. discriminate.
Qed.

End Csv.

(** ** The names in the marshalled objects *)

Section Keys.
Import domain configfile.

Lemma Itoa_nonempty (i : Z) : Itoa i <> "".
Proof.
  unfold Itoa. destruct (Z.to_int i) as [d | d]; destruct d; discriminate.
Qed.

Lemma u16ToStringOptional_empty (v : N) : u16ToStringOptional v = "" <-> v = 0%N.
Proof.
  unfold u16ToStringOptional. destruct (N.eqb_spec v 0); split; auto.
  - intros H. now apply Itoa_nonempty in H.
  - contradiction.
Qed.

Lemma trimmedOrEmpty_set (p : option string) :
  trimmedOrEmpty p <> "" <-> junkPacketSet p.
Proof.
  unfold junkPacketSet. destruct p as [s |]; cbn.
  - split; [intros H; now exists s | intros (s' & [= <-] & H); exact H].
  - split; [congruence | intros (s' & [=] & _)].
Qed.

Lemma In_keys_hasKey (k : string) (members : list (string * JSON)) :
  In k (keys (JObject members)) <-> hasKey k members = true.
Proof.
  unfold hasKey. cbn [keys]. rewrite existsb_exists, in_map_iff.
  split.
  - intros (kv & <- & Hin). exists kv. split; [exact Hin | apply String.eqb_refl].
  - intros (kv & Hin & Heq). exists kv. apply String.eqb_eq in Heq. auto.
Qed.

Lemma hasKey_app (k : string) (l r : list (string * JSON)) :
  hasKey k (l ++ r) = hasKey k l || hasKey k r.
Proof. apply existsb_app. Qed.

Lemma hasKey_field (k name v : string) :
  hasKey k (field name v) = String.eqb k name.
Proof. cbn. apply orb_false_r. Qed.

Lemma hasKey_omitempty (k name v : string) :
  hasKey k (omitempty name v) = String.eqb k name && nonEmpty v.
Proof.
  unfold omitempty, nonEmpty. destruct (String.eqb v ""); cbn.
  - now rewrite andb_false_r.
  - now rewrite orb_false_r, andb_true_r.
Qed.

Lemma nonEmpty_true (v : string) : nonEmpty v = true <-> v <> "".
Proof.
  unfold nonEmpty. destruct (String.eqb_spec v ""); split; auto; discriminate.
Qed.

(** Deciding whether a literal name is among the names of an object built
    from [field] and [omitempty]. *)
Ltac keys_in :=
  rewrite In_keys_hasKey, !hasKey_app, !hasKey_field, !hasKey_omitempty;
  cbn; rewrite ?orb_false_r; try reflexivity; try apply nonEmpty_true.

Lemma awgContainerJSON_keys (a : amneziaAwgContainer) :
  (forall k, In k ["H1"; "H2"; "H3"; "H4"; "Jc"; "Jmax"; "Jmin"; "S1"; "S2"] ->
             In k (keys (awgContainerJSON a)))
  /\ (In "S3" (keys (awgContainerJSON a)) <-> awg_S3 a <> "")
  /\ (In "S4" (keys (awgContainerJSON a)) <-> awg_S4 a <> "")
  /\ (In "I1" (keys (awgContainerJSON a)) <-> awg_I1 a <> "")
  /\ (In "I2" (keys (awgContainerJSON a)) <-> awg_I2 a <> "")
  /\ (In "I3" (keys (awgContainerJSON a)) <-> awg_I3 a <> "")
  /\ (In "I4" (keys (awgContainerJSON a)) <-> awg_I4 a <> "")
  /\ (In "I5" (keys (awgContainerJSON a)) <-> awg_I5 a <> "").
Proof.
  unfold awgContainerJSON.
  split.
  { intros k Hk. cbn [In] in Hk.
    repeat (destruct Hk as [<- | Hk]; [keys_in |]). destruct Hk. }
  split; [keys_in |]. split; [keys_in |]. split; [keys_in |].
  split; [keys_in |]. split; [keys_in |]. split; keys_in.
Qed.

Lemma lastConfigJSON_keys (c : amneziaAwgLastConfig) :
  (forall k, In k ["H1"; "H2"; "H3"; "H4"; "Jc"; "Jmax"; "Jmin"; "S1"; "S2"] ->
             In k (keys (lastConfigJSON c)))
  /\ (In "S3" (keys (lastConfigJSON c)) <-> lc_S3 c <> "")
  /\ (In "S4" (keys (lastConfigJSON c)) <-> lc_S4 c <> "")
  /\ (In "I1" (keys (lastConfigJSON c)) <-> lc_I1 c <> "")
  /\ (In "I2" (keys (lastConfigJSON c)) <-> lc_I2 c <> "")
  /\ (In "I3" (keys (lastConfigJSON c)) <-> lc_I3 c <> "")
  /\ (In "I4" (keys (lastConfigJSON c)) <-> lc_I4 c <> "")
  /\ (In "I5" (keys (lastConfigJSON c)) <-> lc_I5 c <> "").
Proof.
  unfold lastConfigJSON.
  split.
  { intros k Hk. cbn [In] in Hk.
    repeat (destruct Hk as [<- | Hk]; [keys_in |]). destruct Hk. }
  split; [keys_in |]. split; [keys_in |]. split; [keys_in |].
  split; [keys_in |]. split; [keys_in |]. split; keys_in.
Qed.

Context `{JSONStrings} `{KeyDerivation}.

Lemma buildLastConfig_optional (peer : Peer) (adv : AdvancedSecurity) (configText : string) :
  let c := buildLastConfig peer adv configText in
  lc_S3 c = u16ToStringOptional (CookieReplyPacketJunkSize adv)
  /\ lc_S4 c = u16ToStringOptional (TransportPacketJunkSize adv)
  /\ lc_I1 c = trimmedOrEmpty (FirstSpecialJunkPacket adv)
  /\ lc_I2 c = trimmedOrEmpty (SecondSpecialJunkPacket adv)
  /\ lc_I3 c = trimmedOrEmpty (ThirdSpecialJunkPacket adv)
  /\ lc_I4 c = trimmedOrEmpty (FourthSpecialJunkPacket adv)
  /\ lc_I5 c = trimmedOrEmpty (FifthSpecialJunkPacket adv).
Proof.
  unfold buildLastConfig.
  destruct (parseEndpointHostPort _) as [host port]. cbn. tauto.
Qed.

Lemma buildEnvelope_container (peer : Peer) (adv : AdvancedSecurity)
    (description : string) (lastCfgJSON : list ascii) :
  exists a,
    Containers (buildEnvelope peer adv description lastCfgJSON)
      = [ {| Awg := a; Container := "amnezia-awg" |} ]
    /\ awg_LastConfig a = string_of_list_ascii lastCfgJSON
    /\ awg_S3 a = u16ToStringOptional (CookieReplyPacketJunkSize adv)
    /\ awg_S4 a = u16ToStringOptional (TransportPacketJunkSize adv)
    /\ awg_I1 a = trimmedOrEmpty (FirstSpecialJunkPacket adv)
    /\ awg_I2 a = trimmedOrEmpty (SecondSpecialJunkPacket adv)
    /\ awg_I3 a = trimmedOrEmpty (ThirdSpecialJunkPacket adv)
    /\ awg_I4 a = trimmedOrEmpty (FourthSpecialJunkPacket adv)
    /\ awg_I5 a = trimmedOrEmpty (FifthSpecialJunkPacket adv).
Proof.
  unfold buildEnvelope.
  destruct (parseEndpointHostPort _) as [host port].
  destruct (pickDnsServers _) as [dns1 dns2].
  eexists. split; [reflexivity |]. cbn. tauto.
Qed.

Lemma awgKeyRule_intro (adv : AdvancedSecurity) (v : JSON) (s3 s4 i1 i2 i3 i4 i5 : string) :
  (forall k, In k ["H1"; "H2"; "H3"; "H4"; "Jc"; "Jmax"; "Jmin"; "S1"; "S2"] ->
             In k (keys v))
  /\ (In "S3" (keys v) <-> s3 <> "")
  /\ (In "S4" (keys v) <-> s4 <> "")
  /\ (In "I1" (keys v) <-> i1 <> "")
  /\ (In "I2" (keys v) <-> i2 <> "")
  /\ (In "I3" (keys v) <-> i3 <> "")
  /\ (In "I4" (keys v) <-> i4 <> "")
  /\ (In "I5" (keys v) <-> i5 <> "") ->
  s3 = u16ToStringOptional (CookieReplyPacketJunkSize adv) ->
  s4 = u16ToStringOptional (TransportPacketJunkSize adv) ->
  i1 = trimmedOrEmpty (FirstSpecialJunkPacket adv) ->
  i2 = trimmedOrEmpty (SecondSpecialJunkPacket adv) ->
  i3 = trimmedOrEmpty (ThirdSpecialJunkPacket adv) ->
  i4 = trimmedOrEmpty (FourthSpecialJunkPacket adv) ->
  i5 = trimmedOrEmpty (FifthSpecialJunkPacket adv) ->
  awgKeyRule adv v.
Proof.
  intros (Hbase & H3 & H4 & H1' & H2' & H3' & H4' & H5') -> -> -> -> -> -> ->.
  unfold awgKeyRule.
  split; [exact Hbase |].
  split; [etransitivity; [exact H3 | apply not_iff_compat, u16ToStringOptional_empty] |].
  split; [etransitivity; [exact H4 | apply not_iff_compat, u16ToStringOptional_empty] |].
  split; [etransitivity; [exact H1' | apply trimmedOrEmpty_set] |].
  split; [etransitivity; [exact H2' | apply trimmedOrEmpty_set] |].
  split; [etransitivity; [exact H3' | apply trimmedOrEmpty_set] |].
  split; [etransitivity; [exact H4' | apply trimmedOrEmpty_set] |].
  etransitivity; [exact H5' | apply trimmedOrEmpty_set].
Qed.

(** C3. In the outer envelope's [awg] object and in the inner
    [last_config] record that [buildAmneziaAwgVpnLink] marshals, the names
    H1..H4, Jc, Jmax, Jmin, S1 and S2 are always present; S3 and S4 are
    present exactly when the block's field is not zero, and I1..I5 exactly
    when the block's pointer is not nil and its string is not blank. *)
Theorem awg_json_key_rules
    (peer : Peer) (adv : AdvancedSecurity) (description configText : string) :
  let lastCfg := lastConfigJSON (buildLastConfig peer adv configText) in
  let envelope := envelopeJSON (buildEnvelope peer adv description (Marshal lastCfg)) in
  exists awg,
    ((member "containers" envelope ≫= item 0) ≫= member "awg") = Some awg
    /\ member "last_config" awg = Some (JString (encodeJSON lastCfg))
    /\ awgKeyRule adv awg
    /\ awgKeyRule adv lastCfg.
Proof.
  intros lastCfg envelope.
  destruct (buildEnvelope_container peer adv description (Marshal lastCfg))
    as (a & Hc & Hlast & Hs3 & Hs4 & Hi1 & Hi2 & Hi3 & Hi4 & Hi5).
  exists (awgContainerJSON a).
  split; [| split; [| split]].
  - subst envelope. unfold envelopeJSON. rewrite Hc. reflexivity.
  - unfold awgContainerJSON, member.
    assert (Hlc : awg_LastConfig a = encodeJSON lastCfg).
    { rewrite Hlast. unfold Marshal. apply string_of_list_ascii_of_string. }
    rewrite <- Hlc.
    unfold omitempty.
    destruct (String.eqb (awg_S3 a) ""), (String.eqb (awg_S4 a) ""),
      (String.eqb (awg_I1 a) ""), (String.eqb (awg_I2 a) ""),
      (String.eqb (awg_I3 a) ""), (String.eqb (awg_I4 a) ""),
      (String.eqb (awg_I5 a) ""); reflexivity.
  - eapply awgKeyRule_intro; [apply awgContainerJSON_keys | eauto ..].
  - destruct (buildLastConfig_optional peer adv configText)
      as (Ls3 & Ls4 & Li1 & Li2 & Li3 & Li4 & Li5).
    eapply awgKeyRule_intro; [apply lastConfigJSON_keys | eauto ..].
Qed.

End Keys.

(** ** Bytes and bits *)

Lemma byte_val_lt (c : ascii) : (byte_val c < 256)%N.
Proof. apply N_ascii_bounded. Qed.

Lemma byte_val_of (n : N) : (n < 256)%N -> byte_val (byte_of n) = n.
Proof. apply N_ascii_embedding. Qed.

Lemma byte_of_byte_val (c : ascii) : byte_of (byte_val c) = c.
Proof. apply ascii_N_embedding. Qed.

(** Bits that do not overlap add up. *)
Lemma lor_mul_low (x y m k : N) :
  m = (2 ^ k)%N -> (y < m)%N -> N.lor (x * m) y = (x * m + y)%N.
Proof.
  intros -> Hy.
  assert (Hland : N.land (x * 2 ^ k) y = 0%N).
  { apply N.bits_inj_0. intros n. rewrite N.land_spec.
    destruct (N.lt_ge_cases n k) as [Hn | Hn].
    - now rewrite N.mul_pow2_bits_low.
    - destruct (N.eq_dec y 0%N) as [-> | Hy0].
      + rewrite N.bits_0. apply andb_false_r.
      + rewrite (N.bits_above_log2 y n), andb_false_r; [reflexivity |].
        apply N.lt_le_trans with k; [| exact Hn].
        apply N.log2_lt_pow2; [lia | exact Hy]. }
  rewrite <- N.lxor_lor by exact Hland.
  now rewrite <- N.add_nocarry_lxor by exact Hland.
Qed.

Lemma land_255 (x : N) : N.land x 255 = (x mod 256)%N.
Proof. change 255%N with (N.ones 8). now rewrite N.land_ones. Qed.

Lemma land_63 (x : N) : N.land x 63 = (x mod 64)%N.
Proof. change 63%N with (N.ones 6). now rewrite N.land_ones. Qed.

Lemma shiftr_div (x k : N) : N.shiftr x k = (x / 2 ^ k)%N.
Proof. apply N.shiftr_div_pow2. Qed.

(** Rewriting the bit operations of a term into arithmetic; what is left
    is for [lia]. *)
Ltac bits_to_arith :=
  rewrite ?land_255, ?land_63, ?shiftr_div, ?N.shiftl_mul_pow2;
  change (2 ^ 2)%N with 4%N; change (2 ^ 4)%N with 16%N;
  change (2 ^ 6)%N with 64%N; change (2 ^ 8)%N with 256%N;
  change (2 ^ 12)%N with 4096%N; change (2 ^ 16)%N with 65536%N;
  change (2 ^ 18)%N with 262144%N; change (2 ^ 24)%N with 16777216%N;
  change (2 ^ 32)%N with 4294967296%N.

(** Linear arithmetic with division by constants. *)
Ltac nlia := zify; Z.to_euclidean_division_equations; lia.

Lemma Uint32_PutUint32 (v : N) :
  (v < 2 ^ 32)%N ->
  Uint32 (byte_of (N.land (N.shiftr v 24) 255)) (byte_of (N.land (N.shiftr v 16) 255))
         (byte_of (N.land (N.shiftr v 8) 255)) (byte_of (N.land v 255)) = v.
Proof.
  intros Hv. unfold Uint32.
  rewrite !byte_val_of by (rewrite land_255; apply N.mod_lt; lia).
  bits_to_arith. change (2 ^ 32)%N with 4294967296%N in Hv.
  set (A := (v / 16777216 mod 256)%N).
  set (B := (v / 65536 mod 256)%N).
  set (C := (v / 256 mod 256)%N).
  set (D := (v mod 256)%N).
  assert (HA : (A < 256)%N) by (apply N.mod_lt; lia).
  assert (HB : (B < 256)%N) by (apply N.mod_lt; lia).
  assert (HC : (C < 256)%N) by (apply N.mod_lt; lia).
  assert (HD : (D < 256)%N) by (apply N.mod_lt; lia).
  rewrite (lor_mul_low C D 256 8 eq_refl HD).
  rewrite (lor_mul_low A (B * 65536) 16777216 24 eq_refl) by lia.
  replace (A * 16777216 + B * 65536)%N with ((A * 256 + B) * 65536)%N by lia.
  rewrite (lor_mul_low _ _ 65536 16 eq_refl) by lia.
  subst A B C D. nlia.
Qed.

Lemma PutUint32_length (v : N) : length (PutUint32 v) = 4.
Proof. reflexivity. Qed.

(** ** Base64 *)

Lemma list_ind3 {A} (P : list A -> Prop) :
  P [] -> (forall a, P [a]) -> (forall a b, P [a; b]) ->
  (forall a b c r, P r -> P (a :: b :: c :: r)) ->
  forall l, P l.
Proof.
  intros H0 H1 H2 H3.
  fix IH 1. intros [| a [| b [| c r]]];
    [exact H0 | apply H1 | apply H2 | apply H3, IH].
Qed.

Lemma decIndex_enc (i : N) : (i < 64)%N -> decIndex (enc i) = Some i.
Proof.
  intros Hi.
  assert (Hall : forallb (fun n => bool_decide (decIndex (enc (N.of_nat n)) = Some (N.of_nat n)))
                   (seq 0 64) = true) by (vm_compute; reflexivity).
  rewrite forallb_forall in Hall.
  assert (Hin : In (N.to_nat i) (seq 0 64)) by (apply in_seq; lia).
  apply Hall in Hin. rewrite N2Nat.id in Hin.
  now apply bool_decide_eq_true in Hin.
Qed.

Lemma decIndex_sextet (val k : N) :
  decIndex (sextet val k) = Some ((val / 2 ^ k) mod 64)%N.
Proof.
  unfold sextet. rewrite land_63, shiftr_div.
  apply decIndex_enc, N.mod_lt. lia.
Qed.

Lemma chunk_val (a b c : ascii) :
  N.lor (N.lor (N.shiftl (byte_val a) 16) (N.shiftl (byte_val b) 8)) (byte_val c)
  = (byte_val a * 65536 + byte_val b * 256 + byte_val c)%N.
Proof.
  pose proof (byte_val_lt a). pose proof (byte_val_lt b). pose proof (byte_val_lt c).
  rewrite !N.shiftl_mul_pow2.
  change (2 ^ 16)%N with 65536%N. change (2 ^ 8)%N with 256%N.
  rewrite (lor_mul_low _ (byte_val b * 256) 65536 16 eq_refl) by lia.
  replace (byte_val a * 65536 + byte_val b * 256)%N
    with ((byte_val a * 256 + byte_val b) * 256)%N by lia.
  rewrite (lor_mul_low _ _ 256 8 eq_refl) by lia. lia.
Qed.

Lemma sextet_values (A B C : N) :
  (A < 256)%N -> (B < 256)%N -> (C < 256)%N ->
  let val := (A * 65536 + B * 256 + C)%N in
  ((val / 2 ^ 18) mod 64 = A / 4
   /\ (val / 2 ^ 12) mod 64 = (A mod 4) * 16 + B / 16
   /\ (val / 2 ^ 6) mod 64 = (B mod 16) * 4 + C / 64
   /\ (val / 2 ^ 0) mod 64 = C mod 64)%N.
Proof.
  intros HA HB HC val. subst val.
  change (2 ^ 18)%N with 262144%N. change (2 ^ 12)%N with 4096%N.
  change (2 ^ 6)%N with 64%N. change (2 ^ 0)%N with 1%N.
  split; [nlia |]. split; [nlia |]. split; nlia.
Qed.

(** The three bytes a decoder rebuilds from the four sextets of a value. *)
Lemma sextets_bytes (A B C : N) :
  (A < 256)%N -> (B < 256)%N -> (C < 256)%N ->
  let i0 := (A / 4)%N in
  let i1 := ((A mod 4) * 16 + B / 16)%N in
  let i2 := ((B mod 16) * 4 + C / 64)%N in
  let i3 := (C mod 64)%N in
  N.land (N.lor (N.shiftl i0 2) (N.shiftr i1 4)) 255 = A
  /\ N.land (N.lor (N.shiftl i1 4) (N.shiftr i2 2)) 255 = B
  /\ N.land (N.lor (N.shiftl i2 6) i3) 255 = C.
Proof.
  intros HA HB HC i0 i1 i2 i3.
  bits_to_arith.
  rewrite (lor_mul_low i0 (i1 / 16) 4 2 eq_refl) by (subst i1; nlia).
  rewrite (lor_mul_low i1 (i2 / 4) 16 4 eq_refl) by (subst i2; nlia).
  rewrite (lor_mul_low i2 i3 64 6 eq_refl) by (subst i3; nlia).
  subst i0 i1 i2 i3.
  split; [nlia |]. split; nlia.
Qed.

Lemma decode_chunk (a b c : ascii) :
  let val := N.lor (N.lor (N.shiftl (byte_val a) 16) (N.shiftl (byte_val b) 8))
                   (byte_val c) in
  exists i0 i1 i2 i3,
    decIndex (sextet val 18) = Some i0
    /\ decIndex (sextet val 12) = Some i1
    /\ decIndex (sextet val 6) = Some i2
    /\ decIndex (sextet val 0) = Some i3
    /\ byte_of (N.land (N.lor (N.shiftl i0 2) (N.shiftr i1 4)) 255) = a
    /\ byte_of (N.land (N.lor (N.shiftl i1 4) (N.shiftr i2 2)) 255) = b
    /\ byte_of (N.land (N.lor (N.shiftl i2 6) i3) 255) = c.
Proof.
  intros val. subst val. rewrite chunk_val.
  pose proof (byte_val_lt a) as HA. pose proof (byte_val_lt b) as HB.
  pose proof (byte_val_lt c) as HC.
  destruct (sextet_values _ _ _ HA HB HC) as (E0 & E1 & E2 & E3).
  destruct (sextets_bytes _ _ _ HA HB HC) as (B0 & B1 & B2).
  do 4 eexists.
  rewrite !decIndex_sextet, E0, E1, E2, E3, B0, B1, B2, !byte_of_byte_val.
  repeat split; reflexivity.
Qed.

(** Decoding gives back what was encoded. *)
Lemma decodeRaw_encodeRaw (src : list ascii) : decodeRaw (encodeRaw src) = Some src.
Proof.
  induction src as [| a | a b | a b c r IH] using list_ind3.
  - reflexivity.
  - destruct (decode_chunk a (byte_of 0) (byte_of 0))
      as (i0 & i1 & _ & _ & E0 & E1 & _ & _ & B0 & _).
    cbn [encodeRaw decodeRaw].
    change (byte_val (byte_of 0)) with 0%N in E0, E1.
    rewrite N.shiftl_0_l, !N.lor_0_r in E0, E1.
    rewrite E0, E1. cbn. now rewrite B0.
  - destruct (decode_chunk a b (byte_of 0))
      as (i0 & i1 & i2 & _ & E0 & E1 & E2 & _ & B0 & B1 & _).
    cbn [encodeRaw decodeRaw].
    change (byte_val (byte_of 0)) with 0%N in E0, E1, E2.
    rewrite !N.lor_0_r in E0, E1, E2.
    rewrite E0, E1, E2. cbn. now rewrite B0, B1.
  - destruct (decode_chunk a b c)
      as (i0 & i1 & i2 & i3 & E0 & E1 & E2 & E3 & B0 & B1 & B2).
    cbn [encodeRaw decodeRaw].
    rewrite E0, E1, E2, E3, IH. cbn. now rewrite B0, B1, B2.
Qed.

Lemma DecodeString_EncodeToString (src : list ascii) :
  DecodeString (EncodeToString src) = Some src.
Proof.
  unfold DecodeString, EncodeToString.
  rewrite list_ascii_of_string_of_list_ascii. apply decodeRaw_encodeRaw.
Qed.

(** Every character written is one of the 64 of the URL-safe alphabet;
    ['='], ['+'] and ['/'] are none of them. *)
Lemma encodeRaw_alphabet (src : list ascii) :
  Forall (fun c => decIndex c <> None) (encodeRaw src).
Proof.
  assert (Hs : forall val k, decIndex (sextet val k) <> None)
    by (intros; now rewrite decIndex_sextet).
  induction src as [| a | a b | a b c r IH] using list_ind3;
    cbn [encodeRaw]; repeat constructor; auto.
Qed.

(** No padding: four characters for three bytes, rounded up. *)
Lemma encodeRaw_length (src : list ascii) :
  length (encodeRaw src) = (4 * length src + 2) / 3.
Proof.
  induction src as [| a | a b | a b c r IH] using list_ind3; try reflexivity.
  cbn [encodeRaw length]. rewrite IH.
  replace (4 * S (S (S (length r))) + 2) with ((4 * length r + 2) + 4 * 3) by lia.
  rewrite Nat.div_add by lia. lia.
Qed.

(** ** The zlib stream *)

Lemma adler32_fold_lt (data : list ascii) (a b : N) :
  (a < 65521)%N -> (b < 65521)%N ->
  (fst (fold_left adler32_step data (a, b)) < 65521
   /\ snd (fold_left adler32_step data (a, b)) < 65521)%N.
Proof.
  revert a b. induction data as [| c r IH]; intros a b Ha Hb; [cbn; auto |].
  cbn [fold_left]. unfold adler32_step at 2. cbn [fst snd].
  apply IH; apply N.mod_lt; lia.
Qed.

Lemma adler32_lt (data : list ascii) : (adler32 data < 2 ^ 32)%N.
Proof.
  unfold adler32.
  destruct (adler32_fold_lt data 1 0) as [Ha Hb]; [lia | lia |].
  destruct (fold_left adler32_step data (1%N, 0%N)) as [a b]. cbn [fst snd] in *.
  rewrite N.shiftl_mul_pow2. change (2 ^ 16)%N with 65536%N.
  rewrite (lor_mul_low b a 65536 16 eq_refl) by lia.
  change (2 ^ 32)%N with 4294967296%N. lia.
Qed.

Lemma validLevel_cases (level : Z) :
  validLevel level = true ->
  (level = -2 \/ level = -1 \/ level = 0 \/ level = 1 \/ level = 2 \/ level = 3
   \/ level = 4 \/ level = 5 \/ level = 6 \/ level = 7 \/ level = 8 \/ level = 9)%Z.
Proof. unfold validLevel. lia. Qed.

(** The header a writer of a valid level writes is one a reader accepts:
    method 8, window 7, a multiple of 31, no dictionary. *)
Lemma zlib_header_accepted (level : Z) :
  validLevel level = true ->
  let cmf := byte_val (byte_of 120) in
  let flg := byte_val (byte_of (zlibFLG level)) in
  (negb (N.land cmf 15 =? 8) || (7 <? N.shiftr cmf 4)
   || negb ((cmf * 256 + flg) mod 31 =? 0))%N = false
  /\ negb (N.land flg 32 =? 0)%N = false.
Proof.
  intros H.
  destruct (validLevel_cases level H)
    as [-> | [-> | [-> | [-> | [-> | [-> | [-> | [-> | [-> | [-> | [-> | ->]]]]]]]]]]];
    vm_compute; split; reflexivity.
Qed.

Section Zlib.
Context `{F : Flate} (sound : FlateSound F).

(** Reading back what a writer of a valid level wrote gives the data. *)
Lemma zlibReadAll_zlibStream (level : Z) (data : list ascii) :
  validLevel level = true -> zlibReadAll (zlibStream level data) = Some data.
Proof.
  intros Hlevel. unfold zlibStream, zlibReadAll. cbn [app].
  destruct (zlib_header_accepted level Hlevel) as [-> ->].
  rewrite (sound level data _ Hlevel).
  unfold PutUint32.
  rewrite Uint32_PutUint32 by apply adler32_lt.
  now rewrite N.eqb_refl.
Qed.

End Zlib.

(** ** The stored-block codec *)

Lemma le16_value (n : N) :
  (n < 65536)%N ->
  (byte_val (byte_of (N.land n 255))
   + 256 * byte_val (byte_of (N.land (N.shiftr n 8) 255)) = n)%N.
Proof.
  intros Hn.
  rewrite !byte_val_of by (rewrite land_255; apply N.mod_lt; lia).
  bits_to_arith. nlia.
Qed.

Lemma lxor_lt_65536 (n : N) : (n < 65536)%N -> (N.lxor n 65535 < 65536)%N.
Proof.
  intros Hn.
  destruct (N.eq_dec (N.lxor n 65535) 0%N) as [-> | Hne]; [lia |].
  change 65536%N with (2 ^ 16)%N. apply N.log2_lt_pow2; [lia |].
  eapply N.le_lt_trans; [apply N.log2_lxor |].
  change (N.log2 65535) with 15%N.
  destruct (N.eq_dec n 0%N) as [-> | Hn0]; [cbn; lia |].
  assert (N.log2 n < 16)%N by (apply N.log2_lt_pow2; [lia | exact Hn]).
  lia.
Qed.

Lemma maxStoreBlockSize_val : N.of_nat maxStoreBlockSize = 65535%N.
Proof. unfold maxStoreBlockSize. apply N2Nat.id. Qed.

(** Inflating one stored block. *)
Lemma storedInflate_block (f : nat) (blk tail : list ascii) (isEof : bool) :
  length blk <= maxStoreBlockSize ->
  storedInflate (S f) (storedHeader (N.of_nat (length blk)) isEof ++ blk ++ tail)
  = if isEof then Some (blk, tail)
    else match storedInflate f tail with
         | Some (d, rest) => Some (blk ++ d, rest)
         | None => None
         end.
Proof.
  intros Hlen.
  assert (HL : (N.of_nat (length blk) < 65536)%N).
  { pose proof maxStoreBlockSize_val. lia. }
  unfold storedHeader, le16. cbn [app storedInflate].
  rewrite (le16_value _ HL), (le16_value _ (lxor_lt_65536 _ HL)).
  rewrite N.eqb_refl. cbn [negb].
  rewrite Nat2N.id, length_app.
  destruct (Nat.ltb_spec (length blk + length tail) (length blk)) as [? | _]; [lia |].
  rewrite take_app_length, drop_app_length.
  destruct isEof; reflexivity.
Qed.

Lemma storedInflate_blocks (n : nat) :
  forall (data rest : list ascii) (f : nat),
    length data <= n -> n < f ->
    storedInflate f (storedBlocks n data ++ storedHeader 0 true ++ rest)
    = Some (data, rest).
Proof.
  induction n as [| n IH]; intros data rest f Hlen Hf.
  - destruct data; [| cbn in Hlen; lia].
    destruct f as [| f]; [lia |].
    apply (storedInflate_block f [] rest true). cbn. lia.
  - destruct f as [| f]; [lia |].
    destruct data as [| x xs].
    { apply (storedInflate_block f [] rest true). cbn. lia. }
    cbn [storedBlocks]. rewrite <- !app_assoc.
    rewrite storedInflate_block by (rewrite length_take; lia).
    rewrite IH.
    + now rewrite take_drop.
    + rewrite length_drop. cbn [length] in *.
      assert (1 <= maxStoreBlockSize) by (pose proof maxStoreBlockSize_val; lia).
      lia.
    + lia.
Qed.

Lemma storedBlocks_length (n : nat) (data : list ascii) :
  length data <= n -> length data <= length (storedBlocks n data).
Proof.
  revert data. induction n as [| n IH]; intros data Hlen.
  - destruct data; cbn in *; lia.
  - destruct data as [| x xs]; [cbn; lia |].
    cbn [storedBlocks]. rewrite !length_app.
    assert (1 <= maxStoreBlockSize) by (pose proof maxStoreBlockSize_val; lia).
    assert (Hd : length (drop maxStoreBlockSize (x :: xs)) <= n).
    { rewrite length_drop. cbn [length] in *. lia. }
    specialize (IH _ Hd). rewrite length_drop in IH.
    rewrite length_take. cbn [length] in *. lia.
Qed.

(** The stored-block codec inflates what it deflated. *)
Lemma storedFlate_sound : FlateSound storedFlate.
Proof.
  intros level data rest _. cbn [flate_compress flate_decompress storedFlate].
  unfold storedDecompress, storedCompress. rewrite <- app_assoc.
  apply storedInflate_blocks; [lia |].
  rewrite length_app.
  pose proof (storedBlocks_length (length data) data (Nat.le_refl _)). lia.
Qed.

(** ** Framing: [qtQCompress] *)

Section Framing.
Import configfile.

Lemma uint32_small (n : N) : (n < 2 ^ 32)%N -> uint32 n = n.
Proof. intros H. unfold uint32. now apply N.mod_small. Qed.

Lemma uint32_lt (n : N) : (uint32 n < 2 ^ 32)%N.
Proof. unfold uint32. apply N.mod_lt. lia. Qed.

Lemma qtQCompress_invalid_level `{Flate} (data : list ascii) (level : Z) :
  validLevel level = false -> qtQCompress data level = inl (ErrZlibWriter level).
Proof. intros E. unfold qtQCompress. now rewrite E. Qed.

(** C1, as the code has it.  For every byte sequence and every valid
    level, [qtQCompress] returns four bytes that are the big-endian
    encoding of the length (as a [uint32]: the length itself below 2^32),
    followed by a zlib stream -- two header bytes, the DEFLATE stream,
    the Adler-32 of the data -- that a zlib reader turns back into the
    data. *)
Theorem qtQCompress_frame `{F : Flate} (sound : FlateSound F)
    (data : list ascii) (level : Z) :
  validLevel level = true ->
  exists b0 b1 b2 b3 stream,
    qtQCompress data level = inr (b0 :: b1 :: b2 :: b3 :: stream)
    /\ [b0; b1; b2; b3] = PutUint32 (uint32 (N.of_nat (length data)))
    /\ Uint32 b0 b1 b2 b3 = (N.of_nat (length data) mod 2 ^ 32)%N
    /\ ((N.of_nat (length data) < 2 ^ 32)%N -> Uint32 b0 b1 b2 b3 = N.of_nat (length data))
    /\ stream = zlibStream level data
    /\ zlibReadAll stream = Some data.
Proof.
  intros Hlevel. unfold qtQCompress. rewrite Hlevel. cbn [negb].
  unfold PutUint32 at 1. cbn [app].
  do 5 eexists. split; [reflexivity |].
  split; [reflexivity |].
  split; [apply Uint32_PutUint32, uint32_lt |].
  split; [| split; [reflexivity | now apply zlibReadAll_zlibStream]].
  intros Hsmall. rewrite Uint32_PutUint32 by apply uint32_lt.
  now apply uint32_small.
Qed.

(** [qtQCompress_frame] for the stored-block codec, 25 bytes and the level
    the link builder passes. *)
Lemma qtQCompress_frame_witness :
  exists b0 b1 b2 b3 stream,
    @qtQCompress storedFlate (list_ascii_of_string "test data for compression") 8
      = inr (b0 :: b1 :: b2 :: b3 :: stream)
    /\ [b0; b1; b2; b3] = PutUint32 (uint32 25)
    /\ Uint32 b0 b1 b2 b3 = (25 mod 2 ^ 32)%N
    /\ ((25 < 2 ^ 32)%N -> Uint32 b0 b1 b2 b3 = 25%N)
    /\ stream = @zlibStream storedFlate 8 (list_ascii_of_string "test data for compression")
    /\ @zlibReadAll storedFlate stream
       = Some (list_ascii_of_string "test data for compression").
Proof.
  exact (@qtQCompress_frame storedFlate storedFlate_sound
           (list_ascii_of_string "test data for compression") 8 eq_refl).
Defined.

(** C1 as it is stated fails: what follows the length is no raw DEFLATE
    stream.  With the stored-block codec at level 0 the empty input gives
    00 00 00 00 78 01 01 00 00 FF FF 00 00 00 01: a DEFLATE reader takes
    78 for the header of a stored block and finds a length 0101 whose
    complement is not 0000. *)
Lemma qtQCompress_not_raw_deflate :
  FlateSound storedFlate
  /\ @qtQCompress storedFlate [] 0
     = inr (map byte_of [0; 0; 0; 0; 120; 1; 1; 0; 0; 255; 255; 0; 0; 0; 1]%N)
  /\ @flate_decompress storedFlate
       (map byte_of [120; 1; 1; 0; 0; 255; 255; 0; 0; 0; 1]%N) = None
  /\ ~ rawDeflateFraming storedFlate [] 0.
Proof.
  split; [exact storedFlate_sound |].
  split; [reflexivity |]. split; [reflexivity |].
  intros (out & Hout & _ & rest & Hrest).
  injection Hout as <-. vm_compute in Hrest. discriminate.
Qed.

End Framing.

(** ** The link: [buildAmneziaAwgVpnLink] *)

Section Link.
Import domain configfile.
Context `{F : Flate} `{J : JSONStrings} `{K : KeyDerivation}.

Lemma qtQCompress_level8 (data : list ascii) :
  qtQCompress data 8
  = inr (PutUint32 (uint32 (N.of_nat (length data))) ++ zlibStream 8 data).
Proof. reflexivity. Qed.

(** C2. [buildAmneziaAwgVpnLink] returns an error exactly for a nil peer
    and for a peer whose interface has no advanced-security block; for
    every other peer it returns ["vpn://"] followed by the base64 text of
    the framed envelope, in the URL-safe alphabet and without padding. *)
Theorem buildAmneziaAwgVpnLink_spec
    (peer : option Peer) (description configText : string) :
  ((exists e, buildAmneziaAwgVpnLink peer description configText = inl e)
   <-> (peer = None
        \/ exists p, peer = Some p /\ AdvancedSecurityParams (PeerInterface p) = None))
  /\ (peer = None ->
      buildAmneziaAwgVpnLink peer description configText = inl ErrNilPeer)
  /\ (forall p, peer = Some p -> AdvancedSecurityParams (PeerInterface p) = None ->
      buildAmneziaAwgVpnLink peer description configText = inl ErrMissingAdvancedSecurity)
  /\ (forall p adv,
        peer = Some p -> AdvancedSecurityParams (PeerInterface p) = Some adv ->
        let lastCfg := Marshal (lastConfigJSON (buildLastConfig p adv configText)) in
        let envelope := Marshal (envelopeJSON (buildEnvelope p adv description lastCfg)) in
        exists framed encoded,
          qtQCompress envelope 8 = inr framed
          /\ buildAmneziaAwgVpnLink peer description configText
             = inr ("vpn://" +:+ encoded)
          /\ encoded = EncodeToString framed
          /\ DecodeString encoded = Some framed
          /\ Forall (fun c => decIndex c <> None) (list_ascii_of_string encoded)
          /\ String.length encoded = (4 * length framed + 2) / 3).
Proof.
  split; [| split; [| split]].
  - unfold buildAmneziaAwgVpnLink.
    destruct peer as [p |].
    + destruct (AdvancedSecurityParams (PeerInterface p)) as [adv |] eqn:E.
      * rewrite qtQCompress_level8. split.
        -- intros (e & [=]).
        -- intros [[=] | (p' & [= <-] & E')]. congruence.
      * split; [intros _; right; eauto | intros _; eauto].
    + split; [auto | eauto].
  - now intros ->.
  - intros p -> E. unfold buildAmneziaAwgVpnLink. now rewrite E.
  - intros p adv -> E lastCfg envelope.
    unfold buildAmneziaAwgVpnLink. rewrite E.
    fold lastCfg. fold envelope. rewrite qtQCompress_level8.
    do 2 eexists. split; [reflexivity |]. split; [reflexivity |].
    split; [reflexivity |]. split; [apply DecodeString_EncodeToString |].
    unfold EncodeToString.
    rewrite list_ascii_of_string_of_list_ascii.
    split; [apply encodeRaw_alphabet |].
    rewrite <- encodeRaw_length.
    generalize (encodeRaw (PutUint32 (uint32 (N.of_nat (length envelope)))
                            ++ zlibStream 8 envelope)).
    intros l. induction l as [| c l IH]; [reflexivity | cbn; now rewrite IH].
Qed.

End Link.

(** ** The coordinator's event handlers *)

Section Handlers.
Import domain configfile.
Context `{Names : ConfigFileNames}.

Lemma PersistInterfaceConfig_success (m : Manager) (id : string)
    (iface : Interface) (peers : list Peer) (cfg : string) :
  GetInterfaceAndPeers (wg m) id = inr (iface, peers) ->
  GetInterfaceConfig (tplHandler m) iface peers = inr cfg ->
  fst (PersistInterfaceConfig m id)
  = [ CallGetInterfaceAndPeers id;
      CallGetInterfaceConfig iface peers;
      CallWriteFile (GetConfigFileName iface) cfg ].
Proof.
  intros Hdb Htpl. unfold PersistInterfaceConfig, call.
  cbn. rewrite Hdb. cbn. rewrite Htpl. cbn.
  now destruct (WriteFile (fsRepo m) (GetConfigFileName iface) cfg).
Qed.

(** C10. For an interface with [SaveConfig = false] the handler of the
    interface-created and interface-updated events and the handler of the
    interface-deleted event return at once: they call nothing, so no file
    is written or deleted. *)
Theorem handlers_skip_unsaved (m : Manager) (iface : Interface) :
  SaveConfig iface = false ->
  handleInterfaceSavedEvent m iface = ([], tt)
  /\ handleInterfaceDeleteEvent m iface = ([], tt)
  /\ List.filter isFileSystemCall (fst (handleInterfaceSavedEvent m iface)) = []
  /\ List.filter isFileSystemCall (fst (handleInterfaceDeleteEvent m iface)) = [].
Proof.
  intros E. unfold handleInterfaceSavedEvent, handleInterfaceDeleteEvent.
  rewrite E. cbn. auto.
Qed.

(** With [SaveConfig = true] the handlers do reach the file system: the
    delete handler always, the save handler once the repository and the
    renderer have answered. *)
Lemma handlers_reach_file_system (m : Manager) (iface : Interface) :
  SaveConfig iface = true ->
  In (CallDeleteFile (GetConfigFileName iface)) (fst (handleInterfaceDeleteEvent m iface))
  /\ (forall stored peers cfg,
        GetInterfaceAndPeers (wg m) (Identifier iface) = inr (stored, peers) ->
        GetInterfaceConfig (tplHandler m) stored peers = inr cfg ->
        In (CallWriteFile (GetConfigFileName stored) cfg)
           (fst (handleInterfaceSavedEvent m iface))).
Proof.
  intros E. split.
  - unfold handleInterfaceDeleteEvent, UnpersistInterfaceConfig, call. rewrite E. cbn.
    destruct (DeleteFile (fsRepo m) (GetConfigFileName iface)); cbn; auto.
  - intros stored peers cfg Hdb Htpl.
    pose proof (PersistInterfaceConfig_success m _ _ _ _ Hdb Htpl) as Htrace.
    unfold handleInterfaceSavedEvent. rewrite E. cbn [negb].
    unfold call at 1. cbn [mbind Act_bind].
    destruct (PersistInterfaceConfig m (Identifier iface)) as [t err].
    cbn [fst] in Htrace. subst t.
    destruct err; cbn; auto 10.
Qed.

End Handlers.

(** [handlers_skip_unsaved] for an interface that is not saved, with
    collaborators that would succeed; the same interface with
    [SaveConfig = true] has its file written and deleted. *)
Lemma handlers_skip_unsaved_witness :
  let wg0 := {| domain.Identifier := "wg0"; domain.DisplayName := "";
                domain.SaveConfig := false |} in
  let wg1 := {| domain.Identifier := "wg0"; domain.DisplayName := "";
                domain.SaveConfig := true |} in
  (@configfile.handleInterfaceSavedEvent confNames (sampleManager wg0) wg0 = ([], tt)
   /\ @configfile.handleInterfaceDeleteEvent confNames (sampleManager wg0) wg0 = ([], tt)
   /\ List.filter configfile.isFileSystemCall
        (fst (@configfile.handleInterfaceSavedEvent confNames (sampleManager wg0) wg0)) = []
   /\ List.filter configfile.isFileSystemCall
        (fst (@configfile.handleInterfaceDeleteEvent confNames (sampleManager wg0) wg0)) = [])
  /\ List.filter configfile.isFileSystemCall
       (fst (@configfile.handleInterfaceSavedEvent confNames (sampleManager wg1) wg1))
     = [configfile.CallWriteFile "wg0.conf" "[Interface]"]
  /\ List.filter configfile.isFileSystemCall
       (fst (@configfile.handleInterfaceDeleteEvent confNames (sampleManager wg1) wg1))
     = [configfile.CallDeleteFile "wg0.conf"].
Proof.
  intros wg0 wg1. split; [| split; reflexivity].
  exact (@handlers_skip_unsaved confNames (sampleManager wg0) wg0 eq_refl).
Defined.

(** ** Validating an advanced-security block *)

Section Validator.
Import config.

Lemma andThen_assoc (c1 c2 c3 : Check) (w : World) :
  ((c1 >> c2) >> c3) w = (c1 >> (c2 >> c3)) w.
Proof.
  unfold andThen. destruct (c1 w) as [[e |] w1]; [reflexivity |].
  now destruct (c2 w1) as [[e |] w2].
Qed.

Lemma andThen_ok_r (c : Check) (w : World) : (c >> ok) w = c w.
Proof. unfold andThen, ok. now destruct (c w) as [[e |] w1]. Qed.

(** Taking the checks of a chain one by one. *)
Ltac step_checks :=
  repeat match goal with
         | |- context [validateJunkRange ?f ?s ?w] =>
           is_var w; destruct (validateJunkRange f s w) as [[? |] ?]; [reflexivity |]
         | |- context [validateAwgUint32IfSet ?f ?r ?w] =>
           is_var w; destruct (validateAwgUint32IfSet f r w) as [[? |] ?]; [reflexivity |]
         | |- context [validateAwgStringPtr ?f ?r ?w] =>
           is_var w; destruct (validateAwgStringPtr f r w) as [[? |] ?]; [reflexivity |]
         end.

Lemma validateAdvancedSecurity_split (field : string)
    (s : ProvisioningInterfaceAdvancedSecurity) (w : World) :
  validateAdvancedSecurity field s w
  = (validateJunkRange field s >> (validateHeaders field s >> validateJunkPackets field s)) w.
Proof.
  unfold validateAdvancedSecurity, validateHeaders, validateJunkPackets, andThen.
  step_checks. reflexivity.
Qed.

Lemma validateJunkPackets_chain (field : string)
    (s : ProvisioningInterfaceAdvancedSecurity) (w : World) :
  validateJunkPackets field s w
  = checkPackets
      [ (field +:+ ".first_special_junk_packet (i1)", FirstSpecialJunkPacket s);
        (field +:+ ".second_special_junk_packet (i2)", SecondSpecialJunkPacket s);
        (field +:+ ".third_special_junk_packet (i3)", ThirdSpecialJunkPacket s);
        (field +:+ ".fourth_special_junk_packet (i4)", FourthSpecialJunkPacket s);
        (field +:+ ".fifth_special_junk_packet (i5)", FifthSpecialJunkPacket s) ] w.
Proof.
  unfold validateJunkPackets, checkPackets, andThen, ok.
  step_checks. reflexivity.
Qed.

(** *** The three kinds of check *)

Lemma validateJunkRange_cases (field : string)
    (s : ProvisioningInterfaceAdvancedSecurity) (w : World) :
  ((0 < JunkPacketCount s)%N
   /\ (JunkPacketMinSize s = 0 \/ JunkPacketMaxSize s = 0)%N
   /\ validateJunkRange field s w = (Some (ErrJunkRangeUnset field), w))
  \/ ((0 < JunkPacketCount s)%N
      /\ JunkPacketMinSize s <> 0%N /\ JunkPacketMaxSize s <> 0%N
      /\ (JunkPacketMaxSize s < JunkPacketMinSize s)%N
      /\ validateJunkRange field s w = (Some (ErrJunkRangeOrder field), w))
  \/ ((0 < JunkPacketCount s)%N
      /\ ~ junkRangeIncoherent s
      /\ validateJunkRange field s w = (None, w))
  \/ (JunkPacketCount s = 0%N
      /\ (JunkPacketMinSize s <> 0 \/ JunkPacketMaxSize s <> 0)%N
      /\ validateJunkRange field s w = (None, warn (WarnJunkRangeWithoutCount field) w))
  \/ (JunkPacketCount s = 0%N
      /\ JunkPacketMinSize s = 0%N /\ JunkPacketMaxSize s = 0%N
      /\ validateJunkRange field s w = (None, w)).
Proof.
  unfold validateJunkRange, junkRangeIncoherent, fail, ok.
  destruct (N.ltb_spec 0 (JunkPacketCount s)) as [Hc | Hc].
  - destruct (N.eqb_spec (JunkPacketMinSize s) 0) as [Hmin | Hmin]; cbn [orb].
    { left. auto. }
    destruct (N.eqb_spec (JunkPacketMaxSize s) 0) as [Hmax | Hmax].
    { left. auto. }
    destruct (N.ltb_spec (JunkPacketMaxSize s) (JunkPacketMinSize s)) as [Hlt | Hge].
    + right. left. auto.
    + right. right. left. repeat split; auto. lia.
  - assert (Hc0 : JunkPacketCount s = 0%N) by lia.
    destruct (N.eqb_spec (JunkPacketMinSize s) 0) as [Hmin | Hmin];
      destruct (N.eqb_spec (JunkPacketMaxSize s) 0) as [Hmax | Hmax]; cbn [negb orb].
    + right. right. right. right. auto.
    + right. right. right. left. auto.
    + right. right. right. left. auto.
    + right. right. right. left. auto.
Qed.

Lemma validateAwgUint32IfSet_pure (field raw : string) :
  exists r, (forall w, validateAwgUint32IfSet field raw w = (r, w))
            /\ (forall e, r = Some e -> ~ junkRangeError e).
Proof.
  unfold validateAwgUint32IfSet, ok, fail.
  destruct (String.eqb (TrimSpace raw) "").
  - exists None. split; [reflexivity | discriminate].
  - destruct (ParseUint (TrimSpace raw) 0 32) as [err | n].
    + eexists. split; [reflexivity |]. intros e [= <-]. exact id.
    + exists None. split; [reflexivity | discriminate].
Qed.

Lemma validateHeaders_pure (field : string) (s : ProvisioningInterfaceAdvancedSecurity) :
  exists r, (forall w, validateHeaders field s w = (r, w))
            /\ (forall e, r = Some e -> ~ junkRangeError e).
Proof.
  unfold validateHeaders, andThen.
  destruct (validateAwgUint32IfSet_pure
              (field +:+ ".init_packet_magic_header (h1)") (InitPacketMagicHeader s))
    as (r1 & H1 & N1).
  destruct (validateAwgUint32IfSet_pure
              (field +:+ ".response_packet_magic_header (h2)")
              (ResponsePacketMagicHeader s)) as (r2 & H2 & N2).
  destruct (validateAwgUint32IfSet_pure
              (field +:+ ".underload_packet_magic_header (h3)")
              (UnderloadPacketMagicHeader s)) as (r3 & H3 & N3).
  destruct (validateAwgUint32IfSet_pure
              (field +:+ ".transport_packet_magic_header (h4)")
              (TransportPacketMagicHeader s)) as (r4 & H4 & N4).
  destruct r1 as [e1 |].
  { exists (Some e1). split; [intros w; now rewrite H1 | exact N1]. }
  destruct r2 as [e2 |].
  { exists (Some e2). split; [intros w; now rewrite H1, H2 | exact N2]. }
  destruct r3 as [e3 |].
  { exists (Some e3). split; [intros w; now rewrite H1, H2, H3 | exact N3]. }
  exists r4. split; [intros w; now rewrite H1, H2, H3, H4 | exact N4].
Qed.

Lemma validateAwgStringPtr_cases (field : string) (raw : option loc) (w : World) :
  (raw = None /\ validateAwgStringPtr field raw w = (None, w))
  \/ (exists p, raw = Some p
        /\ (validateAwgStringPtr field raw w = (Some (ErrAwgStringEmpty field), w)
            \/ validateAwgStringPtr field raw w = (Some (ErrAwgStringTooLong field), w)
            \/ validateAwgStringPtr field raw w
               = (None, assign p (TrimSpace (deref w p)) w))).
Proof.
  destruct raw as [p |]; [right; exists p; split; [reflexivity |] | left; auto].
  unfold validateAwgStringPtr.
  destruct (String.eqb (TrimSpace (deref w p)) ""); [auto |].
  destruct (maxAwgStringLen <=? String.length (TrimSpace (deref w p)))%nat; auto.
Qed.

Lemma deref_assign (p q : loc) (v : string) (w : World) :
  deref (assign p v w) q = if decide (p = q) then v else deref w q.
Proof.
  unfold deref, assign. cbn [heap].
  destruct (decide (p = q)) as [-> | Hne].
  - now rewrite lookup_total_insert_eq.
  - now rewrite lookup_total_insert_ne.
Qed.

Lemma assign_same (p : loc) (w : World) (v : string) :
  heap w !! p = Some v -> assign p v w = w.
Proof.
  intros H. destruct w as [h l]. unfold assign. cbn [heap warnings] in *.
  now rewrite insert_id.
Qed.




(** What the checks write: a string behind one of the pointers, replaced
    by its trimmed value. *)
Lemma checkPackets_writes (l : list (string * option loc)) (w : World) (q : loc) :
  heap (snd (checkPackets l w)) !! q = heap w !! q
  \/ (In (Some q) (map snd l)
      /\ heap (snd (checkPackets l w)) !! q = Some (TrimSpace (deref w q))).
Proof.
  revert w. induction l as [| [field raw] rest IH]; intros w; [left; reflexivity |].
  cbn [checkPackets map snd In]. unfold andThen.
  destruct (validateAwgStringPtr_cases field raw w)
    as [[_ ->] | (p & -> & [-> | [-> | ->]])]; cbn [fst snd]; auto.
  - destruct (IH w) as [H | [Hin H]]; auto.
  - destruct (IH (assign p (TrimSpace (deref w p)) w)) as [H | [Hin H]].
    + rewrite H. unfold assign. cbn [heap].
      destruct (decide (p = q)) as [-> | Hne].
      * right. split; [auto |]. now rewrite lookup_insert_eq.
      * left. now rewrite lookup_insert_ne.
    + right. split; [auto |]. rewrite H, deref_assign.
      destruct (decide (p = q)) as [-> | Hne]; [| reflexivity].
      now rewrite TrimSpace_idem.
Qed.

(** When all checks pass, every string behind a pointer is trimmed. *)
Lemma checkPackets_trims (l : list (string * option loc)) (w : World) (q : loc) :
  fst (checkPackets l w) = None ->
  In (Some q) (map snd l) ->
  heap (snd (checkPackets l w)) !! q = Some (TrimSpace (deref w q)).
Proof.
  revert w. induction l as [| [field raw] rest IH]; intros w Hok Hin; [destruct Hin |].
  cbn [checkPackets map snd In] in *. unfold andThen in *.
  destruct (validateAwgStringPtr_cases field raw w)
    as [[Hraw E] | (p & Hraw & [E | [E | E]])]; rewrite E in *; cbn [fst snd] in *;
    try discriminate.
  - destruct Hin as [Hq | Hin]; [congruence | now apply IH].
  - set (w1 := assign p (TrimSpace (deref w p)) w) in *.
    assert (Hw1 : TrimSpace (deref w1 q) = TrimSpace (deref w q)).
    { unfold w1. rewrite deref_assign.
      destruct (decide (p = q)) as [-> | _]; [apply TrimSpace_idem | reflexivity]. }
    destruct Hin as [Hq | Hin].
    + assert (p = q) as -> by congruence.
      destruct (checkPackets_writes rest w1 q) as [H | [_ H]].
      * rewrite H. unfold w1, assign. cbn [heap]. now rewrite lookup_insert_eq.
      * now rewrite H, Hw1.
    + rewrite (IH w1 Hok Hin). now rewrite Hw1.
Qed.

(** Strings that are trimmed already are written back as they are. *)
Lemma checkPackets_trimmed (l : list (string * option loc)) (w : World) :
  (forall q, In (Some q) (map snd l) -> heap w !! q = Some (TrimSpace (deref w q))) ->
  snd (checkPackets l w) = w.
Proof.
  induction l as [| [field raw] rest IH]; intros Hall; [reflexivity |].
  cbn [checkPackets map snd In] in *. unfold andThen.
  destruct (validateAwgStringPtr_cases field raw w)
    as [[_ ->] | (p & -> & [-> | [-> | ->]])]; cbn [fst snd]; auto.
  rewrite (assign_same p w) by auto. auto.
Qed.

Lemma In_omap_id (q : loc) (l : list (option loc)) :
  In q (omap id l) <-> In (Some q) l.
Proof.
  induction l as [| [p |] l IH]; cbn; [tauto | | ].
  - rewrite IH. split; [intros [-> | H]; auto | intros [[= ->] | H]; auto].
  - rewrite IH. split; [auto | intros [[=] | H]; auto].
Qed.

Lemma In_junkPointers (field : string) (s : ProvisioningInterfaceAdvancedSecurity) (q : loc) :
  In (Some q)
     (map snd
        [ (field +:+ ".first_special_junk_packet (i1)", FirstSpecialJunkPacket s);
          (field +:+ ".second_special_junk_packet (i2)", SecondSpecialJunkPacket s);
          (field +:+ ".third_special_junk_packet (i3)", ThirdSpecialJunkPacket s);
          (field +:+ ".fourth_special_junk_packet (i4)", FourthSpecialJunkPacket s);
          (field +:+ ".fifth_special_junk_packet (i5)", FifthSpecialJunkPacket s) ])
  <-> In q (junkPointers s).
Proof. unfold junkPointers. now rewrite In_omap_id. Qed.

(** The headers and the packets together, from the store they start in. *)
Lemma headers_and_packets (field : string) (s : ProvisioningInterfaceAdvancedSecurity) :
  (exists e, (forall w, (validateHeaders field s >> validateJunkPackets field s) w
                        = (Some e, w))
             /\ ~ junkRangeError e)
  \/ (forall w, (validateHeaders field s >> validateJunkPackets field s) w
                = validateJunkPackets field s w).
Proof.
  destruct (validateHeaders_pure field s) as ([e |] & Hr & Hne).
  - left. exists e. split; [| now apply Hne]. intros w. unfold andThen. now rewrite Hr.
  - right. intros w. unfold andThen. now rewrite Hr.
Qed.







Lemma validateAdvancedSecurity_shape (field : string)
    (s : ProvisioningInterfaceAdvancedSecurity) (w : World) :
  exists w0,
    heap w0 = heap w
    /\ ((exists e, validateAdvancedSecurity field s w = (Some e, w0))
        \/ validateAdvancedSecurity field s w
           = checkPackets
               [ (field +:+ ".first_special_junk_packet (i1)", FirstSpecialJunkPacket s);
                 (field +:+ ".second_special_junk_packet (i2)", SecondSpecialJunkPacket s);
                 (field +:+ ".third_special_junk_packet (i3)", ThirdSpecialJunkPacket s);
                 (field +:+ ".fourth_special_junk_packet (i4)", FourthSpecialJunkPacket s);
                 (field +:+ ".fifth_special_junk_packet (i5)", FifthSpecialJunkPacket s) ]
               w0).
Proof.
  rewrite validateAdvancedSecurity_split.
  assert (Hsplit : (validateJunkRange field s
                    >> (validateHeaders field s >> validateJunkPackets field s)) w
                   = match validateJunkRange field s w with
                     | (Some e, w') => (Some e, w')
                     | (None, w') =>
                       (validateHeaders field s >> validateJunkPackets field s) w'
                     end) by reflexivity.
  rewrite Hsplit. clear Hsplit.
  assert (Hrest : forall w0, heap w0 = heap w ->
            exists w1, heap w1 = heap w
              /\ ((exists e, (validateHeaders field s >> validateJunkPackets field s) w0
                             = (Some e, w1))
                  \/ (validateHeaders field s >> validateJunkPackets field s) w0
                     = checkPackets
                         [ (field +:+ ".first_special_junk_packet (i1)",
                            FirstSpecialJunkPacket s);
                           (field +:+ ".second_special_junk_packet (i2)",
                            SecondSpecialJunkPacket s);
                           (field +:+ ".third_special_junk_packet (i3)",
                            ThirdSpecialJunkPacket s);
                           (field +:+ ".fourth_special_junk_packet (i4)",
                            FourthSpecialJunkPacket s);
                           (field +:+ ".fifth_special_junk_packet (i5)",
                            FifthSpecialJunkPacket s) ] w1)).
  { intros w0 Hw0. exists w0. split; [exact Hw0 |].
    destruct (headers_and_packets field s) as [(e & -> & _) | ->]; [eauto |].
    right. apply validateJunkPackets_chain. }
  destruct (validateJunkRange_cases field s w)
    as [(_ & _ & ->) | [(_ & _ & _ & _ & ->) | [(_ & _ & ->)
       | [(_ & _ & ->) | (_ & _ & _ & ->)]]]].
  - exists w. eauto.
  - exists w. eauto.
  - now apply Hrest.
  - now apply Hrest.
  - now apply Hrest.
Qed.

Lemma deref_heap (w0 w : World) (q : loc) : heap w0 = heap w -> deref w0 q = deref w q.
Proof. unfold deref. now intros ->. Qed.




End Validator.
(** ** The provisioning spec *)

Section Provisioning.
Import config.
Context `{U : Unicode} `{P : Netip}.

Lemma Raises_andThen (Q : Error -> Prop) (c1 c2 : Check) :
  Raises Q c1 -> Raises Q c2 -> Raises Q (c1 >> c2).
Proof.
  intros H1 H2 w e. unfold andThen.
  destruct (c1 w) as [[e1|] w1] eqn:E1.
  - cbn. intros [= <-]. apply (H1 w). now rewrite E1.
  - apply H2.
Qed.

Lemma validateJunkRange_raises (field : string) (s : ProvisioningInterfaceAdvancedSecurity) :
  Raises (fun e => ~ identifierError e) (validateJunkRange field s).
Proof.
  intros w e. unfold validateJunkRange, fail, ok.
  repeat match goal with |- context [if ?b then _ else _] => destruct b end;
    cbn; intros [= <-]; cbn; tauto.
Qed.

Lemma validateAwgUint32IfSet_raises (field raw : string) :
  Raises (fun e => ~ identifierError e) (validateAwgUint32IfSet field raw).
Proof.
  intros w e. unfold validateAwgUint32IfSet, fail, ok.
  destruct (String.eqb _ _); [discriminate|].
  destruct (ParseUint _ _ _); cbn; intros [= <-]; cbn; tauto.
Qed.

Lemma validateAwgStringPtr_raises (field : string) (raw : option loc) :
  Raises (fun e => ~ identifierError e) (validateAwgStringPtr field raw).
Proof.
  intros w e. unfold validateAwgStringPtr, ok. destruct raw as [p|]; [|discriminate].
  repeat match goal with |- context [if ?b then _ else _] => destruct b end;
    cbn; intros [= <-]; cbn; tauto.
Qed.

Lemma validateAdvancedSecurity_raises (field : string)
    (s : ProvisioningInterfaceAdvancedSecurity) :
  Raises (fun e => ~ identifierError e) (validateAdvancedSecurity field s).
Proof.
  unfold validateAdvancedSecurity.
  repeat apply Raises_andThen;
    auto using validateJunkRange_raises, validateAwgUint32IfSet_raises,
      validateAwgStringPtr_raises.
Qed.

Lemma validateCidrArray_from_raises (field : string) (cidrs : list string) :
  forall i e, validateCidrArray_from field i cidrs = Some e -> ~ identifierError e.
Proof.
  induction cidrs as [|raw rest IH]; intros i e; cbn; [discriminate|].
  destruct (String.eqb _ _); [intros [= <-]; cbn; tauto|].
  destruct (negb _); [intros [= <-]; cbn; tauto|]. apply IH.
Qed.

Lemma guarded_cidrs_raise (b : bool) (field : string) (cidrs : list string) (e : Error) :
  (if b then validateCidrArray field cidrs else None) = Some e -> ~ identifierError e.
Proof.
  destruct b; [apply validateCidrArray_from_raises | discriminate].
Qed.

Lemma modeAllowed_iff (iface : ProvisioningInterface) :
  modeAllowed iface <-> modeOf iface = "" \/ isInterfaceMode (modeOf iface) = true.
Proof.
  unfold modeAllowed, isInterfaceMode. cbn [In].
  rewrite !orb_true_iff, !String.eqb_eq. intuition congruence.
Qed.

(** The four ways one pass of the loop can go. *)
Lemma sanitizeInterface_cases (wgMode : string) (idx : nat) (seen : gset string)
    (iface : ProvisioningInterface) (w : World) :
  let p := sanitizeInterface wgMode idx seen iface w in
  (idOf iface = "" /\ pass_err p = Some (ErrIdentifierEmpty idx))
  \/ (idOf iface <> "" /\ (idOf iface ∈ seen)
      /\ pass_err p = Some (ErrIdentifierNotUnique (idOf iface)))
  \/ (idOf iface <> "" /\ (idOf iface ∉ seen) /\ ~ modeAllowed iface
      /\ pass_err p = Some (ErrMode (idOf iface)))
  \/ (idOf iface <> "" /\ (idOf iface ∉ seen) /\ modeAllowed iface
      /\ pass_seen p = {[idOf iface]} ∪ seen
      /\ forall e, pass_err p = Some e -> ~ identifierError e).
Proof.
  cbv zeta. rewrite modeAllowed_iff. unfold sanitizeInterface, idOf, modeOf.
  set (id := TrimSpace (Identifier iface)).
  destruct (String.eqb_spec id "") as [Hid|Hid]; [left; now split|].
  right. case_bool_decide as Hseen; [left; now repeat split|].
  right. cbn [Mode set_Identifier].
  set (mode := ToLower (TrimSpace (Mode iface))).
  destruct (String.eqb_spec mode "") as [Hm|Hm];
    destruct (isInterfaceMode mode) eqn:Hi; cbn [negb andb].
  4: { left. repeat split; auto. intros [?|?]; congruence. }
  all: right; split; [exact Hid|]; split; [exact Hseen|]; split; [tauto|].
  all: repeat match goal with
       | |- context [if ?b then _ else _] => destruct b eqn:?
       | |- context [match ?o with _ => _ end] => destruct o eqn:?
       end.
  all: cbn [pass_seen pass_err stop]; split; [reflexivity|].
  all: intros e' [= <-]; cbn; eauto using guarded_cidrs_raise.
  all: repeat match goal with
       | H : match ?x with _ => _ end = _ |- _ => destruct x eqn:?; try discriminate
       end.
  all: try match goal with
       | H : validateCidrArray _ _ = Some _ |- _ =>
         exact (validateCidrArray_from_raises _ _ _ _ H)
       | H : validateAdvancedSecurity ?f ?s ?w = (Some ?e, _) |- _ =>
         apply (validateAdvancedSecurity_raises f s w e); now rewrite H
       end.
Qed.

Lemma sanitizeInterface_advanced_security (wgMode : string) (idx : nat)
    (seen : gset string) (iface : ProvisioningInterface) (w : World) :
  AdvancedSecurity iface <> None ->
  wgMode <> WireGuardModeAmneziaWG ->
  pass_err (sanitizeInterface wgMode idx seen iface w) <> None.
Proof.
  intros Hadv Hwg.
  destruct (AdvancedSecurity iface) as [adv|] eqn:E; [clear Hadv|congruence].
  apply String.eqb_neq in Hwg.
  unfold sanitizeInterface. cbv zeta.
  destruct (String.eqb _ ""); [discriminate|].
  case_bool_decide; [discriminate|].
  destruct (negb _ && negb _); [discriminate|].
  match goal with
  | |- context [AdvancedSecurity ?i] =>
    assert (Hi : AdvancedSecurity i = Some adv) by (destruct (negb _); exact E);
    set (iface' := i) in *; clearbody iface'
  end.
  rewrite Hi, Hwg. cbn [negb].
  repeat match goal with
         | |- context [if ?b then _ else _] => destruct b; try discriminate
         | |- context [match ?o with _ => _ end] => destruct o; try discriminate
         end.
Qed.

Lemma sanitizeLoop_cons (wgMode : string) (idx : nat) (seen : gset string)
    (x : ProvisioningInterface) (rest : list ProvisioningInterface) (w : World) :
  fst (fst (sanitizeLoop wgMode idx seen (x :: rest) w)) =
  match pass_err (sanitizeInterface wgMode idx seen x w) with
  | Some e => Some e
  | None =>
    fst (fst (sanitizeLoop wgMode (S idx)
                (pass_seen (sanitizeInterface wgMode idx seen x w)) rest
                (pass_world (sanitizeInterface wgMode idx seen x w))))
  end.
Proof.
  cbn [sanitizeLoop]. cbv zeta.
  destruct (pass_err _); [reflexivity|].
  now destruct (sanitizeLoop _ _ _ _ _) as [[? ?] ?].
Qed.

Lemma sanitizeProvisioningInterfaces_loop (c : Config) (w : World) :
  fst (fst (sanitizeProvisioningInterfaces c w)) =
  fst (fst (sanitizeLoop (WireGuardMode c) 0 ∅ (Interfaces c) w)).
Proof.
  unfold sanitizeProvisioningInterfaces.
  destruct (Interfaces c) as [|x rest] eqn:E; [reflexivity|].
  cbn [length Nat.eqb].
  now destruct (sanitizeLoop _ _ _ _ _) as [[? ?] ?].
Qed.

Lemma sanitizeLoop_advanced_security (wgMode : string) :
  wgMode <> WireGuardModeAmneziaWG ->
  forall ifaces idx seen w,
    (exists iface, In iface ifaces /\ AdvancedSecurity iface <> None) ->
    fst (fst (sanitizeLoop wgMode idx seen ifaces w)) <> None.
Proof.
  intros Hwg ifaces.
  induction ifaces as [|x rest IH]; intros idx seen w (iface & Hin & Hadv);
    [destruct Hin|].
  rewrite sanitizeLoop_cons.
  destruct (pass_err _) eqn:E; [discriminate|].
  destruct Hin as [->|Hin].
  - exfalso. exact (sanitizeInterface_advanced_security _ _ _ _ _ Hadv Hwg E).
  - apply IH; eauto.
Qed.

Lemma reports_violation (e : Error) (pre : list ProvisioningInterface)
    (iface : ProvisioningInterface) :
  reports e pre iface -> Violation pre iface /\ identifierError e.
Proof.
  intros [[-> ?]|[(-> & ? & ?)|(-> & ? & ? & ?)]]; split; cbn; auto;
    [apply EmptyIdentifier|apply DuplicateIdentifier|apply InvalidMode]; auto.
Qed.

(** One pass of the loop either reports the violation of the interface, or
    the interface is not in violation and any error is of another kind. *)
Lemma sanitizeInterface_verdict (wgMode : string) (seen : gset string)
    (pre : list ProvisioningInterface) (iface : ProvisioningInterface) (w : World) :
  (forall x, x ∈ seen <-> In x (map idOf pre)) ->
  let p := sanitizeInterface wgMode (length pre) seen iface w in
  (exists e, pass_err p = Some e /\ reports e pre iface)
  \/ (~ Violation pre iface
      /\ (forall x, x ∈ pass_seen p <-> In x (map idOf (pre ++ [iface])))
      /\ forall e, pass_err p = Some e -> ~ identifierError e).
Proof.
  intros Hseen. cbv zeta.
  destruct (sanitizeInterface_cases wgMode (length pre) seen iface w)
    as [[Hid He]|[(Hid & Hin & He)|[(Hid & Hin & Hm & He)|(Hid & Hin & Hm & Hs & He)]]].
  - left. eexists; split; [exact He|]. left; auto.
  - left. eexists; split; [exact He|]. right; left. rewrite <- Hseen. auto.
  - left. eexists; split; [exact He|]. right; right. rewrite <- Hseen. auto.
  - right. split; [|split; [|exact He]].
    + intros [?|Hd|?]; auto. apply Hin, Hseen, Hd.
    + intros x. rewrite Hs, map_app, in_app_iff, elem_of_union, elem_of_singleton, Hseen.
      cbn. intuition congruence.
Qed.

Lemma sanitizeLoop_violations (wgMode : string) :
  forall ifaces pre seen w,
    (forall x, x ∈ seen <-> In x (map idOf pre)) ->
    let err := fst (fst (sanitizeLoop wgMode (length pre) seen ifaces w)) in
    (forall l1 iface l2, ifaces = l1 ++ iface :: l2 ->
       Violation (pre ++ l1) iface -> err <> None)
    /\ (forall e, err = Some e -> identifierError e ->
        exists l1 iface l2, ifaces = l1 ++ iface :: l2
          /\ (forall a x b, l1 = a ++ x :: b -> ~ Violation (pre ++ a) x)
          /\ reports e (pre ++ l1) iface)
    /\ (forall l1 iface l2, ifaces = l1 ++ iface :: l2 ->
        Violation (pre ++ l1) iface ->
        fst (fst (sanitizeLoop wgMode (length pre) seen l1 w)) = None ->
        exists e, err = Some e /\ reports e (pre ++ l1) iface).
Proof.
  intros ifaces. induction ifaces as [|x rest IH]; intros pre seen w Hseen; cbv zeta.
  { repeat split.
    - intros [|? ?] ? ? ?; discriminate.
    - discriminate.
    - intros [|? ?] ? ? ?; discriminate. }
  rewrite sanitizeLoop_cons.
  destruct (sanitizeInterface_verdict wgMode seen pre x w Hseen)
    as [(e & He & Hrep)|(Hok & Hseen' & Hother)].
  - rewrite He. repeat split.
    + discriminate.
    + intros e' [= <-] _. exists [], x, rest. rewrite app_nil_r.
      repeat split; auto. intros [|? ?] ? ? ?; discriminate.
    + intros [|y l1] iface l2 E V Hpre; injection E as <- ->.
      * exists e. now rewrite app_nil_r.
      * rewrite sanitizeLoop_cons, He in Hpre. discriminate.
  - destruct (pass_err _) as [e|] eqn:Ep.
    + repeat split.
      * discriminate.
      * intros e' [= <-] Hid. now apply Hother in Hid.
      * intros [|y l1] iface l2 E V Hpre; injection E as <- ->.
        -- rewrite app_nil_r in V. contradiction.
        -- rewrite sanitizeLoop_cons, Ep in Hpre. discriminate.
    + pose proof (IH (pre ++ [x]) _ (pass_world (sanitizeInterface wgMode (length pre) seen x w))
                    Hseen') as IH'.
      cbv zeta in IH'. rewrite last_length in IH'.
      destruct IH' as (IH1 & IH2 & IH3). repeat split.
      * intros [|y l1] iface l2 E V; injection E as <- ->.
        -- rewrite app_nil_r in V. contradiction.
        -- apply (IH1 l1 iface l2 eq_refl). now rewrite <- app_assoc.
      * intros e He Hid.
        destruct (IH2 e He Hid) as (l1 & iface & l2 & -> & Hfree & Hrep).
        exists (x :: l1), iface, l2. repeat split.
        -- intros [|y a] z b Ea; injection Ea as <- ->.
           ++ now rewrite app_nil_r.
           ++ specialize (Hfree a z b eq_refl). now rewrite <- app_assoc in Hfree.
        -- now rewrite <- app_assoc in Hrep.
      * intros [|y l1] iface l2 E V Hpre; injection E as <- ->.
        -- rewrite app_nil_r in V. contradiction.
        -- rewrite sanitizeLoop_cons, Ep in Hpre.
           destruct (IH3 l1 iface l2 eq_refl) as (e & He & Hrep); auto.
           ++ now rewrite <- app_assoc.
           ++ exists e. split; [exact He|]. now rewrite <- app_assoc in Hrep.
Qed.

(** An error of the interfaces at the front is the error of the whole
    list: the loop returns at the first error. *)
Lemma sanitizeLoop_prefix_error (wgMode : string) :
  forall l1 l2 idx seen w e,
    fst (fst (sanitizeLoop wgMode idx seen l1 w)) = Some e ->
    fst (fst (sanitizeLoop wgMode idx seen (l1 ++ l2) w)) = Some e.
Proof.
  induction l1 as [| x l1 IH]; intros l2 idx seen w e He; [discriminate He |].
  rewrite <- app_comm_cons. rewrite sanitizeLoop_cons in *.
  destruct (pass_err _); [exact He | now apply IH].
Qed.

(** C7. Sanitizing the provisioning spec returns an error whenever some
    interface has an empty identifier (after trimming), an identifier an
    earlier interface has, or a mode that is not "server", "client", "any"
    or "" (after trimming and lowercasing).  The error is the one for the
    first violation only when the interfaces before it pass the other
    checks of the loop (listen port, MTU, CIDRs, advanced security):
    otherwise it is the error of one of these checks on an earlier
    interface, which is the error the interfaces before the violation
    raise alone.  The error for a violation carries the identifier, or the
    index when the identifier is empty.  An error about an identifier or a
    mode is always the one for the first violation, and a spec free of
    violations raises none. *)
Theorem sanitizeProvisioningInterfaces_identifiers (c : Config) (w : World) :
  let err := fst (fst (sanitizeProvisioningInterfaces c w)) in
  (forall pre iface post, Interfaces c = pre ++ iface :: post ->
     Violation pre iface -> err <> None)
  /\ (forall pre iface post, Interfaces c = pre ++ iface :: post ->
      Violation pre iface ->
      fst (fst (sanitizeProvisioningInterfaces
                  {| WireGuardMode := WireGuardMode c; Interfaces := pre |} w)) = None ->
      exists e, err = Some e /\ reports e pre iface)
  /\ (forall e, err = Some e -> identifierError e ->
      exists pre iface post, Interfaces c = pre ++ iface :: post
        /\ violationFree pre /\ reports e pre iface)
  /\ (violationFree (Interfaces c) -> forall e, err = Some e -> ~ identifierError e)
  /\ (forall pre iface post, Interfaces c = pre ++ iface :: post ->
      violationFree pre -> Violation pre iface ->
      exists e, err = Some e
        /\ (reports e pre iface
            \/ (~ identifierError e
                /\ fst (fst (sanitizeProvisioningInterfaces
                               {| WireGuardMode := WireGuardMode c; Interfaces := pre |} w))
                   = Some e))).
Proof.
  cbv zeta. rewrite sanitizeProvisioningInterfaces_loop.
  destruct (sanitizeLoop_violations (WireGuardMode c) (Interfaces c) [] ∅ w)
    as (H1 & H2 & H3).
  { intros x. cbn. set_solver. }
  cbn [length app] in H1, H2, H3.
  assert (Hfirst : forall e,
    fst (fst (sanitizeLoop (WireGuardMode c) 0 ∅ (Interfaces c) w)) = Some e ->
    identifierError e ->
    exists pre iface post, Interfaces c = pre ++ iface :: post
      /\ violationFree pre /\ reports e pre iface).
  { intros e He Hid.
    destruct (H2 e He Hid) as (pre & iface & post & E & Hfree & Hrep).
    exists pre, iface, post. split; [exact E|]. split; [|exact Hrep].
    intros a x b Ea. now apply (Hfree a x b). }
  split; [exact H1 |]. split; [| split; [exact Hfirst |]; split].
  - intros pre iface post E V Hpre.
    rewrite sanitizeProvisioningInterfaces_loop in Hpre. cbn in Hpre.
    now apply (H3 pre iface post).
  - intros Hfree e He Hid.
    destruct (Hfirst e He Hid) as (pre & iface & post & E & _ & Hrep).
    apply reports_violation in Hrep. now apply (Hfree pre iface post E).
  - intros pre iface post E Hfree V.
    rewrite sanitizeProvisioningInterfaces_loop. cbn [WireGuardMode Interfaces].
    destruct (fst (fst (sanitizeLoop (WireGuardMode c) 0 ∅ pre w))) as [e |] eqn:Epre.
    + exists e. split.
      * rewrite E. now apply sanitizeLoop_prefix_error.
      * right. split; [| reflexivity]. intros Hid.
        destruct (sanitizeLoop_violations (WireGuardMode c) pre [] ∅ w)
          as (_ & P2 & _).
        { intros x. cbn. set_solver. }
        cbn [length app] in P2.
        destruct (P2 e Epre Hid) as (a & x & b & Ea & _ & Hrep).
        apply reports_violation in Hrep. now apply (Hfree a x b Ea).
    + destruct (H3 pre iface post E V Epre) as (e & He & Hrep).
      exists e. split; [exact He | now left].
Qed.

(** C9. Sanitizing rejects every configuration in which an interface of the
    provisioning spec has an advanced-security block while the WireGuard
    mode is not "amneziawg"; for [Sanitize] the mode is the one it stores,
    trimmed and lowercased. *)
Theorem advanced_security_requires_amneziawg (c : Config) (w : World)
    (iface : ProvisioningInterface) :
  In iface (Interfaces c) ->
  AdvancedSecurity iface <> None ->
  (WireGuardMode c <> "amneziawg" ->
   fst (fst (sanitizeProvisioningInterfaces c w)) <> None)
  /\ (TrimSpace (ToLower (WireGuardMode c)) <> "amneziawg" ->
      fst (fst (Sanitize c w)) <> None).
Proof.
  intros Hin Hadv. split.
  - intros Hwg. rewrite sanitizeProvisioningInterfaces_loop.
    apply sanitizeLoop_advanced_security; eauto.
  - intros Hwg. unfold Sanitize. cbv zeta.
    destruct (_ || _); [|discriminate].
    rewrite sanitizeProvisioningInterfaces_loop. cbn [WireGuardMode Interfaces].
    apply sanitizeLoop_advanced_security; eauto.
    destruct (String.eqb_spec (TrimSpace (ToLower (WireGuardMode c))) "");
      [discriminate | exact Hwg].
Qed.

End Provisioning.

Lemma sanitizeProvisioningInterfaces_identifiers_witness :
  let first := sampleInterface "wg0" "Server" None in
  let second := sampleInterface " wg0 " "client" None in
  let c := {| config.WireGuardMode := "wireguard"; config.Interfaces := [first; second] |} in
  let w := sampleWorld 1%positive "" in
  @Violation asciiLetters [first] second
  /\ fst (fst (config.sanitizeProvisioningInterfaces
                 (H := asciiLetters) (H0 := looseNetip) c w))
     = Some (config.ErrIdentifierNotUnique "wg0").
Proof.
  cbv zeta.
  assert (V : @Violation asciiLetters
                [sampleInterface "wg0" "Server" None]
                (sampleInterface " wg0 " "client" None)).
  { apply DuplicateIdentifier. left. reflexivity. }
  split; [exact V|].
  destruct (proj1 (proj2 (@sanitizeProvisioningInterfaces_identifiers
                            asciiLetters looseNetip
                            {| config.WireGuardMode := "wireguard";
                               config.Interfaces :=
                                 [sampleInterface "wg0" "Server" None;
                                  sampleInterface " wg0 " "client" None] |}
                            (sampleWorld 1%positive "")))
              [sampleInterface "wg0" "Server" None]
              (sampleInterface " wg0 " "client" None) [] eq_refl V)
    as (e & -> & [[_ Hempty]|[(-> & _)|(_ & _ & Hnew & _)]]).
  - vm_compute. reflexivity.
  - vm_compute in Hempty. discriminate.
  - reflexivity.
  - exfalso. apply Hnew. left. reflexivity.
Defined.

(** C7 as it is stated fails: the first interface with an empty identifier
    stands second, after an interface that has no violation, and the error
    returned is the one for the listen port of the interface before it. *)
Lemma first_violation_not_reported :
  let first := sampleListener "wg0" 70000 in
  let second := sampleInterface "  " "" None in
  let third := sampleInterface "wg0" "" None in
  let c := {| config.WireGuardMode := "wireguard";
              config.Interfaces := [first; second; third] |} in
  let w := sampleWorld 1%positive "" in
  @violationFree asciiLetters [first]
  /\ @Violation asciiLetters [first] second
  /\ fst (fst (config.sanitizeProvisioningInterfaces
                 (H := asciiLetters) (H0 := looseNetip) c w))
     = Some (config.ErrListenPort "wg0")
  /\ ~ @reports asciiLetters (config.ErrListenPort "wg0") [first] second
  /\ ~ identifierError (config.ErrListenPort "wg0").
Proof.
  cbv zeta. split; [| split; [| split; [| split]]].
  - intros [| x [| y pre]] iface post E; [| destruct post; discriminate E |
                                           destruct pre; discriminate E].
    injection E as <- <-. intros [Hempty | Hdup | Hmode].
    + vm_compute in Hempty. discriminate Hempty.
    + destruct Hdup.
    + apply Hmode. right; right; right; left. reflexivity.
  - apply EmptyIdentifier. reflexivity.
  - vm_compute. reflexivity.
  - intros [[E _] | [[E _] | [E _]]]; discriminate E.
  - intros [].
Qed.

Lemma advanced_security_requires_amneziawg_witness :
  let iface := sampleInterface "wg0" "" (Some (sampleBlock 1 50 100 "" None)) in
  let c := {| config.WireGuardMode := "wireguard"; config.Interfaces := [iface] |} in
  let w := sampleWorld 1%positive "" in
  fst (fst (config.sanitizeProvisioningInterfaces
              (H := asciiLetters) (H0 := looseNetip) c w)) <> None
  /\ fst (fst (config.Sanitize (H := asciiLetters) (H0 := looseNetip) c w)) <> None.
Proof.
  cbv zeta.
  destruct (@advanced_security_requires_amneziawg asciiLetters looseNetip
              {| config.WireGuardMode := "wireguard";
                 config.Interfaces :=
                   [sampleInterface "wg0" "" (Some (sampleBlock 1 50 100 "" None))] |}
              (sampleWorld 1%positive "")
              (sampleInterface "wg0" "" (Some (sampleBlock 1 50 100 "" None))))
    as [H1 H2].
  - left. reflexivity.
  - discriminate.
  - split; [apply H1 | apply H2]; vm_compute; discriminate.
Defined.

(** The mode is compared as [Sanitize] stores it: a block is accepted under
    a mode written in another case or with spaces around it, and the
    sanitized spec has its identifier trimmed and its mode lowercased. *)
Example Sanitize_normalizes :
  let iface := sampleInterface " wg0 " " Server " (Some (sampleBlock 1 50 100 "" None)) in
  let c := {| config.WireGuardMode := " AmneziaWG "; config.Interfaces := [iface] |} in
  let w := sampleWorld 1%positive "" in
  let result := config.Sanitize (H := asciiLetters) (H0 := looseNetip) c w in
  fst (fst result) = None
  /\ config.WireGuardMode (snd (fst result)) = "amneziawg"
  /\ map config.Identifier (config.Interfaces (snd (fst result))) = ["wg0"]
  /\ map config.Mode (config.Interfaces (snd (fst result))) = ["server"].
Proof.
  vm_compute. repeat split; reflexivity.
Qed.

(** ** Opening a link *)

Section LinkRoundTrip.
Import domain configfile.
Context `{F : Flate} `{J : JSONStrings} `{K : KeyDerivation}.

(** What [buildAmneziaAwgVpnLink] returns can be opened again: the text
    after ["vpn://"] decodes to four bytes that hold the length of the
    envelope's JSON (modulo 2^32) and a zlib stream that inflates to that
    JSON. *)
Theorem vpn_link_opens (sound : FlateSound F)
    (p : Peer) (adv : AdvancedSecurity) (description configText : string) :
  AdvancedSecurityParams (PeerInterface p) = Some adv ->
  let lastCfg := Marshal (lastConfigJSON (buildLastConfig p adv configText)) in
  let envelope := Marshal (envelopeJSON (buildEnvelope p adv description lastCfg)) in
  exists encoded b0 b1 b2 b3 stream,
    buildAmneziaAwgVpnLink (Some p) description configText = inr ("vpn://" +:+ encoded)
    /\ DecodeString encoded = Some (b0 :: b1 :: b2 :: b3 :: stream)
    /\ Uint32 b0 b1 b2 b3 = (N.of_nat (length envelope) mod 2 ^ 32)%N
    /\ zlibReadAll stream = Some envelope.
Proof.
  intros E lastCfg envelope.
  unfold buildAmneziaAwgVpnLink. rewrite E.
  fold lastCfg. fold envelope. rewrite qtQCompress_level8.
  unfold PutUint32. cbn [app].
  do 6 eexists. split; [reflexivity |].
  split; [apply DecodeString_EncodeToString |].
  split; [apply Uint32_PutUint32, uint32_lt |].
  now apply zlibReadAll_zlibStream.
Qed.

End LinkRoundTrip.

Lemma vpn_link_opens_witness :
  exists encoded b0 b1 b2 b3 stream,
    @configfile.buildAmneziaAwgVpnLink storedFlate plainQuotes noPublicKey
      (Some (samplePeer "vpn.example.org:51821" "9.9.9.9")) "office" "[Interface]"
      = inr ("vpn://" +:+ encoded)
    /\ DecodeString encoded = Some (b0 :: b1 :: b2 :: b3 :: stream)
    /\ @zlibReadAll storedFlate stream
       = Some (@Marshal plainQuotes
                 (configfile.envelopeJSON
                    (configfile.buildEnvelope
                       (samplePeer "vpn.example.org:51821" "9.9.9.9") sampleSecurity "office"
                       (@Marshal plainQuotes
                          (configfile.lastConfigJSON
                             (@configfile.buildLastConfig noPublicKey
                                (samplePeer "vpn.example.org:51821" "9.9.9.9")
                                sampleSecurity "[Interface]")))))).
Proof.
  destruct (@vpn_link_opens storedFlate plainQuotes noPublicKey storedFlate_sound
              (samplePeer "vpn.example.org:51821" "9.9.9.9") sampleSecurity
              "office" "[Interface]" eq_refl)
    as (encoded & b0 & b1 & b2 & b3 & stream & Hlink & Hdec & _ & Hread).
  exists encoded, b0, b1, b2, b3, stream. auto.
Defined.

(** ** CIDR lists *)

Section Cidrs.
Import config.
Context `{P : Netip}.

Lemma validateCidrArray_from_spec (field : string) (cidrs : list string) :
  forall i,
    (validateCidrArray_from field i cidrs = None /\ Forall cidrAccepted cidrs)
    \/ exists pre raw post,
         cidrs = pre ++ raw :: post
         /\ Forall cidrAccepted pre
         /\ ~ cidrAccepted raw
         /\ validateCidrArray_from field i cidrs
            = Some (if String.eqb (TrimSpace raw) ""
                    then ErrCidrEmpty field (i + length pre)
                    else ErrCidrInvalid field (i + length pre) raw).
Proof.
  induction cidrs as [| raw rest IH]; intros i; [left; split; [reflexivity | constructor] |].
  cbn [validateCidrArray_from]. cbv zeta.
  destruct (String.eqb_spec (TrimSpace raw) "") as [E | E].
  { right. exists [], raw, rest. cbn [app length]. rewrite Nat.add_0_r.
    split; [reflexivity |]. split; [constructor |].
    split; [intros [? _]; contradiction |].
    destruct (String.eqb_spec (TrimSpace raw) ""); [reflexivity | contradiction]. }
  destruct (ParsePrefixOk (TrimSpace raw)) eqn:Hp; cbn [negb].
  - destruct (IH (S i)) as [[Hnone Hall] | (pre & bad & post & -> & Hpre & Hbad & Herr)].
    + left. split; [exact Hnone |]. constructor; [split |]; auto.
    + right. exists (raw :: pre), bad, post. cbn [app length].
      rewrite Nat.add_succ_r. cbn [Nat.add] in Herr.
      split; [reflexivity |]. split; [constructor; [split |]; auto |].
      split; [exact Hbad | exact Herr].
  - right. exists [], raw, rest. cbn [app length]. rewrite Nat.add_0_r.
    split; [reflexivity |]. split; [constructor |].
    split; [intros [_ ?]; congruence |].
    destruct (String.eqb_spec (TrimSpace raw) ""); [contradiction | reflexivity].
Qed.

(** [validateCidrArray] accepts a list exactly when every entry, trimmed,
    is not empty and parses as a prefix; otherwise its error is the one
    for the first entry that does not: it carries the index of that entry
    and, for an entry that does not parse, the entry as it was written. *)
Theorem validateCidrArray_first_rejected (field : string) (cidrs : list string) :
  (validateCidrArray field cidrs = None <-> Forall cidrAccepted cidrs)
  /\ (forall e, validateCidrArray field cidrs = Some e ->
      exists pre raw post,
        cidrs = pre ++ raw :: post
        /\ Forall cidrAccepted pre
        /\ ((TrimSpace raw = "" /\ e = ErrCidrEmpty field (length pre))
            \/ (TrimSpace raw <> "" /\ ParsePrefixOk (TrimSpace raw) = false
                /\ e = ErrCidrInvalid field (length pre) raw))).
Proof.
  unfold validateCidrArray.
  destruct (validateCidrArray_from_spec field cidrs 0)
    as [[Hnone Hall] | (pre & raw & post & E & Hpre & Hbad & Herr)].
  - rewrite Hnone. split; [tauto | discriminate].
  - rewrite Herr. cbn [Nat.add]. split.
    + split; [discriminate |]. intros Hall. exfalso. apply Hbad.
      rewrite E in Hall. apply Forall_app in Hall as [_ Hall].
      now inversion Hall.
    + intros e [= <-]. exists pre, raw, post.
      split; [exact E |]. split; [exact Hpre |].
      destruct (String.eqb_spec (TrimSpace raw) "") as [Hb | Hb]; [left; auto |].
      right. split; [exact Hb |]. split; [| reflexivity].
      destruct (ParsePrefixOk (TrimSpace raw)) eqn:Hp; [| reflexivity].
      exfalso. apply Hbad. now split.
Qed.

End Cidrs.

(** ** What the validator accepts *)

Section Acceptance.
Import config.

Lemma validateAwgUint32IfSet_accepts (field raw : string) (w : World) :
  snd (validateAwgUint32IfSet field raw w) = w
  /\ (fst (validateAwgUint32IfSet field raw w) = None <-> headerAccepted raw).
Proof.
  unfold validateAwgUint32IfSet, headerAccepted, ok, fail. cbv zeta.
  destruct (String.eqb_spec (TrimSpace raw) "") as [E | E]; [cbn; tauto |].
  destruct (ParseUint (TrimSpace raw) 0 32) as [err | n]; cbn.
  - split; [reflexivity |]. split; [discriminate |].
    intros [? | (n & [=])]. contradiction.
  - split; [reflexivity |]. split; eauto.
Qed.

Lemma andThen_accepts (c1 c2 : Check) (w : World) :
  fst ((c1 >> c2) w) = None <-> fst (c1 w) = None /\ fst (c2 (snd (c1 w))) = None.
Proof.
  unfold andThen. destruct (c1 w) as [[e |] w1]; cbn; [| tauto].
  split; [discriminate | intros [[=] _]].
Qed.

Lemma andThen_pure (c1 c2 : Check) (w : World) :
  snd (c1 w) = w -> snd (c2 w) = w -> snd ((c1 >> c2) w) = w.
Proof.
  unfold andThen. destruct (c1 w) as [[e |] w1]; cbn; intros ->; auto.
Qed.

Lemma validateHeaders_accepts (field : string)
    (s : ProvisioningInterfaceAdvancedSecurity) (w : World) :
  snd (validateHeaders field s w) = w
  /\ (fst (validateHeaders field s w) = None <-> Forall headerAccepted (magicHeaders s)).
Proof.
  unfold validateHeaders, magicHeaders. split.
  - repeat apply andThen_pure; apply validateAwgUint32IfSet_accepts.
  - rewrite !andThen_accepts.
    repeat match goal with
           | |- context [snd (validateAwgUint32IfSet ?f ?r ?v)] =>
             rewrite (proj1 (validateAwgUint32IfSet_accepts f r v))
           | |- context [snd ((?a >> ?b) ?v)] =>
             rewrite (andThen_pure a b v)
               by (repeat apply andThen_pure; apply validateAwgUint32IfSet_accepts)
           end.
    rewrite !(fun f r => proj2 (validateAwgUint32IfSet_accepts f r w)).
    rewrite !Forall_cons, Forall_nil. tauto.
Qed.

Lemma packetAccepted_assign (p q : loc) (w : World) :
  packetAccepted (assign p (TrimSpace (deref w p)) w) q <-> packetAccepted w q.
Proof.
  unfold packetAccepted. rewrite deref_assign.
  destruct (decide (p = q)) as [-> | _]; [| tauto].
  now rewrite TrimSpace_idem.
Qed.

Lemma validateAwgStringPtr_accepts (field : string) (p : loc) (w : World) :
  (packetAccepted w p
   /\ validateAwgStringPtr field (Some p) w = (None, assign p (TrimSpace (deref w p)) w))
  \/ (~ packetAccepted w p
      /\ exists e, validateAwgStringPtr field (Some p) w = (Some e, w)).
Proof.
  unfold validateAwgStringPtr, packetAccepted. cbv zeta.
  destruct (String.eqb_spec (TrimSpace (deref w p)) "") as [E | E].
  { right. split; [tauto | eauto]. }
  destruct (Nat.leb_spec maxAwgStringLen (String.length (TrimSpace (deref w p)))).
  - right. split; [lia | eauto].
  - left. auto.
Qed.

Lemma checkPackets_accepts (l : list (string * option loc)) :
  forall w,
    fst (checkPackets l w) = None
    <-> forall q, In (Some q) (map snd l) -> packetAccepted w q.
Proof.
  induction l as [| [field [p |]] rest IH]; intros w; cbn [checkPackets map snd In].
  - split; [tauto | reflexivity].
  - rewrite andThen_accepts.
    destruct (validateAwgStringPtr_accepts field p w) as [[Hok ->] | [Hbad (e & ->)]];
      cbn [fst snd].
    + rewrite IH. split.
      * intros [_ Hrest] q [[= <-] | Hq]; [exact Hok |].
        now apply (packetAccepted_assign p q w), Hrest.
      * intros Hall. split; [reflexivity |]. intros q Hq.
        apply packetAccepted_assign. auto.
    + split; [intros [[=] _] |]. intros Hall. exfalso. apply Hbad, Hall. now left.
  - rewrite andThen_accepts. cbn [validateAwgStringPtr ok fst snd]. rewrite IH.
    split.
    + intros [_ Hrest] q [[=] | Hq]. auto.
    + intros Hall. split; [reflexivity |]. auto.
Qed.

Lemma validateAdvancedSecurity_steps (field : string)
    (s : ProvisioningInterfaceAdvancedSecurity) (w : World) :
  validateAdvancedSecurity field s w
  = (validateJunkRange field s
     >> (validateHeaders field s >> checkPackets (junkPacketFields field s))) w.
Proof.
  rewrite validateAdvancedSecurity_split. unfold andThen.
  destruct (validateJunkRange field s w) as [[e |] w1]; [reflexivity |].
  destruct (validateHeaders field s w1) as [[e |] w2]; [reflexivity |].
  apply validateJunkPackets_chain.
Qed.

Lemma validateJunkRange_accepts (field : string)
    (s : ProvisioningInterfaceAdvancedSecurity) (w : World) :
  heap (snd (validateJunkRange field s w)) = heap w
  /\ (fst (validateJunkRange field s w) = None
      <-> ((0 < JunkPacketCount s)%N -> ~ junkRangeIncoherent s)).
Proof.
  destruct (validateJunkRange_cases field s w)
    as [(Hc & Hz & ->) | [(Hc & H1 & H2 & Ho & ->) | [(Hc & Hok & ->)
       | [(Hc & _ & ->) | (Hc & _ & _ & ->)]]]]; cbn [fst snd warn heap];
    (split; [reflexivity |]); unfold junkRangeIncoherent in *.
  - split; [discriminate |]. intros H. exfalso. apply (H Hc). tauto.
  - split; [discriminate |]. intros H. exfalso. apply (H Hc). tauto.
  - tauto.
  - split; [| reflexivity]. intros _ Hpos. lia.
  - split; [| reflexivity]. intros _ Hpos. lia.
Qed.

Lemma packetAccepted_heap (w1 w2 : World) (q : loc) :
  heap w1 = heap w2 -> packetAccepted w1 q <-> packetAccepted w2 q.
Proof. intros E. unfold packetAccepted. now rewrite (deref_heap w1 w2 q E). Qed.

(** Validation succeeds exactly when its three parts do, each on the
    store as it is given. *)
Lemma validateAdvancedSecurity_parts (field : string)
    (s : ProvisioningInterfaceAdvancedSecurity) (w : World) :
  fst (validateAdvancedSecurity field s w) = None
  <-> fst (validateJunkRange field s w) = None
      /\ fst (validateHeaders field s w) = None
      /\ fst (checkPackets (junkPacketFields field s) w) = None.
Proof.
  rewrite validateAdvancedSecurity_steps, !andThen_accepts.
  destruct (validateJunkRange_accepts field s w) as [Hheap _].
  set (w1 := snd (validateJunkRange field s w)) in *.
  rewrite (proj1 (validateHeaders_accepts field s w1)).
  rewrite (proj2 (validateHeaders_accepts field s w1)),
    (proj2 (validateHeaders_accepts field s w)), !checkPackets_accepts.
  assert (Hq : (forall q, In (Some q) (map snd (junkPacketFields field s)) ->
                          packetAccepted w1 q)
               <-> (forall q, In (Some q) (map snd (junkPacketFields field s)) ->
                              packetAccepted w q)).
  { split; intros Hall q Hin; apply (packetAccepted_heap w1 w q Hheap), Hall, Hin. }
  rewrite Hq. tauto.
Qed.

(** [validateAdvancedSecurity] accepts a block exactly when its junk range
    is coherent (if Jc > 0), each magic header is blank or a [uint32], and
    each special junk packet that is set is, trimmed, neither empty nor
    [maxAwgStringLen] bytes long or longer. *)
Theorem validateAdvancedSecurity_accepts (field : string)
    (s : ProvisioningInterfaceAdvancedSecurity) (w : World) :
  fst (validateAdvancedSecurity field s w) = None
  <-> ((0 < JunkPacketCount s)%N -> ~ junkRangeIncoherent s)
      /\ Forall headerAccepted (magicHeaders s)
      /\ Forall (packetAccepted w) (junkPointers s).
Proof.
  rewrite validateAdvancedSecurity_parts.
  rewrite (proj2 (validateJunkRange_accepts field s w)),
    (proj2 (validateHeaders_accepts field s w)), checkPackets_accepts,
    !List.Forall_forall.
  split; intros (Hrange & Hheaders & Hpackets);
    (split; [exact Hrange |]; split; [exact Hheaders |]); intros q Hq.
  - apply Hpackets. now apply (In_junkPointers field).
  - apply Hpackets. now apply (In_junkPointers field) in Hq.
Qed.

Lemma validateAdvancedSecurity_result (field : string)
    (s : ProvisioningInterfaceAdvancedSecurity) (w : World) :
  exists w1,
    heap w1 = heap w
    /\ (fst (validateAdvancedSecurity field s w) = None ->
        validateAdvancedSecurity field s w = checkPackets (junkPacketFields field s) w1).
Proof.
  exists (snd (validateJunkRange field s w)).
  destruct (validateJunkRange_accepts field s w) as [Hheap _].
  split; [exact Hheap |].
  rewrite validateAdvancedSecurity_steps. unfold andThen.
  destruct (validateJunkRange field s w) as [[e |] w1]; cbn [fst snd] in *;
    [discriminate |].
  destruct (validateHeaders_accepts field s w1) as [Hpure _].
  destruct (validateHeaders field s w1) as [[e |] w2]; cbn [fst snd] in *;
    [discriminate |].
  now subst w2.
Qed.

(** A block that passed validation is settled: each special junk packet
    holds its trimmed text, which is not empty and shorter than
    [maxAwgStringLen]; validating the block again succeeds and writes
    nothing new to the store. *)
Theorem validateAdvancedSecurity_settles (field : string)
    (s : ProvisioningInterfaceAdvancedSecurity) (w : World) :
  fst (validateAdvancedSecurity field s w) = None ->
  let w' := snd (validateAdvancedSecurity field s w) in
  (forall q, In q (junkPointers s) ->
     deref w' q = TrimSpace (deref w q)
     /\ deref w' q <> ""
     /\ (String.length (deref w' q) < maxAwgStringLen)%nat)
  /\ fst (validateAdvancedSecurity field s w') = None
  /\ heap (snd (validateAdvancedSecurity field s w')) = heap w'.
Proof.
  intros Hok w'.
  pose proof (proj1 (validateAdvancedSecurity_parts field s w) Hok)
    as (Hrange & Hheaders & Hchecked).
  rewrite checkPackets_accepts in Hchecked.
  assert (Hpackets : forall q, In q (junkPointers s) -> packetAccepted w q).
  { intros q Hq. apply Hchecked. now apply (In_junkPointers field) in Hq. }
  assert (Hstored : forall q, In q (junkPointers s) ->
                      heap w' !! q = Some (TrimSpace (deref w q))).
  { intros q Hq. subst w'.
    destruct (validateAdvancedSecurity_result field s w) as (w1 & Hheap & Hrun).
    specialize (Hrun Hok). rewrite Hrun in Hok |- *.
    rewrite <- (deref_heap w1 w q Hheap).
    apply checkPackets_trims; [exact Hok |].
    now apply (In_junkPointers field) in Hq. }
  assert (Hderef : forall q, In q (junkPointers s) -> deref w' q = TrimSpace (deref w q)).
  { intros q Hq. unfold deref at 1. now apply lookup_total_correct, Hstored. }
  assert (Hagain : fst (validateAdvancedSecurity field s w') = None).
  { apply validateAdvancedSecurity_parts. split.
    { apply (validateJunkRange_accepts field s w'),
        (validateJunkRange_accepts field s w), Hrange. }
    split.
    { apply (validateHeaders_accepts field s w'),
        (validateHeaders_accepts field s w), Hheaders. }
    apply checkPackets_accepts. intros q Hq. apply (In_junkPointers field) in Hq.
    unfold packetAccepted. rewrite (Hderef q Hq), TrimSpace_idem.
    exact (Hpackets q Hq). }
  split; [| split; [exact Hagain |]].
  - intros q Hq. rewrite (Hderef q Hq). split; [reflexivity |]. exact (Hpackets q Hq).
  - destruct (validateAdvancedSecurity_result field s w') as (w1 & Hheap & Hrun).
    rewrite (Hrun Hagain), checkPackets_trimmed; [exact Hheap |].
    intros q Hq. apply (In_junkPointers field) in Hq.
    rewrite Hheap, (deref_heap w1 w' q Hheap), (Hstored q Hq).
    now rewrite (Hderef q Hq), TrimSpace_idem.
Qed.

End Acceptance.

Lemma validateAdvancedSecurity_settles_witness :
  let s := sampleBlock 4 50 100 "0x10" (Some 1%positive) in
  let w' := snd (config.validateAdvancedSecurity "f" s (sampleWorld 1%positive " <b 0x01> ")) in
  config.deref w' 1%positive = "<b 0x01>"
  /\ fst (config.validateAdvancedSecurity "f" s w') = None
  /\ config.heap (snd (config.validateAdvancedSecurity "f" s w')) = config.heap w'.
Proof.
  destruct (validateAdvancedSecurity_settles "f"
              (sampleBlock 4 50 100 "0x10" (Some 1%positive))
              (sampleWorld 1%positive " <b 0x01> ") eq_refl)
    as (Hq & Hagain & Hheap).
  split; [| split; [exact Hagain | exact Hheap]].
  destruct (Hq 1%positive) as (-> & _); [left; reflexivity | reflexivity].
Defined.

(** ** What a sanitized spec looks like *)

Section Sanitized.
Import config.
Context `{U : Unicode} `{P : Netip}.

Lemma guarded_cidrs_accepted (field : string) (cidrs : list string) :
  (if (0 <? length cidrs)%nat then validateCidrArray field cidrs else None) = None ->
  Forall cidrAccepted cidrs.
Proof.
  destruct cidrs as [| raw rest]; [constructor |]. cbn [length Nat.ltb Nat.leb].
  unfold validateCidrArray.
  destruct (validateCidrArray_from_spec field (raw :: rest) 0)
    as [[_ Hall] | (pre & bad & post & _ & _ & _ & ->)]; [auto | discriminate].
Qed.

Ltac pass_step :=
  lazymatch goal with
  | |- pass_err (if ?b then _ else _) = None -> _ =>
    destruct b eqn:?; [cbn [pass_err stop]; discriminate |]
  | |- pass_err (match ?o with _ => _ end) = None -> _ =>
    destruct o eqn:?; try (cbn [pass_err stop]; discriminate)
  end.

(** A pass of the loop that raises no error. *)
Lemma sanitizeInterface_pass (wgMode : string) (idx : nat) (seen : gset string)
    (iface : ProvisioningInterface) (w : World) :
  let p := sanitizeInterface wgMode idx seen iface w in
  pass_err p = None ->
  pass_iface p = normalized iface
  /\ pass_seen p = {[idOf iface]} ∪ seen
  /\ (idOf iface ∉ seen)
  /\ wellFormed wgMode (normalized iface).
Proof.
  cbv zeta. unfold sanitizeInterface, normalized, wellFormed, idOf, modeOf.
  set (id := TrimSpace (Identifier iface)).
  destruct (String.eqb_spec id "") as [Hid | Hid]; [cbn; discriminate |].
  case_bool_decide as Hseen; [cbn; discriminate |].
  cbn [Mode set_Identifier].
  set (mode := ToLower (TrimSpace (Mode iface))).
  assert (Hidem : TrimSpace id = id) by apply TrimSpace_idem.
  destruct (String.eqb_spec mode "") as [Hm | Hm]; cbn [negb andb].
  all: repeat pass_step; intros _.
  all: cbn [pass_iface pass_seen Identifier Mode ListenPort Mtu PeerDefMtu Addresses
            PeerDefAllowedIPs PeerDefNetwork AdvancedSecurity set_Identifier set_Mode] in *.
  all: fold mode.
  all: split; [reflexivity |]; split; [reflexivity |]; split; [exact Hseen |].
  all: split; [exact Hid |]; split; [exact Hidem |].
  all: split; [| split; [lia |]; split; [lia |]; split; [lia |];
                 split; [eapply guarded_cidrs_accepted; eassumption |];
                 split; [eapply guarded_cidrs_accepted; eassumption |];
                 split; [eapply guarded_cidrs_accepted; eassumption |]].
  all: try (destruct (AdvancedSecurity iface); [| congruence]; intros _;
            match goal with
            | H : (if negb (String.eqb ?a ?b) then _ else _) = _ |- _ =>
              destruct (String.eqb_spec a b); [assumption | discriminate H]
            end).
  - right. exact Hm.
  - left. match goal with H : negb (isInterfaceMode mode) = false |- _ =>
            apply negb_false_iff in H; unfold isInterfaceMode in H;
            rewrite !orb_true_iff, !String.eqb_eq in H end.
    cbn [In]. intuition congruence.
Qed.

Lemma Mode_normalized (iface : ProvisioningInterface) :
  modeOf iface = "" -> Mode (normalized iface) = Mode iface.
Proof. unfold normalized. now intros ->. Qed.

(** The loop when it raises no error. *)
Lemma sanitizeLoop_pass (wgMode : string) :
  forall ifaces idx seen w out w',
    sanitizeLoop wgMode idx seen ifaces w = (None, out, w') ->
    out = map normalized ifaces
    /\ Forall (wellFormed wgMode) out
    /\ List.NoDup (map idOf ifaces)
    /\ (forall x, In x (map idOf ifaces) -> x ∉ seen).
Proof.
  intros ifaces. induction ifaces as [| x rest IH]; intros idx seen w out w'.
  { cbn. intros [= <- <-]. repeat split; auto; constructor. }
  cbn [sanitizeLoop]. cbv zeta.
  pose proof (sanitizeInterface_pass wgMode idx seen x w) as Hpass. cbv zeta in Hpass.
  destruct (pass_err (sanitizeInterface wgMode idx seen x w)); [discriminate |].
  destruct (Hpass eq_refl) as (Hi & Hs & Hnew & Hwf).
  destruct (sanitizeLoop wgMode (S idx) _ rest _) as [[err rest'] w1] eqn:Hloop.
  intros [= -> <- <-].
  destruct (IH _ _ _ _ _ Hloop) as (-> & Hall & Hnodup & Hfresh).
  rewrite Hi. cbn [map]. split; [reflexivity |]. split; [now constructor |].
  split.
  - constructor; [| exact Hnodup]. intros Hin. apply (Hfresh _ Hin).
    rewrite Hs. now apply elem_of_union_l, elem_of_singleton_2.
  - intros y [<- | Hy]; [exact Hnew |].
    specialize (Hfresh y Hy). rewrite Hs in Hfresh.
    intros Hseen. now apply Hfresh, elem_of_union_r.
Qed.

Lemma Identifier_normalized (iface : ProvisioningInterface) :
  Identifier (normalized iface) = idOf iface.
Proof. unfold normalized. now destruct (String.eqb _ _). Qed.


End Sanitized.


(** ** What a rejected spec looks like *)

Section Rejected.
Import config.
Context `{U : Unicode} `{P : Netip}.




End Rejected.


(** ** Persisting an interface's configuration *)

Section Persisting.
Import domain configfile.
Context `{Names : ConfigFileNames}.

(** The three shapes of what [PersistInterfaceConfig] does. *)
Lemma PersistInterfaceConfig_trace (m : Manager) (id : string) :
  let trace := fst (PersistInterfaceConfig m id) in
  trace = [CallGetInterfaceAndPeers id]
  \/ (exists iface peers,
        trace = [CallGetInterfaceAndPeers id; CallGetInterfaceConfig iface peers])
  \/ (exists iface peers cfg,
        GetInterfaceAndPeers (wg m) id = inr (iface, peers)
        /\ GetInterfaceConfig (tplHandler m) iface peers = inr cfg
        /\ trace = [CallGetInterfaceAndPeers id; CallGetInterfaceConfig iface peers;
                    CallWriteFile (GetConfigFileName iface) cfg]).
Proof.
  cbv zeta. unfold PersistInterfaceConfig, call. cbn.
  destruct (GetInterfaceAndPeers (wg m) id) as [cause | [iface peers]]; cbn; [now left |].
  destruct (GetInterfaceConfig (tplHandler m) iface peers) as [cause | cfg] eqn:Htpl; cbn.
  - right; left. eauto.
  - right; right. exists iface, peers, cfg.
    now destruct (WriteFile (fsRepo m) (GetConfigFileName iface) cfg).
Qed.

Lemma PersistInterfaceConfig_discipline (m : Manager) (id : string) :
  (forall path, ~ In (CallDeleteFile path) (fst (PersistInterfaceConfig m id)))
  /\ (length (List.filter isFileSystemCall (fst (PersistInterfaceConfig m id))) <= 1)%nat.
Proof.
  destruct (PersistInterfaceConfig_trace m id)
    as [-> | [(iface & peers & ->) | (iface & peers & cfg & _ & _ & ->)]];
    (split; [intros path H; cbn in H; intuition discriminate | cbn; lia]).
Qed.

(** [PersistInterfaceConfig] asks the database, then the renderer, then
    writes one file, and stops at the first failure: it returns nil
    exactly when all three succeed; a file is written exactly when the
    database and the renderer answered, under the stored interface's file
    name and with the rendered text; no file is ever deleted. *)
Theorem PersistInterfaceConfig_outcome (m : Manager) (id : string) :
  let trace := fst (PersistInterfaceConfig m id) in
  let err := snd (PersistInterfaceConfig m id) in
  (err = None
   <-> exists iface peers cfg,
         GetInterfaceAndPeers (wg m) id = inr (iface, peers)
         /\ GetInterfaceConfig (tplHandler m) iface peers = inr cfg
         /\ WriteFile (fsRepo m) (GetConfigFileName iface) cfg = None)
  /\ (forall cause, GetInterfaceAndPeers (wg m) id = inl cause ->
        trace = [CallGetInterfaceAndPeers id]
        /\ err = Some (ErrFetchInterface id cause))
  /\ (forall iface peers cause,
        GetInterfaceAndPeers (wg m) id = inr (iface, peers) ->
        GetInterfaceConfig (tplHandler m) iface peers = inl cause ->
        trace = [CallGetInterfaceAndPeers id; CallGetInterfaceConfig iface peers]
        /\ err = Some (ErrInterfaceConfig cause))
  /\ (forall iface peers cfg,
        GetInterfaceAndPeers (wg m) id = inr (iface, peers) ->
        GetInterfaceConfig (tplHandler m) iface peers = inr cfg ->
        trace = [CallGetInterfaceAndPeers id; CallGetInterfaceConfig iface peers;
                 CallWriteFile (GetConfigFileName iface) cfg]
        /\ err = match WriteFile (fsRepo m) (GetConfigFileName iface) cfg with
                 | Some cause => Some (ErrWriteConfig cause)
                 | None => None
                 end)
  /\ (forall path, ~ In (CallDeleteFile path) trace)
  /\ (length (List.filter isFileSystemCall trace) <= 1)%nat.
Proof.
  cbv zeta. unfold PersistInterfaceConfig, call. cbn.
  destruct (GetInterfaceAndPeers (wg m) id) as [cause | [iface peers]] eqn:Hdb; cbn.
  { split; [split; [discriminate | intros (? & ? & ? & [=] & _)] |].
    split; [intros ? [= <-]; auto |].
    split; [discriminate |]. split; [discriminate |].
    split; [intros path [[=] | []] | lia]. }
  destruct (GetInterfaceConfig (tplHandler m) iface peers) as [cause | cfg] eqn:Htpl; cbn.
  { split; [split; [discriminate |] |].
    { intros (i & p & c & [= <- <-] & Hc & _). congruence. }
    split; [discriminate |].
    split; [intros ? ? ? [= <- <-] E; rewrite Htpl in E; injection E as <-; auto |].
    split; [intros ? ? ? [= <- <-] E; congruence |].
    split; [intros path [[=] | [[=] | []]] | lia]. }
  destruct (WriteFile (fsRepo m) (GetConfigFileName iface) cfg) as [cause |] eqn:Hfs; cbn.
  - split; [split; [discriminate |] |].
    { intros (i & p & c & [= <- <-] & Hc & Hw).
      rewrite Htpl in Hc. injection Hc as <-. congruence. }
    split; [discriminate |].
    split; [intros ? ? ? [= <- <-] E; congruence |].
    split.
    { intros ? ? ? [= <- <-] E. rewrite Htpl in E. injection E as <-.
      now rewrite Hfs. }
    split; [intros path [[=] | [[=] | [[=] | []]]] | lia].
  - split; [split; [eauto 6 | reflexivity] |].
    split; [discriminate |].
    split; [intros ? ? ? [= <- <-] E; congruence |].
    split.
    { intros ? ? ? [= <- <-] E. rewrite Htpl in E. injection E as <-.
      now rewrite Hfs. }
    split; [intros path [[=] | [[=] | [[=] | []]]] | lia].
Qed.

Lemma filter_app_calls (t1 t2 : list Call) :
  List.filter isFileSystemCall (t1 ++ t2)
  = List.filter isFileSystemCall t1 ++ List.filter isFileSystemCall t2.
Proof. apply List.filter_app. Qed.

Lemma handlePeerInterfaceUpdatedEvent_calls (m : Manager) (id : string) :
  fst (handlePeerInterfaceUpdatedEvent m id)
  = CallGetInterface id
    :: match GetInterface (wg m) id with
       | inl _ => [CallLogError "failed to load interface" id]
       | inr stored =>
         if negb (SaveConfig stored) then []
         else
           CallLogDebug "handling peer interface updated event" id
           :: fst (PersistInterfaceConfig m (Identifier stored))
              ++ match snd (PersistInterfaceConfig m (Identifier stored)) with
                 | Some _ =>
                   [CallLogError "failed to automatically persist interface config"
                      (Identifier stored)]
                 | None => []
                 end
       end.
Proof.
  unfold handlePeerInterfaceUpdatedEvent.
  destruct (GetInterface (wg m) id) as [cause | stored];
    cbn -[PersistInterfaceConfig]; [reflexivity |].
  destruct (SaveConfig stored); cbn -[PersistInterfaceConfig]; [| reflexivity].
  destruct (PersistInterfaceConfig m (Identifier stored)) as [t [e |]]; cbn;
    rewrite ?app_nil_r; reflexivity.
Qed.

(** The handler of the peer-updated event decides by the interface as the
    database holds it: when the lookup fails it logs an error and does
    nothing else; when the stored interface has [SaveConfig = false] it
    stops after the lookup; otherwise it persists the stored interface.
    It never deletes a file and writes one file at most. *)
Theorem handlePeerInterfaceUpdatedEvent_discipline (m : Manager) (id : string) :
  let trace := fst (handlePeerInterfaceUpdatedEvent m id) in
  (forall cause, GetInterface (wg m) id = inl cause ->
     trace = [CallGetInterface id; CallLogError "failed to load interface" id])
  /\ (forall stored, GetInterface (wg m) id = inr stored -> SaveConfig stored = false ->
      trace = [CallGetInterface id])
  /\ (forall stored, GetInterface (wg m) id = inr stored -> SaveConfig stored = true ->
      exists logged,
        trace = CallGetInterface id
                :: CallLogDebug "handling peer interface updated event" id
                :: fst (PersistInterfaceConfig m (Identifier stored)) ++ logged
        /\ List.filter isFileSystemCall logged = []
        /\ (logged = [] <-> snd (PersistInterfaceConfig m (Identifier stored)) = None))
  /\ (forall path, ~ In (CallDeleteFile path) trace)
  /\ (length (List.filter isFileSystemCall trace) <= 1)%nat.
Proof.
  cbv zeta. rewrite handlePeerInterfaceUpdatedEvent_calls.
  destruct (GetInterface (wg m) id) as [cause | stored] eqn:Hdb.
  { split; [auto |]. split; [discriminate |]. split; [discriminate |].
    split; [intros path H; cbn in H; intuition discriminate | cbn; lia]. }
  destruct (SaveConfig stored) eqn:Hsave; cbn [negb].
  2: { split; [discriminate |]. split; [auto |]. split; [intros ? [= <-]; congruence |].
       split; [intros path H; cbn in H; intuition discriminate | cbn; lia]. }
  destruct (PersistInterfaceConfig_discipline m (Identifier stored)) as [Hnodel Hone].
  set (logged := match snd (PersistInterfaceConfig m (Identifier stored)) with
                 | Some _ => [CallLogError "failed to automatically persist interface config"
                                (Identifier stored)]
                 | None => []
                 end).
  assert (Hquiet : List.filter isFileSystemCall logged = [])
    by (subst logged; now destruct (snd _)).
  assert (Hlogged : logged = [] <-> snd (PersistInterfaceConfig m (Identifier stored)) = None)
    by (subst logged; destruct (snd _); split; (reflexivity || discriminate)).
  assert (Hnodel' : forall path, ~ In (CallDeleteFile path) logged).
  { subst logged. intros path H. destruct (snd _); cbn in H; intuition discriminate. }
  split; [discriminate |]. split; [intros ? [= <-]; congruence |].
  split.
  { intros ? [= <-] _. exists logged. repeat split; tauto. }
  split.
  - intros path H. cbn in H. destruct H as [[=] | [[=] | H]].
    apply in_app_or in H as [H | H]; [exact (Hnodel path H) | exact (Hnodel' path H)].
  - cbn [List.filter isFileSystemCall]. rewrite filter_app_calls, Hquiet, app_nil_r.
    exact Hone.
Qed.

End Persisting.

(** ** The shape of what the link builder's helpers return *)

Section Shapes.
Import configfile.

(** [parseEndpointHostPort] never returns an empty host, and the host it
    returns has no white space around it: it is the default, the trimmed
    endpoint or the trimmed host part. *)
Theorem parseEndpointHostPort_host (endpoint : string) :
  fst (parseEndpointHostPort endpoint) <> ""
  /\ TrimSpace (fst (parseEndpointHostPort endpoint)) = fst (parseEndpointHostPort endpoint).
Proof.
  unfold parseEndpointHostPort. cbv zeta.
  destruct (String.eqb_spec (TrimSpace endpoint) "") as [E | E].
  { cbn. split; [discriminate | reflexivity]. }
  destruct (SplitHostPort (TrimSpace endpoint)) as [err | [h p]]; cbn [fst].
  { split; [exact E | apply TrimSpace_idem]. }
  destruct (String.eqb_spec (TrimSpace h) "") as [Eh | Eh]; cbn [negb].
  - split; [discriminate | reflexivity].
  - split; [exact Eh | apply TrimSpace_idem].
Qed.

Lemma IndexByte_app (a b : string) (c : ascii) :
  IndexByte (a +:+ b) c = None <-> IndexByte a c = None /\ IndexByte b c = None.
Proof.
  induction a as [| x a IH]; [cbn; tauto |].
  change (String x a +:+ b) with (String x (a +:+ b)). cbn [IndexByte].
  destruct (Ascii.eqb x c); [split; [discriminate | intros [[=] _]] |].
  rewrite !fmap_None. exact IH.
Qed.

Lemma TrimLeftSpace_split_le (n : nat) (s : string) :
  String.length s <= n -> exists p, s = p +:+ TrimLeftSpace s.
Proof.
  revert s. induction n as [| n IH]; intros s Hlen.
  - destruct s; [now exists "" | simpl in Hlen; lia].
  - destruct s as [| c1 r1]; [now exists "" |]. simpl in Hlen.
    cbn [TrimLeftSpace].
    destruct (asciiSpace c1).
    { destruct (IH r1) as (p & Hp); [lia |]. exists (String c1 p).
      change (String c1 r1 = String c1 (p +:+ TrimLeftSpace r1)). now rewrite <- Hp. }
    destruct r1 as [| c2 r2]; [now exists "" |]. simpl in Hlen.
    destruct (isSpace2 c1 c2).
    { destruct (IH r2) as (p & Hp); [lia |]. exists (String c1 (String c2 p)).
      change (String c1 (String c2 r2) = String c1 (String c2 (p +:+ TrimLeftSpace r2))).
      now rewrite <- Hp. }
    destruct r2 as [| c3 r3]; [now exists "" |]. simpl in Hlen.
    destruct (isSpace3 c1 c2 c3); [| now exists ""].
    destruct (IH r3) as (p & Hp); [lia |]. exists (String c1 (String c2 (String c3 p))).
    change (String c1 (String c2 (String c3 r3))
            = String c1 (String c2 (String c3 (p +:+ TrimLeftSpace r3)))).
    now rewrite <- Hp.
Qed.

(** Trimming adds no byte. *)
Lemma TrimSpace_IndexByte (s : string) (c : ascii) :
  IndexByte s c = None -> IndexByte (TrimSpace s) c = None.
Proof.
  intros H. unfold TrimSpace.
  destruct (TrimLeftSpace_split_le (String.length s) s (le_n _)) as (p & Hp).
  rewrite Hp in H. apply IndexByte_app in H as [_ H].
  destruct (TrimRightSpace_split (TrimLeftSpace s)) as (q & Hq & _).
  rewrite Hq in H. now apply IndexByte_app in H as [H _].
Qed.

(** The pieces of a split at commas hold no comma, and no byte the text
    does not hold. *)
Lemma Split_comma_pieces (s : string) :
  forall piece, In piece (Split s ",") ->
    IndexByte piece "," = None
    /\ forall c, IndexByte s c = None -> IndexByte piece c = None.
Proof.
  unfold Split. induction s as [| x s IH]; intros piece.
  { cbn. intros [<- | []]. auto. }
  cbn [Split_go HasPrefix String.length Nat.sub]. rewrite HasPrefix_empty, andb_true_r.
  destruct (Ascii.eqb_spec "," x) as [<- | Hx].
  - intros [<- | Hin]; [split; [reflexivity |]; intros c _; reflexivity |].
    destruct (IH piece Hin) as [Hcomma Hbytes]. split; [exact Hcomma |].
    intros c Hc. cbn [IndexByte] in Hc. apply Hbytes.
    destruct (Ascii.eqb "," c); [discriminate |].
    now destruct (IndexByte s c).
  - destruct (Split_go "," 0 s) as [| p ps] eqn:E.
    + intros [<- | []]. cbn [IndexByte].
      destruct (Ascii.eqb_spec x ","); [congruence |]. split; [reflexivity |].
      intros c Hc. cbn [IndexByte] in Hc. now destruct (Ascii.eqb x c).
    + intros [<- | Hin].
      * destruct (IH p (or_introl eq_refl)) as [Hcomma Hbytes]. cbn [IndexByte].
        destruct (Ascii.eqb_spec x ","); [congruence |].
        rewrite Hcomma. split; [reflexivity |].
        intros c Hc. cbn [IndexByte] in Hc.
        destruct (Ascii.eqb x c); [discriminate |].
        rewrite Hbytes; [reflexivity |]. now destruct (IndexByte s c).
      * destruct (IH piece (or_intror Hin)) as [Hcomma Hbytes]. split; [exact Hcomma |].
        intros c Hc. cbn [IndexByte] in Hc. apply Hbytes.
        destruct (Ascii.eqb x c); [discriminate |].
        now destruct (IndexByte s c).
Qed.

Lemma trimmedEntries_shape (text entry : string) :
  In entry (trimmedEntries text) ->
  entry <> "" /\ TrimSpace entry = entry /\ IndexByte entry "," = None
  /\ forall c, IndexByte text c = None -> IndexByte entry c = None.
Proof.
  unfold trimmedEntries. rewrite filter_In, in_map_iff.
  intros [(piece & <- & Hpiece) Hne].
  destruct (Split_comma_pieces text piece Hpiece) as [Hcomma Hbytes].
  split; [unfold nonEmpty in Hne; now destruct (String.eqb_spec (TrimSpace piece) "") |].
  split; [apply TrimSpace_idem |].
  split; [now apply TrimSpace_IndexByte |].
  intros c Hc. now apply TrimSpace_IndexByte, Hbytes.
Qed.

(** Every entry [splitCsvOrDefault] returns is non-empty, has no white
    space around it and holds neither a comma nor a space; so do the two
    servers [pickDnsServers] returns, whatever the input. *)
Theorem splitCsvOrDefault_entries (value fallback : string) :
  (forall entry, In entry (elems (splitCsvOrDefault value fallback)) ->
     entry <> "" /\ TrimSpace entry = entry
     /\ IndexByte entry "," = None /\ IndexByte entry " " = None)
  /\ (forall server,
        server = fst (pickDnsServers value) \/ server = snd (pickDnsServers value) ->
        server <> "" /\ TrimSpace server = server
        /\ IndexByte server "," = None /\ IndexByte server " " = None).
Proof.
  assert (Hentries : forall v f entry, In entry (elems (splitCsvOrDefault v f)) ->
            entry <> "" /\ TrimSpace entry = entry
            /\ IndexByte entry "," = None /\ IndexByte entry " " = None).
  { intros v f entry. rewrite splitCsvOrDefault_elems. intros Hin.
    destruct (trimmedEntries_shape _ _ Hin) as (Hne & Htrim & Hcomma & Hbytes).
    repeat split; auto. apply Hbytes, deleteByte_absent. }
  split; [apply Hentries |].
  intros server Hserver. unfold pickDnsServers in Hserver. cbv zeta in Hserver.
  pose proof (Hentries value "1.1.1.1,1.0.0.1") as Hparts.
  destruct (elems (splitCsvOrDefault value "1.1.1.1,1.0.0.1")) as [| p0 [| p1 rest]];
    cbn [fst snd] in Hserver; destruct Hserver as [-> | ->];
    try (apply Hparts; cbn; tauto);
    (split; [discriminate |]; split; [reflexivity |]; split; reflexivity).
Qed.

End Shapes.

(** ** Numbers and their decimal text *)

Section Decimal.

Lemma parseDecimal_digits (d : Decimal.uint) :
  forall acc, parseDecimal acc (NilEmpty.string_of_uint d) = Some (uintVal acc d).
Proof.
  induction d; intros acc; cbn [NilEmpty.string_of_uint parseDecimal uintVal];
    try reflexivity; apply IHd.
Qed.

Lemma of_uint_acc_val (d : Decimal.uint) :
  forall acc, Z.pos (Pos.of_uint_acc d acc) = uintVal (Z.pos acc) d.
Proof.
  induction d; intros acc; cbn [Pos.of_uint_acc uintVal]; try reflexivity;
    rewrite IHd; f_equal; lia.
Qed.

Lemma of_uint_val (d : Decimal.uint) : Z.of_N (Pos.of_uint d) = uintVal 0 d.
Proof.
  induction d; cbn [Pos.of_uint uintVal]; try reflexivity; try exact IHd;
    cbn [Z.of_N]; now rewrite of_uint_acc_val.
Qed.

Lemma string_of_uint_digit (d : Decimal.uint) :
  d <> Decimal.Nil ->
  exists c r, NilEmpty.string_of_uint d = String c r
              /\ Ascii.eqb c "+" = false /\ Ascii.eqb c "-" = false.
Proof.
  destruct d; [congruence | ..]; intros _; cbn [NilEmpty.string_of_uint]; eauto.
Qed.

(** [strconv.Atoi] reads back what [strconv.Itoa] wrote. *)
Lemma Atoi_digits (d : Decimal.uint) (neg : bool) :
  d <> Decimal.Nil ->
  isInt (if neg then - uintVal 0 d else uintVal 0 d) ->
  Atoi (if neg then String "-" (NilEmpty.string_of_uint d) else NilEmpty.string_of_uint d)
  = Some (if neg then - uintVal 0 d else uintVal 0 d)%Z.
Proof.
  intros Hd Hrange. unfold isInt in Hrange.
  destruct (string_of_uint_digit d Hd) as (c & r & Hs & Hplus & Hminus).
  pose proof (parseDecimal_digits d 0) as Hp. rewrite Hs in Hp.
  unfold Atoi. destruct neg.
  - cbn [Ascii.eqb Bool.eqb]. rewrite Hs, Hp.
    destruct ((- 2 ^ 63 <=? - uintVal 0 d) && (- uintVal 0 d <=? 2 ^ 63 - 1))%Z eqn:Hb;
      [reflexivity | lia].
  - rewrite Hs, Hplus, Hminus, Hp.
    destruct ((- 2 ^ 63 <=? uintVal 0 d) && (uintVal 0 d <=? 2 ^ 63 - 1))%Z eqn:Hb;
      [reflexivity | lia].
Qed.

(** [strconv.Atoi] reads back what [strconv.Itoa] wrote. *)
Lemma Atoi_Itoa (i : Z) : isInt i -> Atoi (Itoa i) = Some i.
Proof.
  intros Hrange. unfold Itoa.
  pose proof (DecimalZ.of_to i) as Hback.
  destruct (Z.to_int i) as [d | d] eqn:E.
  - assert (Hd : d <> Decimal.Nil).
    { destruct i; cbn in E; try discriminate; injection E as <-;
        [discriminate | apply DecimalPos.Unsigned.to_uint_nonnil]. }
    change (Z.of_N (Pos.of_uint d) = i) in Hback. rewrite of_uint_val in Hback.
    replace (NilZero.string_of_int (Decimal.Pos d)) with (NilEmpty.string_of_uint d)
      by (now destruct d).
    rewrite <- Hback in Hrange |- *. exact (Atoi_digits d false Hd Hrange).
  - assert (Hd : d <> Decimal.Nil).
    { destruct i; cbn in E; try discriminate; injection E as <-.
      apply DecimalPos.Unsigned.to_uint_nonnil. }
    change (- Z.of_N (Pos.of_uint d) = i)%Z in Hback. rewrite of_uint_val in Hback.
    replace (NilZero.string_of_int (Decimal.Neg d))
      with (String "-" (NilEmpty.string_of_uint d)) by (now destruct d).
    rewrite <- Hback in Hrange |- *. exact (Atoi_digits d true Hd Hrange).
Qed.

End Decimal.

(** ** The numbers in the link *)

Section LinkNumbers.
Import domain configfile.
Context `{K : KeyDerivation}.

Lemma Atoi_range (s : string) (n : Z) : Atoi s = Some n -> isInt n.
Proof.
  unfold Atoi, isInt.
  destruct (match s with
            | "" => (false, s)
            | String c r =>
              if Ascii.eqb c "+" then (false, r)
              else if Ascii.eqb c "-" then (true, r) else (false, s)
            end) as [neg ds].
  destruct ds; [discriminate |].
  destruct (parseDecimal 0 _) as [m |]; [| discriminate].
  cbv zeta.
  destruct ((- 2 ^ 63 <=? (if neg then - m else m))
            && ((if neg then - m else m) <=? 2 ^ 63 - 1))%Z eqn:Hb; [| discriminate].
  intros [= <-]. lia.
Qed.

Lemma parseEndpointHostPort_port (endpoint : string) :
  isInt (snd (parseEndpointHostPort endpoint)).
Proof.
  unfold parseEndpointHostPort. cbv zeta.
  destruct (String.eqb (TrimSpace endpoint) ""); [cbn; unfold isInt; lia |].
  destruct (SplitHostPort (TrimSpace endpoint)) as [err | [h p]]; cbn [snd];
    [unfold isInt; lia |].
  destruct (Atoi p) as [n |] eqn:E; [exact (Atoi_range _ _ E) | unfold isInt; lia].
Qed.

Lemma parseEndpointHostPort_nonempty (endpoint : string) :
  fst (parseEndpointHostPort endpoint) <> "".
Proof.
  unfold parseEndpointHostPort. cbv zeta.
  destruct (String.eqb_spec (TrimSpace endpoint) "") as [E | E]; [discriminate |].
  destruct (SplitHostPort (TrimSpace endpoint)) as [err | [h p]]; cbn [fst]; [exact E |].
  destruct (String.eqb_spec (TrimSpace h) "") as [Eh | Eh]; cbn [negb];
    [discriminate | exact Eh].
Qed.

(** The decimal text of a [uint16] parses back to it; the optional text is
    empty exactly for zero and is the plain text otherwise, so two values
    never share a text. *)
Theorem u16ToString_round_trip (v : N) :
  (v < 65536)%N ->
  Atoi (u16ToString v) = Some (Z.of_N v)
  /\ (u16ToStringOptional v = "" <-> v = 0%N)
  /\ (v <> 0%N -> u16ToStringOptional v = u16ToString v)
  /\ (forall v', (v' < 65536)%N -> u16ToString v = u16ToString v' -> v = v').
Proof.
  intros Hv.
  assert (Hback : forall x, (x < 65536)%N -> Atoi (u16ToString x) = Some (Z.of_N x)).
  { intros x Hx. unfold u16ToString. apply Atoi_Itoa. unfold isInt. lia. }
  split; [now apply Hback |]. unfold u16ToStringOptional.
  split; [| split].
  - destruct (N.eqb_spec v 0); [tauto |]. split; [| contradiction].
    intros E. exfalso. exact (Itoa_nonempty _ E).
  - intros Hne. now destruct (N.eqb_spec v 0).
  - intros v' Hv' E. apply Hback in Hv, Hv'. rewrite E, Hv' in Hv.
    injection Hv as Hv. lia.
Qed.

(** The endpoint is written twice into the link, and the two copies
    agree: the envelope's host name is [last_config]'s, and the port text
    of each container parses to [last_config]'s port.  The host name is
    never empty.  The MTU and keep-alive texts parse to the peer's values,
    with 1280 and 25 in place of zero. *)
Theorem link_numbers (peer : Peer) (adv : AdvancedSecurity)
    (description configText : string) (lastCfgJSON : list ascii) :
  isInt (GetValue (Mtu (PeerInterface peer))) ->
  isInt (GetValue (PersistentKeepalive peer)) ->
  let lc := buildLastConfig peer adv configText in
  let env := buildEnvelope peer adv description lastCfgJSON in
  env_HostName env = lc_HostName lc
  /\ lc_HostName lc <> ""
  /\ Forall (fun c => Atoi (awg_Port (Awg c)) = Some (lc_Port lc)) (Containers env)
  /\ Atoi (MTU lc)
     = Some (if (GetValue (Mtu (PeerInterface peer)) =? 0)%Z then 1280%Z
             else GetValue (Mtu (PeerInterface peer)))
  /\ Atoi (PersistentKeepAlive lc)
     = Some (if (GetValue (PersistentKeepalive peer) =? 0)%Z then 25%Z
             else GetValue (PersistentKeepalive peer)).
Proof.
  intros Hmtu Hkeep. cbv zeta. unfold buildLastConfig, buildEnvelope.
  pose proof (parseEndpointHostPort_port (GetValue (Endpoint peer))) as Hport.
  pose proof (parseEndpointHostPort_nonempty (GetValue (Endpoint peer))) as Hhost.
  destruct (parseEndpointHostPort (GetValue (Endpoint peer))) as [host port].
  destruct (pickDnsServers _) as [dns1 dns2].
  cbn [fst snd] in *. cbn [env_HostName lc_HostName lc_Port Containers MTU PersistentKeepAlive].
  split; [reflexivity |]. split; [exact Hhost |].
  split; [repeat constructor; cbn [Awg awg_Port]; now apply Atoi_Itoa |].
  split.
  - destruct (GetValue (Mtu (PeerInterface peer)) =? 0)%Z; cbn [negb];
      [reflexivity | now apply Atoi_Itoa].
  - destruct (GetValue (PersistentKeepalive peer) =? 0)%Z; cbn [negb];
      [reflexivity | now apply Atoi_Itoa].
Qed.

End LinkNumbers.

Lemma u16ToString_round_trip_witness :
  Atoi (configfile.u16ToString 51820) = Some 51820%Z
  /\ configfile.u16ToStringOptional 51820 = "51820".
Proof.
  destruct (u16ToString_round_trip 51820 eq_refl) as (Hback & _ & Hopt & _).
  split; [exact Hback |]. now rewrite Hopt.
Defined.

Lemma link_numbers_witness :
  let peer := samplePeer " vpn.example.org:51821 " "9.9.9.9" in
  let lc := @configfile.buildLastConfig noPublicKey peer sampleSecurity "" in
  configfile.lc_HostName lc = "vpn.example.org"
  /\ Atoi (configfile.MTU lc) = Some 1420%Z
  /\ Atoi (configfile.PersistentKeepAlive lc) = Some 25%Z.
Proof.
  cbv zeta.
  destruct (@link_numbers noPublicKey
              (samplePeer " vpn.example.org:51821 " "9.9.9.9") sampleSecurity "" "" [])
    as (_ & _ & _ & Hmtu & Hkeep); [vm_compute; split; discriminate .. |].
  split; [reflexivity |]. split; [exact Hmtu | exact Hkeep].
Defined.

(** ** Reading the environment *)

Section Environment.
Import config.

Lemma getEnvStrSlice_loop_acc (strParts out : list string) :
  getEnvStrSlice_loop strParts out
  = out ++ List.filter nonEmpty (map TrimSpace strParts).
Proof.
  revert out. induction strParts as [| s rest IH]; intros out; cbn [getEnvStrSlice_loop map List.filter].
  - now rewrite app_nil_r.
  - cbv zeta. unfold nonEmpty at 1.
    destruct (String.eqb (TrimSpace s) ""); cbn [negb]; rewrite IH; [reflexivity |].
    now rewrite <- app_assoc.
Qed.

Lemma Split_no_comma (s : string) : IndexByte s "," = None -> Split s "," = [s].
Proof.
  unfold Split. induction s as [| x s IH]; [reflexivity |].
  cbn [IndexByte Split_go HasPrefix String.length Nat.sub].
  rewrite HasPrefix_empty, andb_true_r.
  destruct (Ascii.eqb_spec x ",") as [-> | Hx]; [discriminate |].
  rewrite fmap_None. intros H. rewrite (IH H).
  destruct (Ascii.eqb_spec "," x); [congruence | reflexivity].
Qed.

Lemma SpaceOnly_no_comma (s : string) : SpaceOnly s -> IndexByte s "," = None.
Proof.
  induction 1 as [| r s Hr _ IH]; [reflexivity |].
  apply IndexByte_app. split; [| exact IH].
  cbn [In whiteSpace] in Hr.
  repeat (destruct Hr as [<- | Hr]; [reflexivity |]). destruct Hr.
Qed.

(** [getEnvStrSlice] returns the fallback only for a variable that is not
    set.  For a variable that is set it returns the pieces between the
    commas, trimmed, without the empty ones: each entry is non-empty, has
    no white space around it and holds no comma; a variable set to a blank
    text gives the empty slice, not the fallback. *)
Theorem getEnvStrSlice_entries (env : Env) (name : string) (fallback : option (list string)) :
  (env !! name = None -> getEnvStrSlice env name fallback = fallback)
  /\ (forall v, env !! name = Some v ->
        getEnvStrSlice env name fallback = Some (trimmedEntries v)
        /\ (forall entry, In entry (trimmedEntries v) ->
              entry <> "" /\ TrimSpace entry = entry /\ IndexByte entry "," = None)
        /\ (SpaceOnly v -> getEnvStrSlice env name fallback = Some [])).
Proof.
  unfold getEnvStrSlice, LookupEnv. split; [now intros -> |].
  intros v ->. rewrite getEnvStrSlice_loop_acc. cbn [app].
  split; [reflexivity |]. split.
  - intros entry Hin.
    destruct (trimmedEntries_shape _ _ Hin) as (Hne & Htrim & Hcomma & _). auto.
  - intros Hblank. rewrite (Split_no_comma v (SpaceOnly_no_comma v Hblank)).
    cbn [map List.filter]. unfold nonEmpty.
    now rewrite (TrimSpace_SpaceOnly v Hblank).
Qed.

Lemma ParseBool_spellings (v : string) :
  (In v ["1"; "t"; "T"; "TRUE"; "true"; "True"] -> ParseBool v = Some true)
  /\ (In v ["0"; "f"; "F"; "FALSE"; "false"; "False"] -> ParseBool v = Some false)
  /\ (~ In v ["1"; "t"; "T"; "TRUE"; "true"; "True";
              "0"; "f"; "F"; "FALSE"; "false"; "False"] -> ParseBool v = None)
  /\ (forall b, ParseBool v = Some b ->
        In v (if b then ["1"; "t"; "T"; "TRUE"; "true"; "True"]
              else ["0"; "f"; "F"; "FALSE"; "false"; "False"])).
Proof.
  unfold ParseBool.
  destruct (existsb (String.eqb v) ["1"; "t"; "T"; "TRUE"; "true"; "True"]) eqn:Ht.
  { apply existsb_exists in Ht as (x & Hx & ->%String.eqb_eq).
    split; [reflexivity |]. split; [| split].
    - intros Hf. cbn in Hx, Hf. intuition (subst; discriminate).
    - intros Hn. exfalso. apply Hn. cbn in Hx |- *. tauto.
    - now intros b [= <-]. }
  assert (Hnt : ~ In v ["1"; "t"; "T"; "TRUE"; "true"; "True"]).
  { intros Hin. apply not_true_iff_false in Ht. apply Ht.
    apply existsb_exists. exists v. split; [exact Hin | apply String.eqb_refl]. }
  split; [intros Hin; contradiction |].
  destruct (existsb (String.eqb v) ["0"; "f"; "F"; "FALSE"; "false"; "False"]) eqn:Hf.
  { apply existsb_exists in Hf as (x & Hx & ->%String.eqb_eq).
    split; [reflexivity |]. split.
    - intros Hn. exfalso. apply Hn. cbn in Hx |- *. tauto.
    - now intros b [= <-]. }
  split; [| split; [reflexivity | discriminate]].
  intros Hin. apply not_true_iff_false in Hf. exfalso. apply Hf.
  apply existsb_exists. exists v. split; [exact Hin | apply String.eqb_refl].
Qed.

(** [getEnvBool] and [getEnvInt] return the fallback, and log nothing, for
    a variable that is not set.  For a variable that is set, [getEnvBool]
    returns [true] for the six spellings of true and [false] for the six
    spellings of false of [strconv.ParseBool], logging nothing, and for
    every other text (the empty text too) it returns the fallback and logs
    one warning with the name, the text and the fallback.  [getEnvInt]
    returns the number [strconv.Atoi] reads, which is a Go [int], logging
    nothing, and for a text [Atoi] rejects (the empty text too) it returns
    the fallback and logs one warning; an integer written by
    [strconv.Itoa] is read back as it was.  So a warning is logged exactly
    when the variable is set to a text that does not parse, and the result
    differs from the fallback only when the text parses. *)
Theorem getEnv_fallbacks (env : Env) (name : string) :
  (forall fallback : bool,
     (env !! name = None -> getEnvBool env name fallback = (fallback, []))
     /\ (forall v, env !! name = Some v ->
          (In v ["1"; "t"; "T"; "TRUE"; "true"; "True"] ->
             getEnvBool env name fallback = (true, []))
          /\ (In v ["0"; "f"; "F"; "FALSE"; "false"; "False"] ->
               getEnvBool env name fallback = (false, []))
          /\ (~ In v ["1"; "t"; "T"; "TRUE"; "true"; "True";
                      "0"; "f"; "F"; "FALSE"; "false"; "False"] ->
               getEnvBool env name fallback
               = (fallback, [WarnInvalidBool name v fallback])))
     /\ (env !! name = Some "" ->
          getEnvBool env name fallback = (fallback, [WarnInvalidBool name "" fallback]))
     /\ (snd (getEnvBool env name fallback) <> []
          <-> exists v, env !! name = Some v /\ ParseBool v = None)
     /\ (forall b, getEnvBool env name (negb b) = (b, []) ->
         exists v, env !! name = Some v
                   /\ In v (if b then ["1"; "t"; "T"; "TRUE"; "true"; "True"]
                            else ["0"; "f"; "F"; "FALSE"; "false"; "False"])))
  /\ (forall fallback : Z,
       (env !! name = None -> getEnvInt env name fallback = (fallback, []))
       /\ (forall v, env !! name = Some v ->
            (Atoi v = None ->
               getEnvInt env name fallback = (fallback, [WarnInvalidInt name v fallback]))
            /\ (forall i, Atoi v = Some i ->
                   getEnvInt env name fallback = (i, []) /\ isInt i))
       /\ (env !! name = Some "" ->
            getEnvInt env name fallback = (fallback, [WarnInvalidInt name "" fallback]))
       /\ (snd (getEnvInt env name fallback) <> []
            <-> exists v, env !! name = Some v /\ Atoi v = None)
       /\ (isInt fallback -> isInt (fst (getEnvInt env name fallback)))
       /\ (forall i, isInt i -> env !! name = Some (Itoa i) ->
           getEnvInt env name fallback = (i, []))).
Proof.
  unfold getEnvBool, getEnvInt, LookupEnv. split; intros fallback.
  - split; [now intros -> |]. split; [| split; [| split]].
    + intros v ->. destruct (ParseBool_spellings v) as (Ht & Hf & Hn & _).
      split; [| split]; intros Hin.
      * now rewrite (Ht Hin).
      * now rewrite (Hf Hin).
      * now rewrite (Hn Hin).
    + intros ->. reflexivity.
    + destruct (env !! name) as [v |].
      * destruct (ParseBool v) eqn:E; cbn [snd]; split.
        -- intros Hne. now contradiction Hne.
        -- intros (v' & [= <-] & E'). congruence.
        -- intros _. now exists v.
        -- discriminate.
      * cbn [snd]. split; [intros Hne; now contradiction Hne |].
        intros (v & Hv & _). discriminate Hv.
    + intros b. destruct (env !! name) as [v |]; [| now destruct b].
      destruct (ParseBool v) as [b' |] eqn:E; [| discriminate].
      intros [= <-]. exists v. split; [reflexivity |].
      now apply (ParseBool_spellings v).
  - split; [now intros -> |]. split; [| split; [| split; [| split]]].
    + intros v ->. split.
      * now intros ->.
      * intros i E. rewrite E. split; [reflexivity | exact (Atoi_range _ _ E)].
    + intros ->. reflexivity.
    + destruct (env !! name) as [v |].
      * destruct (Atoi v) eqn:E; cbn [snd]; split.
        -- intros Hne. now contradiction Hne.
        -- intros (v' & [= <-] & E'). congruence.
        -- intros _. now exists v.
        -- discriminate.
      * cbn [snd]. split; [intros Hne; now contradiction Hne |].
        intros (v & Hv & _). discriminate Hv.
    + intros Hfb. destruct (env !! name) as [v |]; [| exact Hfb].
      destruct (Atoi v) as [i |] eqn:E; [exact (Atoi_range _ _ E) | exact Hfb].
    + intros i Hi ->. now rewrite (Atoi_Itoa i Hi).
Qed.

End Environment.

Lemma getEnvStrSlice_entries_witness :
  config.getEnvStrSlice {[ "IGNORED" := " wg0 , ,wg 1," ]} "IGNORED" None = Some ["wg0"; "wg 1"]
  /\ config.getEnvStrSlice {[ "IGNORED" := "  " ]} "IGNORED" (Some ["lo"]) = Some [].
Proof.
  split.
  - destruct (getEnvStrSlice_entries {[ "IGNORED" := " wg0 , ,wg 1," ]} "IGNORED" None)
      as [_ Hset].
    destruct (Hset " wg0 , ,wg 1,") as (-> & _); [apply lookup_singleton_eq | reflexivity].
  - destruct (getEnvStrSlice_entries {[ "IGNORED" := "  " ]} "IGNORED" (Some ["lo"]))
      as [_ Hset].
    destruct (Hset "  ") as (_ & _ & Hblank); [apply lookup_singleton_eq |].
    apply Hblank.
    apply (SpaceOnly_rune 32); [vm_compute; tauto |].
    apply (SpaceOnly_rune 32 ""); [vm_compute; tauto | constructor].
Defined.

(** ** The text of a QR code: [getPeerQrConfigText] *)

Section QrText.
Import configfile.

Lemma append_nil_r (s : string) : s +:+ "" = s.
Proof. induction s as [| c s IH]; [reflexivity |]. change (String c (s +:+ "") = String c s). now rewrite IH. Qed.

Lemma qrConfigLines_unlines (tokens : list string) :
  forall sb, qrConfigLines tokens sb = sb +:+ unlines (keptLines tokens).
Proof.
  induction tokens as [| text rest IH]; intros sb.
  - cbn. now rewrite append_nil_r.
  - cbn [qrConfigLines]. cbv zeta. unfold keptLines. cbn [map List.filter]. unfold isComment at 1.
    destruct (HasPrefix (TrimSpace text) "#"); cbn [negb].
    + apply IH.
    + rewrite IH. cbn [unlines]. unfold keptLines.
      rewrite !append_assoc. reflexivity.
Qed.

Lemma scanTokens_short (lines : list string) (atEnd : option ScanError) :
  Forall (fun l => ~ tooLong l) lines ->
  scanTokens lines atEnd = (map dropCR lines, atEnd).
Proof.
  induction 1 as [| l rest Hl _ IH]; [reflexivity |].
  cbn [scanTokens map]. unfold tooLong in Hl.
  destruct (N.leb_spec MaxScanTokenSize (N.of_nat (String.length l))); [contradiction |].
  now rewrite IH.
Qed.

Lemma scanTokens_long (lines : list string) (atEnd : option ScanError) :
  Exists tooLong lines -> snd (scanTokens lines atEnd) = Some ErrTooLong.
Proof.
  induction lines as [| l rest IH]; intros H; [inversion H |].
  cbn [scanTokens].
  destruct (N.leb_spec MaxScanTokenSize (N.of_nat (String.length l))) as [Hl | Hl];
    [reflexivity |].
  inversion H as [? ? Hbad | ? ? Hrest]; subst; [unfold tooLong in Hbad; lia |].
  specialize (IH Hrest). now destruct (scanTokens rest atEnd).
Qed.

Lemma Forall_or_Exists_tooLong (lines : list string) :
  Forall (fun l => ~ tooLong l) lines \/ Exists tooLong lines.
Proof.
  induction lines as [| l rest [IH | IH]]; [left; constructor | |].
  - destruct (N.leb_spec MaxScanTokenSize (N.of_nat (String.length l))).
    + right. now constructor.
    + left. constructor; [unfold tooLong; lia | exact IH].
  - right. now constructor 2.
Qed.

Lemma getPeerQrConfigText_lines (cfgData : Reader) :
  Exists tooLong (rawLines (content cfgData))
  \/ Forall (fun l => ~ tooLong l) (rawLines (content cfgData)).
Proof. destruct (Forall_or_Exists_tooLong (rawLines (content cfgData))); auto. Qed.

(** [getPeerQrConfigText] fails exactly when a line of the configuration
    has [MaxScanTokenSize] bytes or more, or the reader fails.  Otherwise
    it returns the name header, if one is asked for and the name is not
    empty, followed by the lines of the configuration, each trimmed and
    followed by a newline, without the lines that, trimmed, start with
    [#]; blank lines stay, as empty lines. *)
Theorem getPeerQrConfigText_text (cfgData : Reader) (keepNameHeader : bool)
    (displayName : string) :
  let lines := rawLines (content cfgData) in
  let header := if keepNameHeader && negb (String.eqb displayName "")
                then "# Name = " +:+ displayName +:+ String "010" "" else "" in
  (Exists tooLong lines ->
     getPeerQrConfigText cfgData keepNameHeader displayName = inl ErrTooLong)
  /\ (Forall (fun l => ~ tooLong l) lines ->
      getPeerQrConfigText cfgData keepNameHeader displayName
      = match failure cfgData with
        | Some cause => inl (ErrRead cause)
        | None => inr (header +:+ unlines (keptLines (map dropCR lines)))
        end)
  /\ (forall line, In line (keptLines (map dropCR lines)) ->
        TrimSpace line = line /\ HasPrefix line "#" = false).
Proof.
  cbv zeta. unfold getPeerQrConfigText, ScanAll. split; [| split].
  - intros Hlong.
    pose proof (scanTokens_long _ (ErrRead <$> failure cfgData) Hlong) as Herr.
    destruct (scanTokens _ _) as [tokens err]. cbn [snd] in Herr. now subst err.
  - intros Hshort. rewrite (scanTokens_short _ _ Hshort), qrConfigLines_unlines.
    now destruct (failure cfgData).
  - intros line. unfold keptLines. rewrite filter_In, in_map_iff.
    intros [(text & <- & _) Hkept]. split; [apply TrimSpace_idem |].
    unfold isComment in Hkept. now destruct (HasPrefix (TrimSpace text) "#").
Qed.

Lemma rawLines_unlines (lines : list string) :
  Forall (fun l => IndexByte l "010" = None) lines -> rawLines (unlines lines) = lines.
Proof.
  induction 1 as [| l rest Hl _ IH]; [reflexivity |].
  cbn [unlines]. induction l as [| c l IHl].
  - change ("" +:+ String "010" (unlines rest)) with (String "010" (unlines rest)).
    cbn [rawLines]. now rewrite Ascii.eqb_refl, IH.
  - change (String c l +:+ String "010" (unlines rest))
      with (String c (l +:+ String "010" (unlines rest))).
    cbn [rawLines]. cbn [IndexByte] in Hl.
    destruct (Ascii.eqb c "010"); [discriminate |].
    apply fmap_None in Hl. now rewrite (IHl Hl).
Qed.

Lemma rawLines_pieces (s : string) :
  Forall (fun l => IndexByte l "010" = None /\ String.length l <= String.length s)
         (rawLines s).
Proof.
  induction s as [| c s IH]; [constructor |].
  cbn [rawLines String.length].
  destruct (Ascii.eqb c "010") eqn:Ec.
  - constructor; [split; [reflexivity | cbn; lia] |].
    eapply List.Forall_impl; [| exact IH]. cbn. intros l [? ?]. split; [assumption | lia].
  - destruct (rawLines s) as [| l ls].
    + constructor; [| constructor]. cbn [IndexByte String.length].
      rewrite Ec. split; [reflexivity | lia].
    + inversion IH as [| ? ? [Hl Hlen] Hrest]; subst. constructor.
      * cbn [IndexByte String.length]. rewrite Ec, Hl. split; [reflexivity | lia].
      * eapply List.Forall_impl; [| exact Hrest]. cbn. intros x [? ?]. split; [assumption | lia].
Qed.

Lemma dropCR_shape (s : string) (c : ascii) :
  String.length (dropCR s) <= String.length s
  /\ (IndexByte s c = None -> IndexByte (dropCR s) c = None).
Proof.
  induction s as [| x s [IHlen IHidx]]; [split; [reflexivity | auto] |].
  destruct s as [| y s].
  - cbn [dropCR]. destruct (Ascii.eqb x "013"); cbn; split; auto.
  - change (dropCR (String x (String y s))) with (String x (dropCR (String y s))).
    split; [cbn [String.length] in *; lia |].
    cbn [IndexByte]. destruct (Ascii.eqb x c); [discriminate |].
    rewrite !fmap_None. exact IHidx.
Qed.

Lemma length_append (a b : string) :
  String.length (a +:+ b) = String.length a + String.length b.
Proof.
  induction a as [| c a IH]; [reflexivity |].
  change (String c a +:+ b) with (String c (a +:+ b)). cbn [String.length]. now rewrite IH.
Qed.

Lemma TrimSpace_length (s : string) : String.length (TrimSpace s) <= String.length s.
Proof.
  unfold TrimSpace.
  destruct (TrimLeftSpace_split_le (String.length s) s (le_n _)) as (p & Hp).
  destruct (TrimRightSpace_split (TrimLeftSpace s)) as (q & Hq & _).
  rewrite Hp at 2. rewrite Hq at 2. rewrite !length_append. lia.
Qed.

(** What [TrimRightSpace] returns does not end with a carriage return. *)
Lemma dropCR_TrimRightSpace (s : string) : dropCR (TrimRightSpace s) = TrimRightSpace s.
Proof.
  induction s as [| c s IH]; [reflexivity |].
  cbn [TrimRightSpace]. destruct (isSpaceOnly (String c s)) eqn:E; [reflexivity |].
  destruct (TrimRightSpace s) as [| y t] eqn:Et.
  - cbn [dropCR]. destruct (Ascii.eqb_spec c "013") as [-> | _]; [| reflexivity].
    exfalso. apply TrimRightSpace_empty in Et.
    unfold isSpaceOnly in E. cbn [TrimLeftSpace] in E.
    change (asciiSpace "013") with true in E. cbn iota in E.
    rewrite Et in E. discriminate.
  - change (dropCR (String c (String y t))) with (String c (dropCR (String y t))).
    now rewrite IH.
Qed.

Lemma keptLines_fixed (lines : list string) :
  Forall (fun l => TrimSpace l = l /\ isComment l = false) lines ->
  keptLines lines = lines.
Proof.
  unfold keptLines. induction 1 as [| l rest [Ht Hc] _ IH]; [reflexivity |].
  cbn [map List.filter]. rewrite Ht, Hc. cbn [negb]. now rewrite IH.
Qed.

(** The text [getPeerQrConfigText] returns without a name header is one it
    leaves as it is: reading it again gives the same text. *)
Theorem getPeerQrConfigText_idempotent (cfgData : Reader) (displayName : string)
    (out : string) :
  getPeerQrConfigText cfgData false displayName = inr out ->
  forall name,
    getPeerQrConfigText {| content := out; failure := None |} false name = inr out.
Proof.
  intros Hout name.
  destruct (getPeerQrConfigText_lines cfgData) as [Hlong | Hshort].
  { unfold getPeerQrConfigText, ScanAll in Hout.
    pose proof (scanTokens_long _ (ErrRead <$> failure cfgData) Hlong) as Herr.
    destruct (scanTokens _ _) as [tokens err]. cbn [snd] in Herr. subst err.
    discriminate. }
  unfold getPeerQrConfigText, ScanAll in Hout.
  rewrite (scanTokens_short _ _ Hshort), qrConfigLines_unlines in Hout.
  destruct (failure cfgData); [discriminate |]. cbn [andb] in Hout.
  injection Hout as <-.
  set (kept := keptLines (map dropCR (rawLines (content cfgData)))).
  change ("" +:+ unlines kept) with (unlines kept).
  assert (Hkept : Forall (fun l => TrimSpace l = l /\ isComment l = false
                                   /\ IndexByte l "010" = None /\ ~ tooLong l) kept).
  { subst kept. unfold keptLines. apply List.Forall_forall. intros l.
    rewrite filter_In, in_map_iff. intros [(text & <- & Htext) Hc].
    apply in_map_iff in Htext as (raw & <- & Hraw).
    pose proof (rawLines_pieces (content cfgData)) as Hpieces.
    rewrite List.Forall_forall in Hpieces, Hshort.
    destruct (Hpieces raw Hraw) as [Hnl _]. specialize (Hshort raw Hraw).
    destruct (dropCR_shape raw "010") as [Hlen Hidx].
    split; [apply TrimSpace_idem |].
    split; [now destruct (isComment (TrimSpace (dropCR raw))) |].
    split; [now apply TrimSpace_IndexByte, Hidx |].
    pose proof (TrimSpace_length (dropCR raw)). unfold tooLong in *. lia. }
  unfold getPeerQrConfigText, ScanAll. cbn [content failure andb].
  rewrite rawLines_unlines
    by (eapply List.Forall_impl; [| exact Hkept]; cbn; tauto).
  rewrite scanTokens_short
    by (eapply List.Forall_impl; [| exact Hkept]; cbn; tauto).
  rewrite qrConfigLines_unlines. cbn [fmap option_fmap option_map].
  change ("" +:+ ?x) with x. f_equal. f_equal.
  assert (Hcr : map dropCR kept = kept).
  { clear -Hkept. induction Hkept as [| l rest (Ht & _) _ IH]; [reflexivity |].
    cbn [map]. rewrite IH. f_equal. rewrite <- Ht. apply dropCR_TrimRightSpace. }
  rewrite Hcr. apply keptLines_fixed.
  eapply List.Forall_impl; [| exact Hkept]. cbn. tauto.
Qed.

End QrText.

Lemma getPeerQrConfigText_idempotent_witness :
  let text := "[Interface]" +:+ String "013" (String "010" "# key" +:+ String "010" "")
              +:+ "  Address = 10.0.0.2/32  " in
  let out := "[Interface]" +:+ String "010" "Address = 10.0.0.2/32" +:+ String "010" "" in
  configfile.getPeerQrConfigText {| content := text; failure := None |} false "" = inr out
  /\ configfile.getPeerQrConfigText {| content := out; failure := None |} false "" = inr out.
Proof.
  cbv zeta.
  assert (H : configfile.getPeerQrConfigText
                {| content := "[Interface]" +:+ String "013" (String "010" "# key" +:+ String "010" "")
                              +:+ "  Address = 10.0.0.2/32  ";
                   failure := None |} false ""
              = inr ("[Interface]" +:+ String "010" "Address = 10.0.0.2/32" +:+ String "010" ""))
    by (vm_compute; reflexivity).
  split; [exact H |].
  exact (getPeerQrConfigText_idempotent _ _ _ H "").
Defined.

(** ** Sanitizing twice *)

Section Twice.
Import config.
Context `{U : Unicode} `{P : Netip}.

Lemma validateAdvancedSecurity_heap_step (field : string)
    (s : ProvisioningInterfaceAdvancedSecurity) (w : World) (q : loc) :
  heap (snd (validateAdvancedSecurity field s w)) !! q = heap w !! q
  \/ heap (snd (validateAdvancedSecurity field s w)) !! q = Some (TrimSpace (deref w q)).
Proof.
  destruct (validateAdvancedSecurity_shape field s w) as (w0 & Hw0 & [(e & ->) | ->]).
  - left. cbn [snd]. now rewrite Hw0.
  - match goal with
    | |- context [checkPackets ?l w0] =>
      destruct (checkPackets_writes l w0 q) as [-> | [_ ->]]
    end.
    + left. now rewrite Hw0.
    + right. now rewrite (deref_heap w0 w q Hw0).
Qed.

Lemma packetSettled_heap (w1 w2 : World) (q : loc) :
  heap w1 !! q = heap w2 !! q -> packetSettled w1 q -> packetSettled w2 q.
Proof.
  intros E [Hs Ha].
  assert (Hd : deref w2 q = deref w1 q) by (unfold deref, lookup_total, map_lookup_total; now rewrite E).
  unfold packetSettled, packetAccepted in *. rewrite Hd, <- E. auto.
Qed.

Lemma packetSettled_validate (field : string)
    (s : ProvisioningInterfaceAdvancedSecurity) (w : World) (q : loc) :
  packetSettled w q -> packetSettled (snd (validateAdvancedSecurity field s w)) q.
Proof.
  intros Hs. apply (packetSettled_heap w); [| exact Hs].
  destruct (validateAdvancedSecurity_heap_step field s w q) as [-> | ->];
    [reflexivity | apply Hs].
Qed.

(** After a successful validation the block is settled. *)
Lemma blockSettled_validate (field : string)
    (s : ProvisioningInterfaceAdvancedSecurity) (w : World) :
  fst (validateAdvancedSecurity field s w) = None ->
  blockSettled (snd (validateAdvancedSecurity field s w)) s.
Proof.
  intros Hok.
  pose proof (proj1 (validateAdvancedSecurity_parts field s w) Hok)
    as (Hrange & Hheaders & Hchecked).
  pose proof (proj1 (proj2 (validateJunkRange_accepts field s w)) Hrange) as Hcoherent.
  pose proof (proj1 (proj2 (validateHeaders_accepts field s w)) Hheaders) as Hvalid.
  rewrite checkPackets_accepts in Hchecked.
  split; [exact Hcoherent |]. split; [exact Hvalid |]. intros q Hq.
  assert (Hstored : heap (snd (validateAdvancedSecurity field s w)) !! q
                    = Some (TrimSpace (deref w q))).
  { destruct (validateAdvancedSecurity_result field s w) as (w1 & Hheap & Hrun).
    specialize (Hrun Hok). rewrite Hrun in Hok |- *.
    rewrite <- (deref_heap w1 w q Hheap).
    apply checkPackets_trims; [exact Hok |].
    now apply (In_junkPointers field) in Hq. }
  assert (Hd : deref (snd (validateAdvancedSecurity field s w)) q = TrimSpace (deref w q))
    by (unfold deref at 1; now apply lookup_total_correct).
  unfold packetSettled, packetAccepted. rewrite Hd, TrimSpace_idem.
  split; [exact Hstored |]. apply Hchecked. now apply (In_junkPointers field) in Hq.
Qed.

(** A settled block passes again, and the store stays as it is. *)
Lemma blockSettled_again (field : string)
    (s : ProvisioningInterfaceAdvancedSecurity) (w : World) :
  blockSettled w s ->
  fst (validateAdvancedSecurity field s w) = None
  /\ heap (snd (validateAdvancedSecurity field s w)) = heap w.
Proof.
  intros (Hrange & Hheaders & Hpackets).
  assert (Hok : fst (validateAdvancedSecurity field s w) = None).
  { apply validateAdvancedSecurity_parts.
    split; [now apply (validateJunkRange_accepts field s w) |].
    split; [now apply (validateHeaders_accepts field s w) |].
    apply checkPackets_accepts. intros q Hq. apply (In_junkPointers field) in Hq.
    apply (Hpackets q Hq). }
  split; [exact Hok |].
  destruct (validateAdvancedSecurity_result field s w) as (w1 & Hheap & Hrun).
  rewrite (Hrun Hok), checkPackets_trimmed; [exact Hheap |].
  intros q Hq. apply (In_junkPointers field) in Hq.
  rewrite Hheap, (deref_heap w1 w q Hheap). apply (Hpackets q Hq).
Qed.

Lemma hints_heap (id : string) (iface : ProvisioningInterface) (w : World) :
  heap (hints id iface w) = heap w.
Proof.
  unfold hints. cbv zeta.
  destruct (_ && _); destruct (_ && _); reflexivity.
Qed.

(** What a pass of the loop does to the store: nothing, or what
    validating the interface's block does. *)
Lemma sanitizeInterface_world_shape (wgMode : string) (idx : nat) (seen : gset string)
    (iface : ProvisioningInterface) (w : World) :
  let p := sanitizeInterface wgMode idx seen iface w in
  let field := "provisioning.interfaces[" +:+ idOf iface +:+ "].advanced_security" in
  (heap (pass_world p) = heap w /\ (pass_err p = None -> AdvancedSecurity iface = None))
  \/ exists adv,
       AdvancedSecurity iface = Some adv
       /\ heap (pass_world p) = heap (snd (validateAdvancedSecurity field adv w))
       /\ (pass_err p = None -> fst (validateAdvancedSecurity field adv w) = None).
Proof.
  cbv zeta. unfold sanitizeInterface, idOf. cbv zeta.
  set (id := TrimSpace (Identifier iface)).
  destruct (String.eqb id ""); [left; split; [reflexivity | discriminate] |].
  case_bool_decide; [left; split; [reflexivity | discriminate] |].
  destruct (negb _ && negb _); [left; split; [reflexivity | discriminate] |].
  match goal with
  | |- context [AdvancedSecurity ?i] =>
    lazymatch i with
    | iface => fail
    | _ => assert (Hi : AdvancedSecurity i = AdvancedSecurity iface)
             by (destruct (negb _); reflexivity);
           set (iface' := i) in *; clearbody iface'
    end
  end.
  rewrite Hi.
  repeat match goal with
         | |- context [pass_world (if ?b then _ else _)] =>
           destruct b; [left; split; [reflexivity | discriminate] |]
         | |- context [pass_world (match ?o with Some _ => _ | None => _ end)] =>
           destruct o; [left; split; [reflexivity | discriminate] |]
         end.
  destruct (AdvancedSecurity iface) as [adv |].
  2: { left. cbn [pass_world pass_err]. split; [apply hints_heap | reflexivity]. }
  destruct (negb (String.eqb wgMode WireGuardModeAmneziaWG));
    [left; split; [reflexivity | discriminate] |].
  right. exists adv. split; [reflexivity |].
  destruct (validateAdvancedSecurity _ adv w) as [[e |] w2]; cbn [pass_world pass_err stop fst snd].
  - split; [reflexivity | discriminate].
  - split; [apply hints_heap | reflexivity].
Qed.

Lemma packetSettled_same (w1 w2 : World) (q : loc) :
  heap w1 = heap w2 -> packetSettled w1 q -> packetSettled w2 q.
Proof. intros E. apply packetSettled_heap. now rewrite E. Qed.

Lemma blockSettled_same (w1 w2 : World) (s : ProvisioningInterfaceAdvancedSecurity) :
  heap w1 = heap w2 -> blockSettled w1 s -> blockSettled w2 s.
Proof.
  intros E (Hr & Hh & Hp). split; [exact Hr |]. split; [exact Hh |].
  intros q Hq. exact (packetSettled_same w1 w2 q E (Hp q Hq)).
Qed.

(** A pass of the loop keeps settled strings settled, and when it raises
    no error it leaves the interface's block settled. *)
Lemma sanitizeInterface_settles (wgMode : string) (idx : nat) (seen : gset string)
    (iface : ProvisioningInterface) (w : World) :
  let p := sanitizeInterface wgMode idx seen iface w in
  (forall q, packetSettled w q -> packetSettled (pass_world p) q)
  /\ (pass_err p = None ->
      forall adv, AdvancedSecurity iface = Some adv -> blockSettled (pass_world p) adv).
Proof.
  cbv zeta.
  destruct (sanitizeInterface_world_shape wgMode idx seen iface w)
    as [[Hheap Hnone] | (adv & Hadv & Hheap & Hok)]; cbv zeta in *.
  - split.
    + intros q. apply packetSettled_same. now rewrite Hheap.
    + intros Hpass adv Hadv. rewrite (Hnone Hpass) in Hadv. discriminate.
  - split.
    + intros q Hq. apply (packetSettled_same _ _ q (eq_sym Hheap)).
      now apply packetSettled_validate.
    + intros Hpass adv' Hadv'. rewrite Hadv in Hadv'. injection Hadv' as <-.
      apply (blockSettled_same _ _ adv (eq_sym Hheap)).
      now apply blockSettled_validate, Hok.
Qed.

(** The loop, when it raises no error, leaves every block settled. *)
Lemma sanitizeLoop_settles (wgMode : string) :
  forall ifaces idx seen w out w',
    sanitizeLoop wgMode idx seen ifaces w = (None, out, w') ->
    (forall q, packetSettled w q -> packetSettled w' q)
    /\ (forall iface adv, In iface ifaces -> AdvancedSecurity iface = Some adv ->
        blockSettled w' adv).
Proof.
  intros ifaces. induction ifaces as [| x rest IH]; intros idx seen w out w'.
  { cbn. intros [= <- <-]. split; [auto | intros ? ? []]. }
  cbn [sanitizeLoop]. cbv zeta.
  destruct (sanitizeInterface_settles wgMode idx seen x w) as [Hkeep Hblock].
  cbv zeta in Hkeep, Hblock.
  destruct (pass_err (sanitizeInterface wgMode idx seen x w)); [discriminate |].
  destruct (sanitizeLoop wgMode (S idx) _ rest _) as [[err rest'] w1] eqn:Hloop.
  intros [= -> <- <-].
  destruct (IH _ _ _ _ _ Hloop) as [Hkeep' Hblocks].
  split; [auto |].
  intros iface adv [<- | Hin] Hadv; [| eauto].
  destruct (Hblock eq_refl adv Hadv) as (Hr & Hh & Hp).
  split; [exact Hr |]. split; [exact Hh |]. auto.
Qed.

Lemma set_Identifier_same (i : ProvisioningInterface) : set_Identifier (Identifier i) i = i.
Proof. now destruct i. Qed.

Lemma set_Mode_same (i : ProvisioningInterface) : set_Mode (Mode i) i = i.
Proof. now destruct i. Qed.

Lemma guarded_cidrs_pass (field : string) (cidrs : list string) :
  Forall cidrAccepted cidrs ->
  (if (0 <? length cidrs)%nat then validateCidrArray field cidrs else None) = None.
Proof.
  intros Hall. destruct (0 <? length cidrs)%nat; [| reflexivity].
  unfold validateCidrArray.
  destruct (validateCidrArray_from_spec field cidrs 0)
    as [[Hnone _] | (pre & bad & post & -> & _ & Hbad & _)]; [exact Hnone |].
  exfalso. apply Hbad. apply Forall_app in Hall as [_ Hall]. now inversion Hall.
Qed.

(** The mode of a well-formed interface is left as it is. *)
Lemma wellFormed_mode (wgMode : string) (i : ProvisioningInterface) :
  wellFormed wgMode i ->
  modeOf i = "" \/ (modeOf i = Mode i /\ isInterfaceMode (Mode i) = true /\ Mode i <> "").
Proof.
  intros (_ & _ & [Hin | Hblank] & _); [right | now left].
  unfold modeOf. cbn [In] in Hin.
  destruct Hin as [<- | [<- | [<- | []]]]; repeat split; discriminate.
Qed.

(** A pass of the loop over a well-formed interface whose block is
    settled raises no error and changes neither the interface nor the
    store. *)
Lemma sanitizeInterface_again (wgMode : string) (idx : nat) (seen : gset string)
    (i : ProvisioningInterface) (v : World) :
  wellFormed wgMode i ->
  Identifier i ∉ seen ->
  (forall adv, AdvancedSecurity i = Some adv -> blockSettled v adv) ->
  exists v1,
    sanitizeInterface wgMode idx seen i v
    = {| pass_err := None; pass_iface := i;
         pass_seen := {[Identifier i]} ∪ seen; pass_world := v1 |}
    /\ heap v1 = heap v.
Proof.
  intros Hwf Hseen Hsettled.
  pose proof (wellFormed_mode wgMode i Hwf) as Hmode.
  destruct Hwf as (Hid & Htrim & _ & Hport & Hmtu & Hpmtu & Ha & Hb & Hc & Hadv).
  unfold sanitizeInterface. cbv zeta. rewrite Htrim.
  destruct (String.eqb_spec (Identifier i) ""); [contradiction |].
  rewrite bool_decide_eq_false_2 by exact Hseen.
  rewrite set_Identifier_same. fold (modeOf i).
  assert (Hsame : (if negb (String.eqb (modeOf i) "") then set_Mode (modeOf i) i else i) = i).
  { destruct Hmode as [-> | (-> & _ & _)]; [reflexivity |].
    destruct (negb _); [apply set_Mode_same | reflexivity]. }
  assert (Hallowed : negb (String.eqb (modeOf i) "") && negb (isInterfaceMode (modeOf i))
                     = false).
  { destruct Hmode as [-> | (-> & -> & _)]; [reflexivity |]. apply andb_false_r. }
  rewrite Hallowed, Hsame.
  destruct (negb (ListenPort i =? 0)%Z
            && ((ListenPort i <? 1)%Z || (65535 <? ListenPort i)%Z)) eqn:E1; [lia |].
  destruct (Mtu i <? 0)%Z eqn:E2; [lia |].
  destruct (PeerDefMtu i <? 0)%Z eqn:E3; [lia |].
  rewrite !guarded_cidrs_pass by assumption.
  destruct (AdvancedSecurity i) as [adv |] eqn:Eadv.
  - rewrite (Hadv ltac:(discriminate)), String.eqb_refl. cbn [negb].
    destruct (blockSettled_again
                ("provisioning.interfaces[" +:+ Identifier i +:+ "].advanced_security")
                adv v (Hsettled adv eq_refl)) as [Hok Hheap].
    destruct (validateAdvancedSecurity _ adv v) as [o v2]. cbn [fst snd] in Hok, Hheap.
    subst o. eexists. split; [reflexivity |]. now rewrite hints_heap.
  - eexists. split; [reflexivity | apply hints_heap].
Qed.

Lemma sanitizeLoop_again (wgMode : string) :
  forall l idx seen v,
    Forall (wellFormed wgMode) l ->
    List.NoDup (map Identifier l) ->
    (forall x, In x (map Identifier l) -> x ∉ seen) ->
    (forall i adv, In i l -> AdvancedSecurity i = Some adv -> blockSettled v adv) ->
    exists v', sanitizeLoop wgMode idx seen l v = (None, l, v') /\ heap v' = heap v.
Proof.
  intros l. induction l as [| x rest IH]; intros idx seen v Hwf Hnodup Hfresh Hsettled.
  { exists v. split; reflexivity. }
  inversion Hwf as [| ? ? Hx Hrest]; subst.
  inversion Hnodup as [| ? ? Hnotin Hnodup']; subst.
  destruct (sanitizeInterface_again wgMode idx seen x v Hx)
    as (v1 & Hpass & Hheap).
  { apply Hfresh. now left. }
  { intros adv. apply Hsettled. now left. }
  cbn [sanitizeLoop]. cbv zeta. rewrite Hpass. cbn [pass_err pass_seen pass_world pass_iface].
  destruct (IH (S idx) ({[Identifier x]} ∪ seen) v1 Hrest Hnodup') as (v' & Hloop & Hheap').
  { intros y Hy Hin. apply elem_of_union in Hin as [Hin | Hin].
    - apply elem_of_singleton in Hin. subst y. contradiction.
    - apply (Hfresh y); [now right | exact Hin]. }
  { intros i adv Hi Hadv. apply (blockSettled_same v v1 adv (eq_sym Hheap)).
    apply (Hsettled i); [now right | exact Hadv]. }
  exists v'. rewrite Hloop. split; [reflexivity | congruence].
Qed.

Lemma AdvancedSecurity_normalized (i : ProvisioningInterface) :
  AdvancedSecurity (normalized i) = AdvancedSecurity i.
Proof. unfold normalized. now destruct (String.eqb _ _). Qed.

Lemma sanitizeProvisioningInterfaces_again (c c' : Config) (w w' : World) :
  sanitizeProvisioningInterfaces c w = (None, c', w') ->
  exists w'', sanitizeProvisioningInterfaces c' w' = (None, c', w'') /\ heap w'' = heap w'.
Proof.
  unfold sanitizeProvisioningInterfaces at 1.
  destruct (Interfaces c) as [| x rest] eqn:E.
  { cbn. intros [= <- <-]. exists w. unfold sanitizeProvisioningInterfaces.
    now rewrite E. }
  cbn [length Nat.eqb].
  destruct (sanitizeLoop _ _ _ _ _) as [[err out] w1] eqn:Hloop.
  intros [= -> <- <-].
  destruct (sanitizeLoop_pass _ _ _ _ _ _ _ Hloop) as (Hout & Hall & Hnodup & _).
  destruct (sanitizeLoop_settles _ _ _ _ _ _ _ Hloop) as [_ Hblocks].
  destruct (sanitizeLoop_again (WireGuardMode c) out 0 ∅ w1 Hall) as (w'' & Hagain & Hheap).
  - rewrite Hout, map_map. rewrite (map_ext _ idOf) by apply Identifier_normalized.
    exact Hnodup.
  - intros y _. apply not_elem_of_empty.
  - intros i adv Hi Hadv. rewrite Hout in Hi. apply in_map_iff in Hi as (i0 & <- & Hi0).
    rewrite AdvancedSecurity_normalized in Hadv. eauto.
  - exists w''. unfold sanitizeProvisioningInterfaces. cbn [Interfaces WireGuardMode].
    rewrite Hagain. split; [| exact Hheap].
    destruct out; [discriminate Hout | reflexivity].
Qed.

(** Sanitizing is idempotent: a configuration that [Sanitize] accepted and
    normalized is accepted again and left exactly as it is; the strings in
    the store stay as they are too (only warnings are logged anew). *)
Theorem Sanitize_idempotent (c c' : Config) (w w' : World) :
  Sanitize c w = (None, c', w') ->
  exists w'', Sanitize c' w' = (None, c', w'') /\ heap w'' = heap w'.
Proof.
  unfold Sanitize at 1. cbv zeta.
  set (m := if String.eqb (TrimSpace (ToLower (WireGuardMode c))) ""
            then WireGuardModeDisabled else TrimSpace (ToLower (WireGuardMode c))).
  destruct (String.eqb m WireGuardModeDisabled || String.eqb m WireGuardModeWireGuard
            || String.eqb m WireGuardModeAmneziaWG) eqn:Hvalid; [| discriminate].
  intros Hrun.
  assert (Hmode : WireGuardMode c' = m).
  { unfold sanitizeProvisioningInterfaces in Hrun. cbn [Interfaces WireGuardMode] in Hrun.
    destruct (length (Interfaces c) =? 0)%nat; [now injection Hrun as <- _ |].
    destruct (sanitizeLoop _ _ _ _ _) as [[err out] w1]. now injection Hrun as _ <- _. }
  destruct (sanitizeProvisioningInterfaces_again _ _ _ _ Hrun) as (w'' & Hagain & Hheap).
  exists w''. split; [| exact Hheap].
  unfold Sanitize. cbv zeta. rewrite Hmode.
  assert (Hfixed : TrimSpace (ToLower m) = m /\ m <> "").
  { rewrite !orb_true_iff, !String.eqb_eq in Hvalid.
    destruct Hvalid as [[-> | ->] | ->]; split; (reflexivity || discriminate). }
  destruct Hfixed as [-> Hne].
  destruct (String.eqb_spec m ""); [contradiction |].
  rewrite Hvalid.
  replace {| WireGuardMode := m; Interfaces := Interfaces c' |} with c'
    by (destruct c'; cbn in *; now subst).
  exact Hagain.
Qed.

End Twice.

Lemma Sanitize_idempotent_witness :
  let iface := sampleInterface " wg0 " " Server "
                 (Some (sampleBlock 4 50 100 " 0x10 " (Some 1%positive))) in
  let c := {| config.WireGuardMode := " AmneziaWG "; config.Interfaces := [iface] |} in
  let first := @config.Sanitize asciiLetters looseNetip c (sampleWorld 1%positive " <b 0x01> ") in
  fst (fst first) = None
  /\ config.deref (snd first) 1%positive = "<b 0x01>"
  /\ exists w'', @config.Sanitize asciiLetters looseNetip (snd (fst first)) (snd first)
                 = (None, snd (fst first), w'')
                 /\ config.heap w'' = config.heap (snd first).
Proof.
  cbv zeta.
  assert (Hfirst :
    fst (fst (@config.Sanitize asciiLetters looseNetip
                {| config.WireGuardMode := " AmneziaWG ";
                   config.Interfaces :=
                     [sampleInterface " wg0 " " Server "
                        (Some (sampleBlock 4 50 100 " 0x10 " (Some 1%positive)))] |}
                (sampleWorld 1%positive " <b 0x01> "))) = None
    /\ config.deref
         (snd (@config.Sanitize asciiLetters looseNetip
                 {| config.WireGuardMode := " AmneziaWG ";
                    config.Interfaces :=
                      [sampleInterface " wg0 " " Server "
                         (Some (sampleBlock 4 50 100 " 0x10 " (Some 1%positive)))] |}
                 (sampleWorld 1%positive " <b 0x01> "))) 1%positive = "<b 0x01>")
    by (vm_compute; split; reflexivity).
  destruct (@config.Sanitize asciiLetters looseNetip _ (sampleWorld 1%positive " <b 0x01> "))
    as [[err c'] w'] eqn:E.
  cbn [fst snd] in *. destruct Hfirst as [-> Hderef].
  split; [reflexivity |]. split; [exact Hderef |].
  exact (@Sanitize_idempotent asciiLetters looseNetip _ _ _ _ E).
Defined.

(** ** Magic headers in decimal *)

Section DecimalHeaders.
Import config.

Lemma string_of_uint_allDigits (d : Decimal.uint) :
  allDigits (NilEmpty.string_of_uint d) = true.
Proof. induction d; cbn; auto. Qed.

Lemma isDecDigit_no_space (c : ascii) :
  isDecDigit c = true ->
  asciiSpace c = false
  /\ (forall c2, isSpace2 c c2 = false)
  /\ (forall c2 c3, isSpace3 c c2 c3 = false).
Proof.
  unfold isDecDigit, asciiSpace, isSpace2, isSpace3. cbv zeta. intros H.
  split; [lia |]. split; [intros c2 | intros c2 c3].
  - destruct (N.eqb_spec (byte_val c) 194); [lia | reflexivity].
  - destruct (N.eqb_spec (byte_val c) 225), (N.eqb_spec (byte_val c) 226),
      (N.eqb_spec (byte_val c) 227); first [lia | reflexivity].
Qed.

Lemma TrimLeftSpace_digit (c : ascii) (r : string) :
  isDecDigit c = true -> TrimLeftSpace (String c r) = String c r.
Proof.
  intros H. destruct (isDecDigit_no_space c H) as (H1 & H2 & H3).
  cbn [TrimLeftSpace]. rewrite H1.
  destruct r as [| c2 r]; [reflexivity |]. rewrite H2.
  destruct r as [| c3 r]; [reflexivity |]. now rewrite H3.
Qed.

Lemma TrimSpace_digits (s : string) : allDigits s = true -> TrimSpace s = s.
Proof.
  intros H. unfold TrimSpace.
  assert (Hleft : TrimLeftSpace s = s).
  { destruct s as [| c r]; [reflexivity |]. cbn in H. apply andb_true_iff in H as [H _].
    now apply TrimLeftSpace_digit. }
  rewrite Hleft. induction s as [| c r IH]; [reflexivity |].
  cbn in H. apply andb_true_iff in H as [Hc Hr].
  cbn [TrimRightSpace]. unfold isSpaceOnly. rewrite (TrimLeftSpace_digit c r Hc).
  cbn [String.eqb]. f_equal. apply IH; [exact Hr |].
  destruct r as [| c2 r2]; [reflexivity |]. cbn in Hr. apply andb_true_iff in Hr as [Hc2 _].
  now apply TrimLeftSpace_digit.
Qed.

Lemma uintVal_le (d : Decimal.uint) : forall acc, (0 <= acc -> acc <= uintVal acc d)%Z.
Proof.
  induction d; intros acc Hacc; cbn [uintVal]; [lia | ..];
    (etransitivity; [| apply IHd]; lia).
Qed.

Lemma parseUintLoop_digit (c : ascii) (k : N) (r : string) (acc : N) :
  uintDigit c = Some k -> (k < 10)%N -> Ascii.eqb c "_" = false ->
  (acc <= 2 ^ 32 - 1)%N ->
  parseUintLoop true 10 ((2 ^ 64 - 1) / 10 + 1) (2 ^ 32 - 1) acc (String c r)
  = if (2 ^ 32 - 1 <? acc * 10 + k)%N then inl ErrRange
    else parseUintLoop true 10 ((2 ^ 64 - 1) / 10 + 1) (2 ^ 32 - 1) (acc * 10 + k) r.
Proof.
  intros Hd Hk Hu Hacc. cbn [parseUintLoop]. rewrite Hu, Hd. cbn [andb]. cbv zeta.
  destruct (N.leb_spec 10 k); [lia |].
  change ((2 ^ 64 - 1) / 10 + 1)%N with 1844674407370955162%N.
  change (2 ^ 32 - 1)%N with 4294967295%N in *.
  change (2 ^ 64)%N with 18446744073709551616%N.
  destruct (N.leb_spec 1844674407370955162 acc); [lia |].
  rewrite (N.mod_small (acc * 10)) by lia.
  rewrite (N.mod_small (acc * 10 + k)) by lia.
  destruct (N.ltb_spec (acc * 10 + k) (acc * 10)); [lia |]. reflexivity.
Qed.

Lemma parseUintLoop_decimal (d : Decimal.uint) :
  forall acc : N,
    (acc <= 2 ^ 32 - 1)%N ->
    parseUintLoop true 10 ((2 ^ 64 - 1) / 10 + 1) (2 ^ 32 - 1) acc
      (NilEmpty.string_of_uint d)
    = if (uintVal (Z.of_N acc) d <=? 2 ^ 32 - 1)%Z
      then inr (Z.to_N (uintVal (Z.of_N acc) d)) else inl ErrRange.
Proof.
  change (2 ^ 32 - 1)%Z with 4294967295%Z.
  induction d; intros acc Hacc; cbn [NilEmpty.string_of_uint uintVal].
  { cbn [parseUintLoop]. change (2 ^ 32 - 1)%N with 4294967295%N in Hacc.
    destruct (Z.leb_spec (Z.of_N acc) 4294967295); [| lia]. now rewrite N2Z.id. }
  all: lazymatch goal with
       | IH : context [parseUintLoop], Ha : (?acc <= _)%N
         |- parseUintLoop _ _ _ _ _ (String ?c ?r)
            = (if (uintVal (10 * Z.of_N ?acc + ?k) ?l <=? _)%Z then _ else _) =>
         rewrite (parseUintLoop_digit c (Z.to_N k) r acc eq_refl ltac:(cbn; lia) eq_refl Ha);
         pose proof (uintVal_le l (10 * Z.of_N acc + k) ltac:(lia)) as Hmono;
         replace (10 * Z.of_N acc + k)%Z with (Z.of_N (acc * 10 + Z.to_N k)) in * by lia;
         change (2 ^ 32 - 1)%N with 4294967295%N in *;
         destruct (N.ltb_spec 4294967295 (acc * 10 + Z.to_N k));
         [ destruct (Z.leb_spec (uintVal (Z.of_N (acc * 10 + Z.to_N k)) l) 4294967295);
           [lia | reflexivity]
         | apply IH; change (2 ^ 32 - 1)%N with 4294967295%N; lia ]
       end.
Qed.

Lemma nzhead_head (d : Decimal.uint) :
  match Decimal.nzhead d with Decimal.D0 _ => False | _ => True end.
Proof. induction d; cbn; auto. Qed.

Lemma to_uint_head (p : positive) :
  exists c r, NilEmpty.string_of_uint (Pos.to_uint p) = String c r
              /\ Ascii.eqb c "0" = false.
Proof.
  pose proof (DecimalPos.Unsigned.to_of (Pos.to_uint p)) as Hnorm.
  rewrite DecimalPos.Unsigned.of_to in Hnorm. cbn [N.to_uint] in Hnorm.
  pose proof (DecimalPos.Unsigned.to_uint_nonzero p) as Hnz.
  pose proof (nzhead_head (Pos.to_uint p)) as Hhead.
  unfold Decimal.unorm in Hnorm.
  destruct (Decimal.nzhead (Pos.to_uint p)) eqn:E; cbn iota in Hnorm, Hhead;
    try contradiction.
  all: rewrite Hnorm; cbn [NilEmpty.string_of_uint]; eauto.
Qed.

Lemma allDigits_no_underscore (s : string) :
  allDigits s = true -> existsb (Ascii.eqb "_") (list_ascii_of_string s) = false.
Proof.
  unfold allDigits. induction s as [| c r IH]; [reflexivity |].
  cbn [list_ascii_of_string forallb existsb].
  intros [Hc Hr]%andb_true_iff. rewrite (IH Hr), orb_false_r.
  destruct (Ascii.eqb_spec "_" c) as [<- | _]; [discriminate Hc | reflexivity].
Qed.

(** [strconv.ParseUint] in base 0 with 32 bits on what [strconv.Itoa]
    writes for a number that is not negative. *)
Lemma ParseUint_decimal (n : Z) :
  (0 <= n)%Z ->
  ParseUint (Itoa n) 0 32
  = if (n <=? 2 ^ 32 - 1)%Z then inr (Z.to_N n) else inl ErrRange.
Proof.
  intros Hn. destruct n as [| p | p]; [reflexivity | | lia].
  unfold Itoa. cbn [Z.to_int NilZero.string_of_int].
  pose proof (DecimalPos.Unsigned.to_uint_nonnil p) as Hnil.
  replace (NilZero.string_of_uint (Pos.to_uint p))
    with (NilEmpty.string_of_uint (Pos.to_uint p))
    by (unfold NilZero.string_of_uint; now destruct (Pos.to_uint p)).
  destruct (to_uint_head p) as (c & r & Hs & Hc).
  pose proof (parseUintLoop_decimal (Pos.to_uint p) 0 ltac:(cbn; lia)) as Hloop.
  pose proof (allDigits_no_underscore _ (string_of_uint_allDigits (Pos.to_uint p))) as Hu.
  rewrite <- of_uint_val, DecimalPos.Unsigned.of_to in Hloop. cbn [Z.of_N] in Hloop.
  rewrite Hs in *. unfold ParseUint. rewrite Hc.
  cbn [N.eqb N.leb N.ltb N.compare Pos.compare Pos.compare_cont andb orb negb].
  cbv zeta. rewrite Hloop, Hu.
  now destruct (Z.pos p <=? 2 ^ 32 - 1)%Z.
Qed.

(** A magic header written in decimal is accepted exactly when the number
    fits a [uint32]; a larger one is rejected as out of range. *)
Theorem validateAwgUint32IfSet_decimal (field : string) (n : Z) (w : World) :
  (0 <= n)%Z ->
  (n < 2 ^ 32 ->
     validateAwgUint32IfSet field (Itoa n) w = (None, w) /\ headerAccepted (Itoa n))%Z
  /\ (2 ^ 32 <= n ->
      validateAwgUint32IfSet field (Itoa n) w = (Some (ErrNotUint32 field ErrRange), w)
      /\ ~ headerAccepted (Itoa n))%Z.
Proof.
  intros Hn.
  assert (Htrim : TrimSpace (Itoa n) = Itoa n).
  { apply TrimSpace_digits. unfold Itoa.
    destruct n as [| p | p]; [reflexivity | | lia].
    cbn [Z.to_int NilZero.string_of_int]. unfold NilZero.string_of_uint.
    pose proof (string_of_uint_allDigits (Pos.to_uint p)).
    now destruct (Pos.to_uint p). }
  unfold validateAwgUint32IfSet, headerAccepted. cbv zeta. rewrite Htrim.
  destruct (String.eqb_spec (Itoa n) "") as [E | E]; [now apply Itoa_nonempty in E |].
  rewrite (ParseUint_decimal n Hn).
  destruct (Z.leb_spec n (2 ^ 32 - 1)); split; intros Hcase; try lia.
  - split; [reflexivity | eauto].
  - split; [reflexivity |]. intros [? | (m & [=])]. contradiction.
Qed.

End DecimalHeaders.

Lemma validateAwgUint32IfSet_decimal_witness :
  config.validateAwgUint32IfSet "h1" "4294967295" (sampleWorld 1%positive "")
  = (None, sampleWorld 1%positive "")
  /\ config.validateAwgUint32IfSet "h1" "4294967296" (sampleWorld 1%positive "")
     = (Some (config.ErrNotUint32 "h1" ErrRange), sampleWorld 1%positive "").
Proof.
  split.
  - apply (validateAwgUint32IfSet_decimal "h1" 4294967295 (sampleWorld 1%positive "")); lia.
  - apply (validateAwgUint32IfSet_decimal "h1" 4294967296 (sampleWorld 1%positive "")); lia.
Defined.

(** ** The handlers of a saved interface *)

Section SavedHandlers.
Import domain configfile.
Context `{Names : ConfigFileNames}.

Lemma handleInterfaceSavedEvent_calls (m : Manager) (iface : Interface) :
  SaveConfig iface = true ->
  fst (handleInterfaceSavedEvent m iface)
  = CallLogDebug "handling interface save event" (Identifier iface)
    :: fst (PersistInterfaceConfig m (Identifier iface))
       ++ match snd (PersistInterfaceConfig m (Identifier iface)) with
          | Some _ =>
            [CallLogError "failed to automatically persist interface config"
               (Identifier iface)]
          | None => []
          end.
Proof.
  intros E. unfold handleInterfaceSavedEvent. rewrite E. cbn -[PersistInterfaceConfig].
  destruct (PersistInterfaceConfig m (Identifier iface)) as [t [e |]]; cbn;
    rewrite ?app_nil_r; reflexivity.
Qed.

Lemma handleInterfaceDeleteEvent_calls (m : Manager) (iface : Interface) :
  SaveConfig iface = true ->
  fst (handleInterfaceDeleteEvent m iface)
  = CallLogDebug "handling interface delete event" (Identifier iface)
    :: CallDeleteFile (GetConfigFileName iface)
    :: match DeleteFile (fsRepo m) (GetConfigFileName iface) with
       | Some _ =>
         [CallLogError "failed to remove persisted interface config" (Identifier iface)]
       | None => []
       end.
Proof.
  intros E. unfold handleInterfaceDeleteEvent, UnpersistInterfaceConfig. rewrite E. cbn.
  now destruct (DeleteFile (fsRepo m) (GetConfigFileName iface)).
Qed.

(** For an interface with [SaveConfig = true]: the save handler persists
    the interface by its identifier, logs an error exactly when that
    fails, never deletes a file and writes one at most; the delete handler
    deletes the file named after the event's interface, asks neither the
    database nor the renderer, and logs an error exactly when the
    deletion fails. *)
Theorem saved_interface_handlers (m : Manager) (iface : Interface) :
  SaveConfig iface = true ->
  let saved := fst (handleInterfaceSavedEvent m iface) in
  let deleted := fst (handleInterfaceDeleteEvent m iface) in
  (exists logged,
     saved = CallLogDebug "handling interface save event" (Identifier iface)
             :: fst (PersistInterfaceConfig m (Identifier iface)) ++ logged
     /\ List.filter isFileSystemCall logged = []
     /\ (logged = [] <-> snd (PersistInterfaceConfig m (Identifier iface)) = None))
  /\ (forall path, ~ In (CallDeleteFile path) saved)
  /\ (length (List.filter isFileSystemCall saved) <= 1)%nat
  /\ List.filter isFileSystemCall deleted = [CallDeleteFile (GetConfigFileName iface)]
  /\ (forall c, In c deleted ->
        match c with
        | CallDeleteFile _ | CallLogDebug _ _ | CallLogError _ _ => True
        | _ => False
        end)
  /\ (In (CallLogError "failed to remove persisted interface config" (Identifier iface))
         deleted
      <-> DeleteFile (fsRepo m) (GetConfigFileName iface) <> None).
Proof.
  intros E. cbv zeta.
  rewrite (handleInterfaceSavedEvent_calls m iface E),
    (handleInterfaceDeleteEvent_calls m iface E).
  destruct (PersistInterfaceConfig_discipline m (Identifier iface)) as [Hnodel Hone].
  set (logged := match snd (PersistInterfaceConfig m (Identifier iface)) with
                 | Some _ => [CallLogError "failed to automatically persist interface config"
                                (Identifier iface)]
                 | None => []
                 end).
  assert (Hquiet : List.filter isFileSystemCall logged = [])
    by (subst logged; now destruct (snd _)).
  split.
  { exists logged. split; [reflexivity |]. split; [exact Hquiet |].
    subst logged. destruct (snd _); split; (reflexivity || discriminate). }
  split.
  { intros path [[=] | H]. apply in_app_or in H as [H | H]; [exact (Hnodel path H) |].
    subst logged. destruct (snd _); cbn in H; intuition discriminate. }
  split.
  { cbn [List.filter isFileSystemCall]. rewrite filter_app_calls, Hquiet, app_nil_r.
    exact Hone. }
  destruct (DeleteFile (fsRepo m) (GetConfigFileName iface)) as [cause |].
  - split; [reflexivity |]. split.
    + intros c [<- | [<- | [<- | []]]]; exact I.
    + split; [discriminate |]. intros _. cbn. auto.
  - split; [reflexivity |]. split.
    + intros c [<- | [<- | []]]; exact I.
    + split; [| congruence]. intros [[=] | [[=] | []]].
Qed.

End SavedHandlers.

Lemma saved_interface_handlers_witness :
  let wg1 := {| domain.Identifier := "wg1"; domain.DisplayName := "";
                domain.SaveConfig := true |} in
  List.filter configfile.isFileSystemCall
    (fst (@configfile.handleInterfaceDeleteEvent confNames (sampleManager wg1) wg1))
  = [configfile.CallDeleteFile "wg1.conf"]
  /\ List.filter configfile.isFileSystemCall
       (fst (@configfile.handleInterfaceSavedEvent confNames (sampleManager wg1) wg1))
     = [configfile.CallWriteFile "wg1.conf" "[Interface]"].
Proof.
  cbv zeta.
  destruct (@saved_interface_handlers confNames
              (sampleManager {| domain.Identifier := "wg1"; domain.DisplayName := "";
                                domain.SaveConfig := true |})
              {| domain.Identifier := "wg1"; domain.DisplayName := "";
                 domain.SaveConfig := true |} eq_refl)
    as (_ & _ & _ & Hdel & _).
  split; [exact Hdel | reflexivity].
Defined.

(** ** Endpoints written as host and port *)

Section JoinedEndpoint.
Import configfile.

Lemma plainChar_no_space (c : ascii) :
  plainChar c = true ->
  asciiSpace c = false
  /\ (forall c2, isSpace2 c c2 = false)
  /\ (forall c2 c3, isSpace3 c c2 c3 = false).
Proof.
  unfold plainChar, asciiSpace, isSpace2, isSpace3. cbv zeta. intros H.
  split; [lia |]. split; [intros c2 | intros c2 c3].
  - destruct (N.eqb_spec (byte_val c) 194); [lia | reflexivity].
  - destruct (N.eqb_spec (byte_val c) 225), (N.eqb_spec (byte_val c) 226),
      (N.eqb_spec (byte_val c) 227); first [lia | reflexivity].
Qed.

Lemma TrimLeftSpace_plain (c : ascii) (r : string) :
  plainChar c = true -> TrimLeftSpace (String c r) = String c r.
Proof.
  intros H. destruct (plainChar_no_space c H) as (H1 & H2 & H3).
  cbn [TrimLeftSpace]. rewrite H1.
  destruct r as [| c2 r]; [reflexivity |]. rewrite H2.
  destruct r as [| c3 r]; [reflexivity |]. now rewrite H3.
Qed.

Lemma TrimSpace_plain (s : string) : plainText s = true -> TrimSpace s = s.
Proof.
  intros H. unfold TrimSpace, plainText in *.
  assert (Hleft : TrimLeftSpace s = s).
  { destruct s as [| c r]; [reflexivity |].
    cbn [list_ascii_of_string forallb] in H. apply andb_true_iff in H as [H _].
    now apply TrimLeftSpace_plain. }
  rewrite Hleft. induction s as [| c r IH]; [reflexivity |].
  cbn [list_ascii_of_string forallb] in H. apply andb_true_iff in H as [Hc Hr].
  cbn [TrimRightSpace]. unfold isSpaceOnly. rewrite (TrimLeftSpace_plain c r Hc).
  cbn [String.eqb]. f_equal. apply IH; [exact Hr |].
  destruct r as [| c2 r2]; [reflexivity |].
  cbn [list_ascii_of_string forallb] in Hr. apply andb_true_iff in Hr as [Hc2 _].
  now apply TrimLeftSpace_plain.
Qed.

Lemma plainText_app (a b : string) :
  plainText (a +:+ b) = plainText a && plainText b.
Proof.
  unfold plainText. induction a as [| c a IH]; [reflexivity |].
  change (String c a +:+ b) with (String c (a +:+ b)).
  cbn [list_ascii_of_string forallb]. now rewrite IH, andb_assoc.
Qed.

(** The bytes of what [strconv.Itoa] writes: digits, after a minus sign
    for a negative number. *)
Lemma Itoa_bytes (i : Z) :
  plainText (Itoa i) = true
  /\ forall c, isDecDigit c = false -> c <> "-"%char -> IndexByte (Itoa i) c = None.
Proof.
  assert (Hdigits : forall d,
            plainText (NilEmpty.string_of_uint d) = true
            /\ forall c, isDecDigit c = false -> IndexByte (NilEmpty.string_of_uint d) c = None).
  { induction d as [| d [IH1 IH2] | d [IH1 IH2] | d [IH1 IH2] | d [IH1 IH2] | d [IH1 IH2]
                    | d [IH1 IH2] | d [IH1 IH2] | d [IH1 IH2] | d [IH1 IH2] | d [IH1 IH2]];
      [split; [reflexivity | reflexivity] | ..];
      (split; [exact IH1 |]; intros c Hc; cbn [NilEmpty.string_of_uint IndexByte];
       match goal with
       | |- (if Ascii.eqb ?x c then _ else _) = None =>
         destruct (Ascii.eqb_spec x c) as [<- | _]; [discriminate Hc |];
         now rewrite (IH2 c Hc)
       end). }
  unfold Itoa. destruct (Z.to_int i) as [d | d]; cbn [NilZero.string_of_int];
    unfold NilZero.string_of_uint.
  - destruct (Hdigits d) as [H1 H2].
    destruct d; (split; [first [reflexivity | exact H1] |]); intros c Hc _;
      first [ apply (H2 c Hc)
            | cbn [IndexByte]; destruct (Ascii.eqb_spec "0" c) as [<- | _];
              [discriminate Hc | reflexivity] ].
  - destruct (Hdigits d) as [H1 H2].
    assert (Hsign : forall s, plainText s = true ->
              (forall c, isDecDigit c = false -> IndexByte s c = None) ->
              plainText (String "-" s) = true
              /\ forall c, isDecDigit c = false -> c <> "-"%char ->
                           IndexByte (String "-" s) c = None).
    { intros s Hs1 Hs2. split; [exact Hs1 |]. intros c Hc Hm. cbn [IndexByte].
      destruct (Ascii.eqb_spec "-" c) as [<- | _]; [contradiction |].
      now rewrite (Hs2 c Hc). }
    destruct d; first [apply Hsign; assumption | apply Hsign; [reflexivity |]];
      intros c Hc; cbn [IndexByte];
      destruct (Ascii.eqb_spec "0" c) as [<- | _]; [discriminate Hc | reflexivity].
Qed.

Lemma LastIndexByte_absent (s : string) (c : ascii) :
  IndexByte s c = None -> LastIndexByte s c = None.
Proof.
  induction s as [| x s IH]; [reflexivity |]. cbn [IndexByte LastIndexByte].
  destruct (Ascii.eqb x c); [discriminate |]. rewrite fmap_None. intros H.
  now rewrite (IH H).
Qed.

Lemma LastIndexByte_joined (host rest : string) (c : ascii) :
  IndexByte rest c = None ->
  LastIndexByte (host +:+ String c rest) c = Some (String.length host).
Proof.
  intros H. induction host as [| x host IH].
  - change ("" +:+ String c rest) with (String c rest). cbn [LastIndexByte String.length].
    now rewrite (LastIndexByte_absent rest c H), Ascii.eqb_refl.
  - change (String x host +:+ String c rest) with (String x (host +:+ String c rest)).
    cbn [LastIndexByte String.length]. now rewrite IH.
Qed.

Lemma substring_prefix (a b : string) :
  substring 0 (String.length a) (a +:+ b) = a.
Proof.
  induction a as [| x a IH]; [now destruct b |].
  change (String x a +:+ b) with (String x (a +:+ b)). cbn [String.length substring].
  now rewrite IH.
Qed.

Lemma slice_from_suffix (a b : string) : slice_from (String.length a) (a +:+ b) = b.
Proof.
  induction a as [| x a IH]; [now destruct b |].
  change (String x a +:+ b) with (String x (a +:+ b)). exact IH.
Qed.

Lemma HasPrefix_absent (s : string) (c : ascii) :
  IndexByte s c = None -> HasPrefix s (String c "") = false.
Proof.
  destruct s as [| x s]; [reflexivity |]. cbn [IndexByte HasPrefix].
  rewrite (Ascii.eqb_sym c x). destruct (Ascii.eqb x c); cbn iota; [discriminate |].
  intros _. cbn [andb]. reflexivity.
Qed.

Lemma SplitHostPort_joined (host port : string) :
  IndexByte host ":" = None -> IndexByte host "[" = None -> IndexByte host "]" = None ->
  IndexByte port ":" = None -> IndexByte port "[" = None -> IndexByte port "]" = None ->
  SplitHostPort (host +:+ String ":" port) = inr (host, port).
Proof.
  intros Hh1 Hh2 Hh3 Hp1 Hp2 Hp3.
  assert (Hall : forall c, c <> ":"%char -> IndexByte host c = None -> IndexByte port c = None ->
                           IndexByte (host +:+ String ":" port) c = None).
  { intros c Hc H1 H2. apply IndexByte_app. split; [exact H1 |]. cbn [IndexByte].
    destruct (Ascii.eqb_spec ":" c); [congruence |]. now rewrite H2. }
  unfold SplitHostPort. rewrite (LastIndexByte_joined host port ":" Hp1).
  rewrite (HasPrefix_absent _ "[" (Hall "[" ltac:(discriminate) Hh2 Hp2))%char.
  cbv zeta. unfold slice. rewrite Nat.sub_0_r, substring_prefix, Hh1.
  cbn [slice_from].
  rewrite (Hall "[" ltac:(discriminate) Hh2 Hp2)%char, (Hall "]" ltac:(discriminate) Hh3 Hp3)%char.
  replace (String.length host + 1) with (String.length (host +:+ ":"))
    by (rewrite length_append; reflexivity).
  replace (host +:+ String ":" port) with ((host +:+ ":") +:+ port)
    by (now rewrite append_assoc).
  now rewrite slice_from_suffix.
Qed.

(** An endpoint written as a host, a colon and a port in decimal is read
    back as that host and port, for every host of printable ASCII without
    spaces, colons and brackets and every port; for the empty host the
    default host is returned.  The port is not checked against the range
    of ports. *)
Theorem parseEndpointHostPort_joined (host : string) (port : Z) :
  plainText host = true ->
  IndexByte host ":" = None -> IndexByte host "[" = None -> IndexByte host "]" = None ->
  isInt port ->
  parseEndpointHostPort (host +:+ ":" +:+ Itoa port)
  = (if String.eqb host "" then "127.0.0.1" else host, port).
Proof.
  intros Hplain H1 H2 H3 Hport.
  destruct (Itoa_bytes port) as [Hp Hbytes].
  assert (Htext : TrimSpace (host +:+ String ":" (Itoa port)) = host +:+ String ":" (Itoa port)).
  { apply TrimSpace_plain. rewrite plainText_app, Hplain.
    unfold plainText in *. cbn [list_ascii_of_string forallb andb]. exact Hp. }
  change (host +:+ ":" +:+ Itoa port) with (host +:+ String ":" (Itoa port)).
  unfold parseEndpointHostPort. cbv zeta. rewrite Htext.
  destruct (String.eqb_spec (host +:+ String ":" (Itoa port)) "") as [E | _].
  { destruct host; discriminate E. }
  rewrite (SplitHostPort_joined host (Itoa port) H1 H2 H3)
    by (apply Hbytes; [reflexivity | discriminate]).
  rewrite (TrimSpace_plain host Hplain), (Atoi_Itoa port Hport).
  now destruct (String.eqb host "").
Qed.

End JoinedEndpoint.

Lemma parseEndpointHostPort_joined_witness :
  configfile.parseEndpointHostPort "vpn.example.org:51821" = ("vpn.example.org", 51821%Z)
  /\ configfile.parseEndpointHostPort ":70000" = ("127.0.0.1", 70000%Z).
Proof.
  split.
  - apply (parseEndpointHostPort_joined "vpn.example.org" 51821);
      first [reflexivity | unfold isInt; lia].
  - apply (parseEndpointHostPort_joined "" 70000); first [reflexivity | unfold isInt; lia].
Defined.

Section BracketedEndpoint.
Import configfile.

Lemma IndexByte_joined (a b : string) (c : ascii) :
  IndexByte a c = None -> IndexByte (a +:+ String c b) c = Some (String.length a).
Proof.
  intros H. induction a as [| x a IH].
  - change ("" +:+ String c b) with (String c b). cbn [IndexByte String.length].
    now rewrite Ascii.eqb_refl.
  - change (String x a +:+ String c b) with (String x (a +:+ String c b)).
    cbn [IndexByte String.length] in *.
    destruct (Ascii.eqb x c); [discriminate |].
    apply fmap_None in H. now rewrite (IH H).
Qed.

Lemma SplitHostPort_bracketed (host port : string) :
  IndexByte host "[" = None -> IndexByte host "]" = None ->
  IndexByte port ":" = None -> IndexByte port "[" = None -> IndexByte port "]" = None ->
  SplitHostPort (String "[" (host +:+ String "]" (String ":" port))) = inr (host, port).
Proof.
  intros Hh2 Hh3 Hp1 Hp2 Hp3.
  set (tail := String "]" (String ":" port)).
  assert (Hlast : LastIndexByte (String "[" (host +:+ tail)) ":" = Some (String.length host + 2)).
  { replace (String "[" (host +:+ tail))
      with ((String "[" (host +:+ "]")) +:+ String ":" port)
      by (change (String "[" (host +:+ "]") +:+ String ":" port)
            with (String "[" ((host +:+ "]") +:+ String ":" port));
          now rewrite append_assoc).
    rewrite (LastIndexByte_joined _ port ":" Hp1). cbn [String.length].
    rewrite length_append. cbn [String.length]. f_equal. lia. }
  assert (Hclose : IndexByte (String "[" (host +:+ tail)) "]" = Some (String.length host + 1)).
  { cbn [IndexByte]. change (Ascii.eqb "[" "]") with false. cbn iota.
    unfold tail. rewrite (IndexByte_joined host _ "]" Hh3). cbn. f_equal. lia. }
  assert (Hlen : String.length (String "[" (host +:+ tail)) = String.length host + 3 + String.length port).
  { cbn [String.length]. rewrite length_append. unfold tail. cbn [String.length]. lia. }
  unfold SplitHostPort. rewrite Hlast. cbn [HasPrefix]. rewrite Ascii.eqb_refl.
  cbn [andb]. rewrite HasPrefix_empty, Hclose, Hlen. cbv zeta.
  destruct (Nat.eqb_spec (String.length host + 1 + 1)
              (String.length host + 3 + String.length port)); [lia |].
  destruct (Nat.eqb_spec (String.length host + 1 + 1) (String.length host + 2)); [| lia].
  unfold slice. replace (String.length host + 1 - 1) with (String.length host) by lia.
  cbn [substring]. rewrite substring_prefix.
  cbn [slice_from].
  assert (Hopen : IndexByte (host +:+ tail) "[" = None).
  { apply IndexByte_app. split; [exact Hh2 |]. unfold tail. cbn [IndexByte].
    change (Ascii.eqb "]" "[") with false. change (Ascii.eqb ":" "[") with false.
    cbn iota. now rewrite Hp2. }
  rewrite Hopen.
  replace (String.length host + 1 + 1) with (S (String.length (host +:+ "]")))
    by (rewrite length_append; cbn [String.length]; lia).
  cbn [slice_from].
  replace (host +:+ tail) with ((host +:+ "]") +:+ String ":" port)
    by (unfold tail; now rewrite append_assoc).
  rewrite slice_from_suffix. cbn [IndexByte]. change (Ascii.eqb ":" "]") with false.
  cbn iota. rewrite Hp3. cbn [fmap option_fmap option_map].
  replace (String.length host + 2 + 1) with (S (String.length ((host +:+ "]") +:+ ":")))
    by (rewrite !length_append; cbn [String.length]; lia).
  cbn [slice_from].
  replace ((host +:+ "]") +:+ String ":" port) with (((host +:+ "]") +:+ ":") +:+ port)
    by (now rewrite (append_assoc (host +:+ "]") ":" port)).
  now rewrite slice_from_suffix.
Qed.

(** An endpoint written as a host in brackets, a colon and a port in
    decimal, as IPv6 addresses are, is read back as that host, without
    the brackets, and port; the host may hold colons. *)
Theorem parseEndpointHostPort_bracketed (host : string) (port : Z) :
  plainText host = true ->
  IndexByte host "[" = None -> IndexByte host "]" = None ->
  isInt port ->
  parseEndpointHostPort ("[" +:+ host +:+ "]:" +:+ Itoa port)
  = (if String.eqb host "" then "127.0.0.1" else host, port).
Proof.
  intros Hplain H2 H3 Hport.
  destruct (Itoa_bytes port) as [Hp Hbytes].
  change ("[" +:+ host +:+ "]:" +:+ Itoa port)
    with (String "[" (host +:+ String "]" (String ":" (Itoa port)))).
  assert (Htext : TrimSpace (String "[" (host +:+ String "]" (String ":" (Itoa port))))
                  = String "[" (host +:+ String "]" (String ":" (Itoa port)))).
  { apply TrimSpace_plain.
    change (String "[" (host +:+ String "]" (String ":" (Itoa port))))
      with ("[" +:+ (host +:+ String "]" (String ":" (Itoa port)))).
    rewrite !plainText_app, Hplain.
    unfold plainText in *. cbn [list_ascii_of_string forallb andb]. exact Hp. }
  unfold parseEndpointHostPort. cbv zeta. rewrite Htext.
  cbn [String.eqb].
  rewrite (SplitHostPort_bracketed host (Itoa port) H2 H3)
    by (apply Hbytes; [reflexivity | discriminate]).
  rewrite (TrimSpace_plain host Hplain), (Atoi_Itoa port Hport).
  now destruct (String.eqb host "").
Qed.

End BracketedEndpoint.

Lemma parseEndpointHostPort_bracketed_witness :
  configfile.parseEndpointHostPort "[fd00::1]:51820" = ("fd00::1", 51820%Z).
Proof.
  apply (parseEndpointHostPort_bracketed "fd00::1" 51820);
    first [reflexivity | unfold isInt; lia].
Defined.

(** ** The display name of a peer's configuration *)

Section DisplayName.
Import domain configfile.

Lemma append_nonempty (a b : string) : a <> "" -> a +:+ b <> "".
Proof. destruct a; [congruence | discriminate]. Qed.

Lemma HasPrefix_append (a b : string) : HasPrefix (a +:+ b) a = true.
Proof.
  induction a as [| c a IH]; [apply HasPrefix_empty |].
  change (String c a +:+ b) with (String c (a +:+ b)). cbn [HasPrefix].
  now rewrite Ascii.eqb_refl, IH.
Qed.

Lemma HasPrefix_refl (a : string) : HasPrefix a a = true.
Proof. induction a as [| c a IH]; [reflexivity |]. cbn. now rewrite Ascii.eqb_refl, IH. Qed.

Lemma joined_name_empty (a b : string) :
  (if String.eqb a "" then b else if String.eqb b "" then a else a +:+ " - " +:+ b) = ""
  <-> a = "" /\ b = "".
Proof.
  destruct (String.eqb_spec a "") as [-> | Ha]; [tauto |].
  destruct (String.eqb_spec b "") as [-> | Hb]; [tauto |].
  split; [intros E; now apply append_nonempty in E | tauto].
Qed.

Lemma joined_name_prefix (a b : string) :
  a <> "" ->
  HasPrefix (if String.eqb a "" then b else if String.eqb b "" then a else a +:+ " - " +:+ b) a
  = true.
Proof.
  intros Ha. destruct (String.eqb_spec a ""); [contradiction |].
  destruct (String.eqb b ""); [apply HasPrefix_refl | apply HasPrefix_append].
Qed.

Lemma first_name_empty (a b : string) :
  (if String.eqb a "" then b else a) = "" <-> a = "" /\ b = "".
Proof. destruct (String.eqb_spec a "") as [-> | Ha]; tauto. Qed.

(** [getPeerConfigDisplayName] returns the empty name for the nil peer,
    and otherwise only when every candidate is blank: the peer's display
    name and identifier, the identifier of its interface, and the stored
    interface's display name and identifier when the lookup succeeds.  A
    stored interface's display name that is not blank comes first in the
    name; when the lookup fails the peer's interface identifier stands in. *)
Theorem getPeerConfigDisplayName_shape (m : Manager) (peer : PeerNames) :
  let name := getPeerConfigDisplayName m (Some peer) in
  getPeerConfigDisplayName m None = ""
  /\ (name = ""
      <-> SpaceOnly (peer_DisplayName peer) /\ SpaceOnly (peer_Identifier peer)
          /\ SpaceOnly (peer_InterfaceIdentifier peer)
          /\ forall iface, GetInterface (wg m) (peer_InterfaceIdentifier peer) = inr iface ->
                           SpaceOnly (DisplayName iface) /\ SpaceOnly (Identifier iface))
  /\ (forall iface, GetInterface (wg m) (peer_InterfaceIdentifier peer) = inr iface ->
        ~ SpaceOnly (DisplayName iface) ->
        HasPrefix name (TrimSpace (DisplayName iface)) = true)
  /\ (forall cause, GetInterface (wg m) (peer_InterfaceIdentifier peer) = inl cause ->
        ~ SpaceOnly (peer_InterfaceIdentifier peer) ->
        HasPrefix name (TrimSpace (peer_InterfaceIdentifier peer)) = true).
Proof.
  cbv zeta. split; [reflexivity |].
  unfold getPeerConfigDisplayName. cbv zeta.
  rewrite <- !TrimSpace_empty_iff.
  set (pd := TrimSpace (peer_DisplayName peer)).
  set (pid := TrimSpace (peer_Identifier peer)).
  set (pif := TrimSpace (peer_InterfaceIdentifier peer)).
  destruct (GetInterface (wg m) (peer_InterfaceIdentifier peer)) as [cause | iface].
  - rewrite joined_name_empty, first_name_empty.
    split; [| split; [discriminate |]].
    + split; [| tauto].
      intros (E1 & E2 & E3). split; [exact E2 |]. split; [exact E3 |].
      split; [exact E1 |]. intros i Hi. discriminate Hi.
    + intros c _ Hne. rewrite <- TrimSpace_empty_iff in Hne.
      now apply joined_name_prefix.
  - set (idn := TrimSpace (DisplayName iface)).
    set (iid := TrimSpace (Identifier iface)).
    rewrite joined_name_empty, first_name_empty.
    split; [| split; [| discriminate]].
    + split.
      * intros (E1 & E2 & E3).
        destruct (String.eqb_spec idn "") as [Ei | Ei]; cbn [negb] in E1;
          [| contradiction].
        destruct (String.eqb_spec iid "") as [Ed | Ed]; cbn [negb] in E1;
          [| contradiction].
        split; [exact E2 |]. split; [exact E3 |]. split; [exact E1 |].
        intros i [= <-]. rewrite <- !TrimSpace_empty_iff. now split.
      * intros (E2 & E3 & E1 & Hi). destruct (Hi iface eq_refl) as [Ei Ed].
        rewrite <- TrimSpace_empty_iff in Ei, Ed. fold idn in Ei. fold iid in Ed.
        rewrite Ei, Ed. cbn. auto.
    + intros i [= <-] Hne. rewrite <- TrimSpace_empty_iff in Hne. fold idn in Hne.
      destruct (String.eqb_spec idn ""); [contradiction |]. cbn [negb].
      now apply joined_name_prefix.
Qed.

End DisplayName.
